(** * test-saucelabs: the per-platform runner and its coordinator

    A shallow embedding of [index.js] (the version that selects the execution
    mode with [runInSeries]) and of the later revision of the same file that
    adds the stale-element retry and selects the mode with [runInParallel].

    JavaScript values are modelled by [JsVal]; objects used as records of
    capabilities by association lists in insertion order; the callbacks of
    the script by state transformers over an explicit event-loop state. *)

From Stdlib Require Import List String Ascii ZArith Bool Arith Lia Permutation DecimalString.
Import ListNotations.
Open Scope string_scope.

(** ** JavaScript values *)

(** The primitive values a capability or a configuration option can hold.
    [JNum] carries the integer-valued numbers the script uses (timeouts,
    versions), below the magnitude at which JavaScript switches to exponent
    notation. *)
Inductive JsVal : Type :=
| JUndefined
| JNull
| JBool (b : bool)
| JNum (n : Z)
| JStr (s : string).

(** Truthiness, as tested by [v ? a : b], [!v] and [v || w]. *)
Definition ToBoolean (v : JsVal) : bool :=
  match v with
  | JUndefined | JNull => false
  | JBool b => b
  | JNum n => negb (n =? 0)%Z
  | JStr s => negb (s =? "")
  end.

(** String coercion, as performed by [v + ' '] and by template literals. *)
Definition ToString (v : JsVal) : string :=
  match v with
  | JUndefined => "undefined"
  | JNull => "null"
  | JBool true => "true"
  | JBool false => "false"
  | JNum n => NilZero.string_of_int (Z.to_int n)
  | JStr s => s
  end.

(** [a || b] on values. *)
Definition js_or (a b : JsVal) : JsVal := if ToBoolean a then a else b.

(** ** Strings: [String.prototype.trim] *)

(** Code units are the 8-bit characters of [ascii]; the white space among
    them is TAB, LF, VT, FF, CR, SPACE and NBSP. *)
Definition isWhiteSpace (c : ascii) : bool :=
  let n := nat_of_ascii c in
  ((9 <=? n)%nat && (n <=? 13)%nat) || (n =? 32)%nat || (n =? 160)%nat.

Fixpoint trimStart (s : string) : string :=
  match s with
  | EmptyString => EmptyString
  | String c r => if isWhiteSpace c then trimStart r else s
  end.

Fixpoint trimEnd (s : string) : string :=
  match s with
  | EmptyString => EmptyString
  | String c r =>
      match trimEnd r with
      | EmptyString => if isWhiteSpace c then EmptyString else String c EmptyString
      | r' => String c r'
      end
  end.

Definition trim (s : string) : string := trimEnd (trimStart s).

(** ** Objects *)

(** An object literal: its own properties in insertion order, one entry per
    key (the order JavaScript keeps for keys that are not array indices). *)
Definition Obj : Type := list (string * JsVal).

Definition keys (o : Obj) : list string := map fst o.

Definition wf_obj (o : Obj) : Prop := NoDup (keys o).

(** [o.k]: [undefined] when the property is missing. *)
Fixpoint get (o : Obj) (k : string) : JsVal :=
  match o with
  | [] => JUndefined
  | (k', v) :: r => if k' =? k then v else get r k
  end.

(** [o[k] = v]: overwrite in place, or append a new property (where
    JavaScript puts it when [k] is not an array index). *)
Fixpoint set (o : Obj) (k : string) (v : JsVal) : Obj :=
  match o with
  | [] => [(k, v)]
  | (k', v') :: r => if k' =? k then (k', v) :: r else (k', v') :: set r k v
  end.

(** [Object.assign(target, source)]: copy the source's properties in order. *)
Definition assign (target source : Obj) : Obj :=
  fold_left (fun t kv => set t (fst kv) (snd kv)) source target.

(** ** Platform names and platform configuration ([processPlatform]) *)

Section Platform.

(** [process.env.TRAVIS_JOB_ID] and [process.env.TRAVIS_JOB_NUMBER]. *)
Variable TRAVIS_JOB_ID : JsVal.
Variable TRAVIS_JOB_NUMBER : JsVal.

Definition DEFAULT_TEST_NAME : JsVal := JStr "qunit tests".

Definition PLATFORM_DEFAULTS : Obj :=
  [ ("maxDuration", JNum 1800);
    ("commandTimeout", JNum 300);
    ("idleTimeout", JNum 300);
    ("build", TRAVIS_JOB_ID);
    ("tunnelIdentifier", TRAVIS_JOB_NUMBER) ].

(** [platform.f ? platform.f + ' ' : ''] *)
Definition namePart (platform : Obj) (f : string) : string :=
  if ToBoolean (get platform f) then ToString (get platform f) ++ " " else "".

Definition processPlatform (testName : JsVal) (platform : Obj) : Obj :=
  let platformName := "" in
  let platformName := platformName ++ namePart platform "deviceName" in
  let platformName := platformName ++ namePart platform "platform" in
  let platformName := platformName ++ namePart platform "platformName" in
  let platformName := platformName ++ namePart platform "platformVersion" in
  let platformName := platformName ++ namePart platform "browserName" in
  let platformName := platformName ++ namePart platform "version" in
  assign (assign (assign [] PLATFORM_DEFAULTS) platform)
         [ ("name", JStr (ToString testName ++ " (" ++ trim platformName ++ ")")) ].

End Platform.

(** The six naming fields, in the order [processPlatform] reads them. *)
Definition NAME_FIELDS : list string :=
  [ "deviceName"; "platform"; "platformName"; "platformVersion"; "browserName"; "version" ].

(** The fields that contribute to a name: those whose value is truthy. *)
Definition presentFields (platform : Obj) : list string :=
  filter (fun f => ToBoolean (get platform f)) NAME_FIELDS.

(** Concatenation of a list of strings. *)
Definition joinAll (l : list string) : string := fold_right String.append "" l.

(** The display name [processPlatform] computes, as a closed formula. *)
Definition displayName (testName : JsVal) (platform : Obj) : string :=
  ToString testName ++ " ("
    ++ trim (joinAll (map (fun f => ToString (get platform f) ++ " ") (presentFields platform)))
    ++ ")".

(** The display name as the specification words it: the present fields in
    the fixed order, each followed by a separator, with the trailing white
    space removed, then combined with the base name. *)
Definition spec_displayName (testName : JsVal) (platform : Obj) : string :=
  ToString testName ++ " ("
    ++ trimEnd (joinAll (map (fun f => ToString (get platform f) ++ " ") (presentFields platform)))
    ++ ")".

(** ** The event loop: state, effects and the handler monad *)

Definition TaskId : Type := nat.
Definition TimerId : Type := nat.

(** An error object handed to a callback by the driver or the account API.
    [ErrorObject] holds its message and the [class] of [err.cause.value],
    or [None] when [err.cause] is absent or its [value] has no [class];
    [BareCauseError] is an error whose [cause] is present but has no
    [value]. [RetryObject] is the one object [{ type: "RETRY" }] of the
    retry revision, compared by identity. *)
Inductive JsError : Type :=
| ErrorObject (message : string) (cause_class : option string)
| BareCauseError (message : string)
| RetryObject.

Definition errorToString (e : JsError) : string :=
  match e with
  | ErrorObject message _ => message
  | BareCauseError message => message
  | RetryObject => "[object Object]"
  end.

(** The job record returned by [account.showJob]: only [job.error] is read. *)
Record Job : Type := { job_error : JsVal }.

Inductive TimerKind : Type :=
| KeepAliveTimer                 (* setTimeout(initKeepAlive, ...) *)
| JobPollTimer (t : TaskId).     (* setTimeout(pollSauceLabsStatus, ...) *)

Record Timer : Type :=
  { timer_id : TimerId; timer_kind : TimerKind; timer_delay : Z }.

(** Requests in flight, each waiting for its callback. *)
Inductive Op : Type :=
| OpInit (t : TaskId)                       (* driver.init *)
| OpShowJob (t : TaskId)                    (* account.showJob *)
| OpWait (t : TaskId) (selector : string)   (* driver.waitForElementsByCssSelector *)
| OpText (t : TaskId)                       (* driver.text *)
| OpQuit.                                   (* driver.quit(callback) *)

(** What the process does that can be seen from outside. *)
Inductive Action : Type :=
| Stdout (s : string)
| ConsoleLog (s : string)
| DriverInit (platform : Obj)
| DriverGet (url : string)
| DriverSauceJobStatus (status : bool)
| DriverQuit
| TaskCallback (t : TaskId) (err : option JsError)
| ProcessExit (code : Z).

Inductive Mode : Type := Concurrent | Sequential.

Inductive Halt : Type := Exited (code : Z) | Uncaught (msg : string).

(** One entry of [tests]: the arguments [makeTest] closed over. *)
Record Test : Type := { test_url : string; test_platform : Obj }.

(** The module-level variables. *)
Record Vars : Type :=
  { allPlatformsPassed : bool;
    allowZeroAssertions : bool;
    keepAliveTimeoutId : option TimerId;
    retryCount : nat }.

(** The variables of one invocation of a task: [jobTimeoutId], the
    [sessionId] its init callback received, and the results the running
    three-read series has collected. *)
Record Closure : Type :=
  { jobTimeoutId : option TimerId;
    sessionId : option string;
    results : list string }.

(** The coordinator of [async/series] and [async/parallel]. *)
Record Coord : Type :=
  { mode : Mode;
    calledBack : list TaskId;
    completed : nat;
    finished : bool }.

Record State : Type :=
  { vars : Vars;
    tests : list Test;
    closures : list (TaskId * Closure);
    timers : list Timer;
    nextTimerId : TimerId;
    pending : list Op;
    coord : Coord;
    trace : list Action;
    halted : option Halt }.

Definition set_vars (f : Vars -> Vars) (s : State) : State :=
  {| vars := f (vars s); tests := tests s; closures := closures s; timers := timers s;
     nextTimerId := nextTimerId s; pending := pending s; coord := coord s;
     trace := trace s; halted := halted s |}.

Definition set_tests (ts : list Test) (s : State) : State :=
  {| vars := vars s; tests := ts; closures := closures s; timers := timers s;
     nextTimerId := nextTimerId s; pending := pending s; coord := coord s;
     trace := trace s; halted := halted s |}.

Definition set_closures (f : list (TaskId * Closure) -> list (TaskId * Closure)) (s : State) : State :=
  {| vars := vars s; tests := tests s; closures := f (closures s); timers := timers s;
     nextTimerId := nextTimerId s; pending := pending s; coord := coord s;
     trace := trace s; halted := halted s |}.

Definition set_timers (f : list Timer -> list Timer) (s : State) : State :=
  {| vars := vars s; tests := tests s; closures := closures s; timers := f (timers s);
     nextTimerId := nextTimerId s; pending := pending s; coord := coord s;
     trace := trace s; halted := halted s |}.

Definition set_nextTimerId (n : TimerId) (s : State) : State :=
  {| vars := vars s; tests := tests s; closures := closures s; timers := timers s;
     nextTimerId := n; pending := pending s; coord := coord s;
     trace := trace s; halted := halted s |}.

Definition set_pending (f : list Op -> list Op) (s : State) : State :=
  {| vars := vars s; tests := tests s; closures := closures s; timers := timers s;
     nextTimerId := nextTimerId s; pending := f (pending s); coord := coord s;
     trace := trace s; halted := halted s |}.

Definition set_coord (f : Coord -> Coord) (s : State) : State :=
  {| vars := vars s; tests := tests s; closures := closures s; timers := timers s;
     nextTimerId := nextTimerId s; pending := pending s; coord := f (coord s);
     trace := trace s; halted := halted s |}.

Definition set_trace (f : list Action -> list Action) (s : State) : State :=
  {| vars := vars s; tests := tests s; closures := closures s; timers := timers s;
     nextTimerId := nextTimerId s; pending := pending s; coord := coord s;
     trace := f (trace s); halted := halted s |}.

Definition set_halted (h : option Halt) (s : State) : State :=
  {| vars := vars s; tests := tests s; closures := closures s; timers := timers s;
     nextTimerId := nextTimerId s; pending := pending s; coord := coord s;
     trace := trace s; halted := h |}.

(** A handler runs to completion on the state and either returns or throws. *)
Inductive Outcome (A : Type) : Type :=
| Ret (a : A)
| Throw (msg : string).
Arguments Ret {A} a.
Arguments Throw {A} msg.

Definition M (A : Type) : Type := State -> Outcome A * State.

Definition ret {A : Type} (a : A) : M A := fun s => (Ret a, s).

Definition bind {A B : Type} (m : M A) (k : A -> M B) : M B :=
  fun s =>
    match m s with
    | (Ret a, s') => k a s'
    | (Throw msg, s') => (Throw msg, s')
    end.

Definition throw {A : Type} (msg : string) : M A := fun s => (Throw msg, s).

Definition gets {A : Type} (f : State -> A) : M A := fun s => (Ret (f s), s).

Definition modify (f : State -> State) : M unit := fun s => (Ret tt, f s).

Declare Scope handler_scope.
Delimit Scope handler_scope with handler.
Notation "x <- m ;; k" := (bind m (fun x => k))
  (at level 61, m at next level, right associativity) : handler_scope.
Notation "m ;; k" := (bind m (fun _ => k))
  (at level 61, right associativity) : handler_scope.
Open Scope handler_scope.

Definition when (b : bool) (m : M unit) : M unit := if b then m else ret tt.

Definition isSome {A : Type} (o : option A) : bool :=
  match o with Some _ => true | None => false end.

(** *** Primitive effects *)

Definition emit (a : Action) : M unit := modify (set_trace (fun tr => (tr ++ [a])%list)).

(** [setTimeout(f, delay)]: a fresh timer object, always truthy. *)
Definition setTimeout (kind : TimerKind) (delay : Z) : M TimerId :=
  fun s =>
    let id := nextTimerId s in
    (Ret id,
     set_nextTimerId (S id)
       (set_timers (fun ts => (ts ++ [{| timer_id := id; timer_kind := kind; timer_delay := delay |}])%list) s)).

(** [clearTimeout(id)]: no effect when the timer already fired or was cleared. *)
Definition clearTimeout (id : TimerId) : M unit :=
  modify (set_timers (filter (fun tm => negb (timer_id tm =? id)%nat))).

Definition request (op : Op) : M unit := modify (set_pending (fun ps => (ps ++ [op])%list)).

Definition emptyClosure : Closure :=
  {| jobTimeoutId := None; sessionId := None; results := [] |}.

(** The closure of a task comes into being when the task is invoked; until
    a variable is assigned it reads as [undefined]. *)
Fixpoint lookupClosure (t : TaskId) (cs : list (TaskId * Closure)) : Closure :=
  match cs with
  | [] => emptyClosure
  | (u, c) :: r => if (u =? t)%nat then c else lookupClosure t r
  end.

Fixpoint updateClosure (t : TaskId) (f : Closure -> Closure) (cs : list (TaskId * Closure))
  : list (TaskId * Closure) :=
  match cs with
  | [] => [(t, f emptyClosure)]
  | (u, c) :: r => if (u =? t)%nat then (u, f c) :: r else (u, c) :: updateClosure t f r
  end.

Definition closure (t : TaskId) (s : State) : Closure := lookupClosure t (closures s).

Definition set_closure (t : TaskId) (f : Closure -> Closure) : M unit :=
  modify (set_closures (updateClosure t f)).

Definition set_jobTimeoutId (t : TaskId) (v : option TimerId) : M unit :=
  set_closure t (fun c => {| jobTimeoutId := v; sessionId := sessionId c; results := results c |}).

Definition set_sessionId (t : TaskId) (v : option string) : M unit :=
  set_closure t (fun c => {| jobTimeoutId := jobTimeoutId c; sessionId := v; results := results c |}).

Definition set_results (t : TaskId) (v : list string) : M unit :=
  set_closure t (fun c => {| jobTimeoutId := jobTimeoutId c; sessionId := sessionId c; results := v |}).

Definition set_allPlatformsPassed (b : bool) : M unit :=
  modify (set_vars (fun v =>
    {| allPlatformsPassed := b; allowZeroAssertions := allowZeroAssertions v;
       keepAliveTimeoutId := keepAliveTimeoutId v; retryCount := retryCount v |})).

Definition set_allowZeroAssertions (b : bool) : M unit :=
  modify (set_vars (fun v =>
    {| allPlatformsPassed := allPlatformsPassed v; allowZeroAssertions := b;
       keepAliveTimeoutId := keepAliveTimeoutId v; retryCount := retryCount v |})).

Definition set_keepAliveTimeoutId (id : option TimerId) : M unit :=
  modify (set_vars (fun v =>
    {| allPlatformsPassed := allPlatformsPassed v; allowZeroAssertions := allowZeroAssertions v;
       keepAliveTimeoutId := id; retryCount := retryCount v |})).

Definition set_retryCount (n : nat) : M unit :=
  modify (set_vars (fun v =>
    {| allPlatformsPassed := allPlatformsPassed v; allowZeroAssertions := allowZeroAssertions v;
       keepAliveTimeoutId := keepAliveTimeoutId v; retryCount := n |})).

(** [process.exit(code)]. *)
Definition processExit (code : Z) : M unit :=
  emit (ProcessExit code);; modify (set_halted (Some (Exited code))).

Definition platformOf (t : TaskId) (s : State) : Obj :=
  match nth_error (tests s) t with
  | Some tst => test_platform tst
  | None => []
  end.

Definition urlOf (t : TaskId) (s : State) : string :=
  match nth_error (tests s) t with
  | Some tst => test_url tst
  | None => ""
  end.

(** [${platform.name}] *)
Definition platformNameOf (t : TaskId) (s : State) : string :=
  ToString (get (platformOf t s) "name").

(** ** The task runners of the async library

    [parallel(tasks, done)] starts every task at once; [series(tasks, done)]
    starts the first one and each next one when its predecessor calls back.
    Either calls [done] once: when every task has called back without an
    error, or at the first error. The callback handed to a task is guarded:
    a second call raises. *)
Section Async.

Variable task : TaskId -> M unit.
Variable done : M unit.

Definition finish : M unit :=
  fin <- gets (fun s => finished (coord s));;
  if fin then ret tt
  else
    modify (set_coord (fun c =>
      {| mode := mode c; calledBack := calledBack c;
         completed := completed c; finished := true |}));;
    done.

Definition taskCallback (t : TaskId) (err : option JsError) : M unit :=
  emit (TaskCallback t err);;
  called <- gets (fun s => calledBack (coord s));;
  if existsb (Nat.eqb t) called then throw "Error: Callback was already called."
  else
    modify (set_coord (fun c =>
      {| mode := mode c; calledBack := t :: calledBack c;
         completed := completed c; finished := finished c |}));;
    match err with
    | Some _ => finish
    | None =>
        modify (set_coord (fun c =>
          {| mode := mode c; calledBack := calledBack c;
             completed := S (completed c); finished := finished c |}));;
        n <- gets (fun s => List.length (tests s));;
        k <- gets (fun s => completed (coord s));;
        m <- gets (fun s => mode (coord s));;
        fin <- gets (fun s => finished (coord s));;
        if (k =? n)%nat then finish
        else
          match m with
          | Concurrent => ret tt
          | Sequential => if fin then ret tt else task (S t)
          end
    end.

Fixpoint startAll (ts : list TaskId) : M unit :=
  match ts with
  | [] => ret tt
  | t :: r => task t;; startAll r
  end.

Definition start (m : Mode) : M unit :=
  modify (set_coord (fun c =>
    {| mode := m; calledBack := calledBack c;
       completed := completed c; finished := finished c |}));;
  n <- gets (fun s => List.length (tests s));;
  if (n =? 0)%nat then finish
  else
    match m with
    | Concurrent => startAll (seq 0 n)
    | Sequential => task 0
    end.

Definition parallel : M unit := start Concurrent.
Definition series : M unit := start Sequential.

End Async.

(** ** The entry configuration *)

Record UrlObj : Type :=
  { url_url : string;
    url_name : JsVal;
    url_platforms : option (list Obj) }.

(** The options object handed to the entry function. An option left out is
    [None]; each revision destructures the options it knows. *)
Record Config : Type :=
  { urls : list UrlObj;
    platforms : list Obj;
    zeroAssertionsPass : option bool;
    runInParallel : option bool;
    runInSeries : option bool }.

Record Env : Type :=
  { TRAVIS_JOB_ID : JsVal;
    TRAVIS_JOB_NUMBER : JsVal }.

Definition truthy (o : option bool) : bool :=
  match o with Some b => b | None => false end.

(** The state of a freshly loaded module. *)
Definition initial : State :=
  {| vars := {| allPlatformsPassed := true; allowZeroAssertions := true;
                keepAliveTimeoutId := None; retryCount := 0 |};
     tests := []; closures := []; timers := []; nextTimerId := 0; pending := [];
     coord := {| mode := Sequential; calledBack := []; completed := 0; finished := false |};
     trace := []; halted := None |}.

(** Responses of the outside world, delivered one per turn of the loop. *)
Inductive Event : Type :=
| InitDone (t : TaskId) (r : JsError + string)
| ShowJobDone (t : TaskId) (r : JsError + Job)
| WaitDone (t : TaskId) (r : JsError + nat)
| TextDone (t : TaskId) (r : JsError + string)
| TimerFired (id : TimerId)
| QuitDone.

Definition op_eqb (a b : Op) : bool :=
  match a, b with
  | OpInit t, OpInit u => (t =? u)%nat
  | OpShowJob t, OpShowJob u => (t =? u)%nat
  | OpWait t x, OpWait u y => (t =? u)%nat && (x =? y)
  | OpText t, OpText u => (t =? u)%nat
  | OpQuit, OpQuit => true
  | _, _ => false
  end.

(** Remove the first request satisfying [p], if there is one. *)
Fixpoint take (p : Op -> bool) (ps : list Op) : option (Op * list Op) :=
  match ps with
  | [] => None
  | o :: r =>
      if p o then Some (o, r)
      else match take p r with
           | Some (x, r') => Some (x, o :: r')
           | None => None
           end
  end.

Fixpoint takeTimer (id : TimerId) (ts : list Timer) : option (Timer * list Timer) :=
  match ts with
  | [] => None
  | tm :: r =>
      if (timer_id tm =? id)%nat then Some (tm, r)
      else match takeTimer id r with
           | Some (x, r') => Some (x, tm :: r')
           | None => None
           end
  end.

(** Run a handler as one turn of the loop: an exception nobody catches
    ends the process. *)
Definition turn (m : M unit) (s : State) : State :=
  match m s with
  | (Ret _, s') => s'
  | (Throw msg, s') => set_halted (Some (Uncaught msg)) s'
  end.

(** The three selectors of the result summary, in reading order. *)
Definition SELECTORS : list string :=
  [ "#qunit-testresult .passed"; "#qunit-testresult .failed"; "#qunit-testresult .total" ].

(** The verdict on the three scraped counters. *)
Definition allTestsPassed (passed failed total : string) (allowZero : bool) : bool :=
  (passed =? total) && (failed =? "0") && (negb (total =? "0") || allowZero).

(** [[passed, failed, total]] destructured from the results array; an
    entry that is missing reads as [undefined]. *)
Definition nthResult (rs : list string) (i : nat) : string := nth i rs "undefined".

Definition nl : string := String (ascii_of_nat 10) EmptyString.
Definition dq : string := String (ascii_of_nat 34) EmptyString.

Definition verdictWord (b : bool) : string := if b then "Passed" else "Failed".

(** The [urls.forEach] block of the entry function: one test per URL and
    platform, in list order. *)
Definition buildTests (env : Env) (cfg : Config) : list Test :=
  flat_map
    (fun urlObj =>
       let testName := js_or (url_name urlObj) DEFAULT_TEST_NAME in
       let urlPlatforms :=
         match url_platforms urlObj with
         | Some ps => ps
         | None => platforms cfg
         end in
       map (fun platform =>
              {| test_url := url_url urlObj;
                 test_platform :=
                   processPlatform (TRAVIS_JOB_ID env) (TRAVIS_JOB_NUMBER env) testName platform |})
           urlPlatforms)
    (urls cfg).

(** ** The loop

    Each turn delivers one response of the outside world to the callback
    waiting for it, or fires one scheduled timer. *)
Section Loop.

Variable onInit : TaskId -> JsError + string -> M unit.
Variable onShowJob : TaskId -> JsError + Job -> M unit.
Variable onWait : TaskId -> JsError + nat -> M unit.
Variable onText : TaskId -> JsError + string -> M unit.
Variable onTimer : TimerKind -> M unit.
Variable onQuit : M unit.

Definition loop_handle (ev : Event) (s : State) : option State :=
  match ev with
  | InitDone t r =>
      match take (op_eqb (OpInit t)) (pending s) with
      | Some (_, ps) => Some (turn (onInit t r) (set_pending (fun _ => ps) s))
      | None => None
      end
  | ShowJobDone t r =>
      match take (op_eqb (OpShowJob t)) (pending s) with
      | Some (_, ps) => Some (turn (onShowJob t r) (set_pending (fun _ => ps) s))
      | None => None
      end
  | WaitDone t r =>
      match take (fun o => match o with OpWait u _ => (u =? t)%nat | _ => false end) (pending s) with
      | Some (_, ps) => Some (turn (onWait t r) (set_pending (fun _ => ps) s))
      | None => None
      end
  | TextDone t r =>
      match take (op_eqb (OpText t)) (pending s) with
      | Some (_, ps) => Some (turn (onText t r) (set_pending (fun _ => ps) s))
      | None => None
      end
  | TimerFired id =>
      match takeTimer id (timers s) with
      | Some (tm, ts) => Some (turn (onTimer (timer_kind tm)) (set_timers (fun _ => ts) s))
      | None => None
      end
  | QuitDone =>
      match take (op_eqb OpQuit) (pending s) with
      | Some (_, ps) => Some (turn onQuit (set_pending (fun _ => ps) s))
      | None => None
      end
  end.

(** One turn of the loop; a process that has ended takes no more turns. *)
Definition loop_step (ev : Event) (s : State) : option State :=
  if isSome (halted s) then None else loop_handle ev s.

Fixpoint loop_steps (evs : list Event) (s : State) : option State :=
  match evs with
  | [] => Some s
  | ev :: r =>
      match loop_step ev s with
      | Some s' => loop_steps r s'
      | None => None
      end
  end.

End Loop.

(** ** index.js *)

Module IndexJs.

Definition statusPollingInterval : Z := 10000.

Definition initKeepAlive : M unit :=
  emit (Stdout ">");;
  id <- setTimeout KeepAliveTimer statusPollingInterval;;
  set_keepAliveTimeoutId (Some id).

(** The function [makeTest] returns, up to its call of [driver.init]. *)
Definition runTest (t : TaskId) : M unit :=
  ka <- gets (fun s => keepAliveTimeoutId (vars s));;
  when (negb (isSome ka)) initKeepAlive;;
  platform <- gets (platformOf t);;
  emit (DriverInit platform);;
  request (OpInit t).

Definition complete : M unit :=
  passed <- gets (fun s => allPlatformsPassed (vars s));;
  emit (ConsoleLog ("All tests completed. Status: " ++ verdictWord passed ++ "."));;
  request OpQuit.

(** The callback of [driver.quit] in [complete]. *)
Definition onQuit : M unit :=
  passed <- gets (fun s => allPlatformsPassed (vars s));;
  processExit (if passed then 0 else 1).

Definition cb : TaskId -> option JsError -> M unit := taskCallback runTest complete.

Definition testComplete (t : TaskId) (status : bool) : M unit :=
  j <- gets (fun s => jobTimeoutId (closure t s));;
  match j with
  | Some id => clearTimeout id
  | None => ret tt
  end;;
  emit (DriverSauceJobStatus status);;
  emit DriverQuit;;
  passed <- gets (fun s => allPlatformsPassed (vars s));;
  set_allPlatformsPassed (passed && status);;
  cb t None.

Definition pollSauceLabsStatus (t : TaskId) : M unit :=
  request (OpShowJob t).

(** The callback of [account.showJob]. *)
Definition onShowJob (t : TaskId) (r : JsError + Job) : M unit :=
  match r with
  | inl err =>
      emit (ConsoleLog (nl ++ "Error calling account.showJob: " ++ errorToString err))
  | inr job =>
      if ToBoolean (job_error job) then
        emit (ConsoleLog (nl ++ "Job Error: " ++ ToString (job_error job)));;
        testComplete t false
      else
        emit (Stdout ".");;
        id <- setTimeout (JobPollTimer t) statusPollingInterval;;
        set_jobTimeoutId t (Some id)
  end.

(** [getElementText(selector)(callback)], up to the wait it issues. *)
Definition getElementText (t : TaskId) (selector : string) : M unit :=
  request (OpWait t selector).

(** The final callback of the three-read series. *)
Definition checkTestResultsDone (t : TaskId) (err : option JsError) : M unit :=
  match err with
  | Some e =>
      emit (ConsoleLog (nl ++ "Error checking test results: " ++ errorToString e));;
      testComplete t false
  | None =>
      rs <- gets (fun s => results (closure t s));;
      let passed := nthResult rs 0 in
      let failed := nthResult rs 1 in
      let total := nthResult rs 2 in
      allow <- gets (fun s => allowZeroAssertions (vars s));;
      let verdict := allTestsPassed passed failed total allow in
      name <- gets (platformNameOf t);;
      emit (ConsoleLog (nl ++ "Results for " ++ name ++ ": " ++ verdictWord verdict
                          ++ " (" ++ passed ++ " / " ++ total ++ ")."));;
      testComplete t verdict
  end.

(** The callback the series hands to each read: stop at an error, else
    record the text and go on to the next selector. *)
Definition readCallback (t : TaskId) (r : JsError + string) : M unit :=
  match r with
  | inl e => checkTestResultsDone t (Some e)
  | inr text =>
      rs <- gets (fun s => results (closure t s));;
      let rs' := (rs ++ [text])%list in
      set_results t rs';;
      match nth_error SELECTORS (List.length rs') with
      | Some selector => getElementText t selector
      | None => checkTestResultsDone t None
      end
  end.

(** The callback of [driver.waitForElementsByCssSelector]. *)
Definition onWait (t : TaskId) (r : JsError + nat) : M unit :=
  match r with
  | inl err => readCallback t (inl err)
  | inr el => request (OpText t)
  end.

(** The callback of [driver.text]. *)
Definition onText (t : TaskId) (r : JsError + string) : M unit :=
  match r with
  | inl err => readCallback t (inl err)
  | inr text => readCallback t (inr text)
  end.

Definition checkTestResults (t : TaskId) : M unit :=
  set_results t [];;
  match SELECTORS with
  | selector :: _ => getElementText t selector
  | [] => checkTestResultsDone t None
  end.

(** The callback of [driver.init]. *)
Definition onInit (t : TaskId) (r : JsError + string) : M unit :=
  match r with
  | inl err =>
      emit (ConsoleLog ("Error calling driver.init: " ++ errorToString err));;
      testComplete t false
  | inr sid =>
      set_sessionId t (Some sid);;
      ka <- gets (fun s => keepAliveTimeoutId (vars s));;
      match ka with
      | Some id => clearTimeout id
      | None => ret tt
      end;;
      name <- gets (platformNameOf t);;
      emit (ConsoleLog (nl ++ "Job URL for " ++ name ++ ": https://saucelabs.com/jobs/" ++ sid));;
      url <- gets (urlOf t);;
      emit (DriverGet url);;
      pollSauceLabsStatus t;;
      checkTestResults t
  end.

Definition onTimer (k : TimerKind) : M unit :=
  match k with
  | KeepAliveTimer => initKeepAlive
  | JobPollTimer t => pollSauceLabsStatus t
  end.

(** [module.exports]: the option read for the mode is [runInSeries]. *)
Definition module_exports (env : Env) (cfg : Config) : M unit :=
  allow <- gets (fun s => allowZeroAssertions (vars s));;
  set_allowZeroAssertions
    (match zeroAssertionsPass cfg with
     | None => allow
     | Some b => b
     end);;
  let ts := buildTests env cfg in
  modify (set_tests ts);;
  if truthy (runInSeries cfg) then series runTest complete
  else parallel runTest complete.

Definition step : Event -> State -> option State :=
  loop_step onInit onShowJob onWait onText onTimer onQuit.

Definition steps : list Event -> State -> option State :=
  loop_steps onInit onShowJob onWait onText onTimer onQuit.

(** The state in which the entry function returns to the loop. *)
Definition launch (env : Env) (cfg : Config) : State :=
  turn (module_exports env cfg) initial.

Definition reachable (env : Env) (cfg : Config) (s : State) : Prop :=
  exists evs, steps evs (launch env cfg) = Some s.

End IndexJs.

(** ** The retry revision of index.js

    The same script with [runInParallel] as its mode option, timer
    variables reset to [null] once cleared, and a retry of the result
    reading on a stale element. *)

Module Part000.

Definition statusPollingInterval : Z := 10000.

Definition RETRY_ERROR : JsError := RetryObject.
Definition MAX_RETRIES : nat := 10.

Definition initKeepAlive : M unit :=
  emit (Stdout ">");;
  id <- setTimeout KeepAliveTimer statusPollingInterval;;
  set_keepAliveTimeoutId (Some id).

Definition runTest (t : TaskId) : M unit :=
  ka <- gets (fun s => keepAliveTimeoutId (vars s));;
  when (negb (isSome ka)) initKeepAlive;;
  platform <- gets (platformOf t);;
  emit (DriverInit platform);;
  request (OpInit t).

Definition complete : M unit :=
  passed <- gets (fun s => allPlatformsPassed (vars s));;
  emit (ConsoleLog (nl ++ "All tests completed. Status: " ++ verdictWord passed ++ "."));;
  request OpQuit.

Definition onQuit : M unit :=
  passed <- gets (fun s => allPlatformsPassed (vars s));;
  processExit (if passed then 0 else 1).

Definition cb : TaskId -> option JsError -> M unit := taskCallback runTest complete.

Definition testComplete (t : TaskId) (status : bool) : M unit :=
  j <- gets (fun s => jobTimeoutId (closure t s));;
  match j with
  | Some id => clearTimeout id;; set_jobTimeoutId t None
  | None => ret tt
  end;;
  emit (DriverSauceJobStatus status);;
  emit DriverQuit;;
  passed <- gets (fun s => allPlatformsPassed (vars s));;
  set_allPlatformsPassed (passed && status);;
  cb t None.

Definition pollSauceLabsStatus (t : TaskId) : M unit :=
  request (OpShowJob t).

Definition onShowJob (t : TaskId) (r : JsError + Job) : M unit :=
  match r with
  | inl err =>
      name <- gets (platformNameOf t);;
      emit (ConsoleLog (nl ++ name ++ " account.showJob Error: " ++ dq ++ errorToString err ++ dq))
  | inr job =>
      if ToBoolean (job_error job) then
        name <- gets (platformNameOf t);;
        emit (ConsoleLog (nl ++ name ++ " job Error: " ++ dq ++ ToString (job_error job) ++ dq));;
        testComplete t false
      else
        emit (Stdout ".");;
        id <- setTimeout (JobPollTimer t) statusPollingInterval;;
        set_jobTimeoutId t (Some id)
  end.

Definition getElementText (t : TaskId) (selector : string) : M unit :=
  request (OpWait t selector).

(** [retryCount++ < MAX_RETRIES] *)
Definition bumpRetryCount : M bool :=
  n <- gets (fun s => retryCount (vars s));;
  set_retryCount (S n);;
  ret (n <? MAX_RETRIES)%nat.

Definition isRetryError (e : JsError) : bool :=
  match e with
  | RetryObject => true
  | ErrorObject _ _ => false
  | BareCauseError _ => false
  end.

(** The final callback of the three-read series. The retry branch calls
    [setTImeout], a name that is bound nowhere. *)
Definition checkTestResultsDone (t : TaskId) (err : option JsError) : M unit :=
  match err with
  | Some e =>
      retry <- (if isRetryError e then bumpRetryCount else ret false);;
      if retry then
        n <- gets (fun s => retryCount (vars s));;
        emit (ConsoleLog ("StaleElementReference Error. Retrying. Retry Count: "
                            ++ ToString (JNum (Z.of_nat n)) ++ "."));;
        throw "ReferenceError: setTImeout is not defined"
      else
        name <- gets (platformNameOf t);;
        emit (ConsoleLog (nl ++ name ++ " test results Error: " ++ dq ++ errorToString e ++ dq));;
        testComplete t false
  | None =>
      rs <- gets (fun s => results (closure t s));;
      let passed := nthResult rs 0 in
      let failed := nthResult rs 1 in
      let total := nthResult rs 2 in
      allow <- gets (fun s => allowZeroAssertions (vars s));;
      let verdict := allTestsPassed passed failed total allow in
      name <- gets (platformNameOf t);;
      emit (ConsoleLog (nl ++ name ++ " Results: " ++ verdictWord verdict
                          ++ " (" ++ passed ++ " / " ++ total ++ ")."));;
      testComplete t verdict
  end.

Definition readCallback (t : TaskId) (r : JsError + string) : M unit :=
  match r with
  | inl e => checkTestResultsDone t (Some e)
  | inr text =>
      rs <- gets (fun s => results (closure t s));;
      let rs' := (rs ++ [text])%list in
      set_results t rs';;
      match nth_error SELECTORS (List.length rs') with
      | Some selector => getElementText t selector
      | None => checkTestResultsDone t None
      end
  end.

Definition onWait (t : TaskId) (r : JsError + nat) : M unit :=
  match r with
  | inl err =>
      emit (ConsoleLog (nl ++ "waitForElementsByCssSelector Error: " ++ dq ++ errorToString err ++ dq));;
      readCallback t (inl err)
  | inr el => request (OpText t)
  end.

(** [err.cause.value] is read without a guard: when [err.cause] is present
    and has no [value], looking up ["class"] in it raises a [TypeError]. *)
Definition causeLacksValue (e : JsError) : bool :=
  match e with
  | BareCauseError _ => true
  | _ => false
  end.

(** [err && err.cause && err.cause.value["class"] === "...StaleElementReferenceException"],
    where it evaluates to a boolean. *)
Definition isStaleElementReference (e : JsError) : bool :=
  match e with
  | ErrorObject _ (Some c) => c =? "org.openqa.selenium.StaleElementReferenceException"
  | _ => false
  end.

(** The callback of [driver.text]: on a stale element it calls [cb], the
    callback of the task, not [callback], the one of the read. The wording
    of the [TypeError] is that of the Node.js releases of the time. *)
Definition onText (t : TaskId) (r : JsError + string) : M unit :=
  match r with
  | inl err =>
      if causeLacksValue err then
        throw "TypeError: Cannot read property 'class' of undefined"
      else if isStaleElementReference err then cb t (Some RETRY_ERROR)
      else readCallback t (inl err)
  | inr text => readCallback t (inr text)
  end.

Definition checkTestResults (t : TaskId) : M unit :=
  set_results t [];;
  match SELECTORS with
  | selector :: _ => getElementText t selector
  | [] => checkTestResultsDone t None
  end.

Definition onInit (t : TaskId) (r : JsError + string) : M unit :=
  match r with
  | inl err =>
      name <- gets (platformNameOf t);;
      emit (ConsoleLog (nl ++ name ++ " driver.init Error: " ++ dq ++ errorToString err ++ dq));;
      testComplete t false
  | inr sid =>
      set_sessionId t (Some sid);;
      ka <- gets (fun s => keepAliveTimeoutId (vars s));;
      match ka with
      | Some id => clearTimeout id;; set_keepAliveTimeoutId None
      | None => ret tt
      end;;
      name <- gets (platformNameOf t);;
      emit (ConsoleLog (nl ++ name ++ " Job URL: https://saucelabs.com/jobs/" ++ sid));;
      url <- gets (urlOf t);;
      emit (DriverGet url);;
      pollSauceLabsStatus t;;
      checkTestResults t
  end.

Definition onTimer (k : TimerKind) : M unit :=
  match k with
  | KeepAliveTimer => initKeepAlive
  | JobPollTimer t => pollSauceLabsStatus t
  end.

(** [module.exports]: the option read for the mode is [runInParallel]. *)
Definition module_exports (env : Env) (cfg : Config) : M unit :=
  allow <- gets (fun s => allowZeroAssertions (vars s));;
  set_allowZeroAssertions
    (match zeroAssertionsPass cfg with
     | None => allow
     | Some b => b
     end);;
  let ts := buildTests env cfg in
  modify (set_tests ts);;
  if truthy (runInParallel cfg) then parallel runTest complete
  else series runTest complete.

Definition step : Event -> State -> option State :=
  loop_step onInit onShowJob onWait onText onTimer onQuit.

Definition steps : list Event -> State -> option State :=
  loop_steps onInit onShowJob onWait onText onTimer onQuit.

Definition launch (env : Env) (cfg : Config) : State :=
  turn (module_exports env cfg) initial.

Definition reachable (env : Env) (cfg : Config) (s : State) : Prop :=
  exists evs, steps evs (launch env cfg) = Some s.

End Part000.

(** ** Observations on states *)

(** The outcomes reported so far, in the order [testComplete] reported them. *)
Fixpoint statuses (tr : list Action) : list bool :=
  match tr with
  | [] => []
  | DriverSauceJobStatus b :: r => b :: statuses r
  | _ :: r => statuses r
  end.

(** The arguments task [t] has passed to its completion callback. *)
Fixpoint callbacksOf (t : TaskId) (tr : list Action) : list (option JsError) :=
  match tr with
  | [] => []
  | TaskCallback u e :: r => if (u =? t)%nat then e :: callbacksOf t r else callbacksOf t r
  | _ :: r => callbacksOf t r
  end.

Definition isKeepAlive (tm : Timer) : bool :=
  match timer_kind tm with
  | KeepAliveTimer => true
  | JobPollTimer _ => false
  end.

Definition isJobPoll (t : TaskId) (tm : Timer) : bool :=
  match timer_kind tm with
  | KeepAliveTimer => false
  | JobPollTimer u => (u =? t)%nat
  end.

(** The heartbeat timers that are scheduled. *)
Definition heartbeats (s : State) : list Timer := filter isKeepAlive (timers s).

(** Some task has received a session from [driver.init]. *)
Definition established (s : State) : bool :=
  existsb (fun tc => isSome (sessionId (snd tc))) (closures s).

Definition isOpInit (o : Op) : bool :=
  match o with OpInit _ => true | _ => false end.

(** A read of task [t] is in flight. *)
Definition isReadOf (t : TaskId) (o : Op) : bool :=
  match o with
  | OpWait u _ => (u =? t)%nat
  | OpText u => (u =? t)%nat
  | _ => false
  end.

(** The exit status the coordinator hands to the process. *)
Definition exitCode (aggregate : bool) : Z := if aggregate then 0%Z else 1%Z.

(** The zero-assertions policy a configuration selects on a fresh module. *)
Definition policy (cfg : Config) : bool :=
  match zeroAssertionsPass cfg with
  | None => true
  | Some b => b
  end.

(** The invariant of the heartbeat in index.js: timer identifiers are fresh
    and distinct, every scheduled heartbeat is the one [keepAliveTimeoutId]
    names, none is scheduled once a session exists, and the variable is set
    as soon as an initialisation has been requested. *)
Record HeartbeatInv (s : State) : Prop :=
  { hb_fresh : Forall (fun tm => timer_id tm < nextTimerId s) (timers s);
    hb_distinct : NoDup (map timer_id (timers s));
    hb_current : Forall (fun tm => keepAliveTimeoutId (vars s) = Some (timer_id tm)) (heartbeats s);
    hb_stopped : established s = true -> heartbeats s = [];
    hb_started : established s = true \/ existsb isOpInit (pending s) = true ->
                 keepAliveTimeoutId (vars s) <> None }.

(** The invariant of the aggregate: [allPlatformsPassed] is the conjunction
    of the outcomes reported, and an exit carries the matching code. *)
Record AggregateInv (s : State) : Prop :=
  { agg_and : allPlatformsPassed (vars s) = forallb (fun b => b) (statuses (trace s));
    agg_exit : forall code, halted s = Some (Exited code) ->
               code = exitCode (forallb (fun b => b) (statuses (trace s))) }.

(** *** Sample inputs *)

Definition sampleEnv : Env := {| TRAVIS_JOB_ID := JStr "77"; TRAVIS_JOB_NUMBER := JStr "77.1" |}.

Definition samplePlatforms : list Obj :=
  [ [("browserName", JStr "chrome"); ("platform", JStr "Windows 10")];
    [("browserName", JStr "firefox"); ("version", JStr "11")] ].

Definition sampleUrls : list UrlObj :=
  [ {| url_url := "http://localhost:3000/test.html"; url_name := JUndefined; url_platforms := None |} ].

(** Nothing but [urls] and [platforms] supplied. *)
Definition cfgDefault : Config :=
  {| urls := sampleUrls; platforms := samplePlatforms;
     zeroAssertionsPass := None; runInParallel := None; runInSeries := None |}.

Definition cfgSeries : Config :=
  {| urls := sampleUrls; platforms := samplePlatforms;
     zeroAssertionsPass := None; runInParallel := None; runInSeries := Some true |}.

Definition cfgNotParallel : Config :=
  {| urls := sampleUrls; platforms := samplePlatforms;
     zeroAssertionsPass := Some false; runInParallel := Some false; runInSeries := None |}.

Definition staleError : JsError :=
  ErrorObject "Error: stale element reference"
              (Some "org.openqa.selenium.StaleElementReferenceException").

Definition queryError : JsError := ErrorObject "Error: ECONNRESET" None.

(** ** Predicates on states and sample runs *)

(** [pres I m]: the handler [m] takes states satisfying [I] to states
    satisfying [I], whether it returns or throws. *)
Definition pres (I : State -> Prop) {A : Type} (m : M A) : Prop :=
  forall s, I s -> I (snd (m s)).

Definition AggRunning (s : State) : Prop :=
  allPlatformsPassed (vars s) = forallb (fun b => b) (statuses (trace s)) /\ halted s = None.

Definition noJobError : Job := {| job_error := JUndefined |}.

(** A sequential run of two platforms: the first passes 5 of 5, the second
    fails 1 of 5; then the process exits. *)
Definition sampleEvents : list Event :=
  [ InitDone 0 (inr "session-a"); ShowJobDone 0 (inr noJobError);
    WaitDone 0 (inr 1); TextDone 0 (inr "5");
    WaitDone 0 (inr 2); TextDone 0 (inr "0");
    WaitDone 0 (inr 3); TextDone 0 (inr "5");
    InitDone 1 (inr "session-b");
    WaitDone 1 (inr 1); TextDone 1 (inr "4");
    WaitDone 1 (inr 2); TextDone 1 (inr "1");
    WaitDone 1 (inr 3); TextDone 1 (inr "5");
    QuitDone ].

Definition sampleFinal : State :=
  match IndexJs.steps sampleEvents (IndexJs.launch sampleEnv cfgSeries) with
  | Some s => s
  | None => initial
  end.

Definition PolicyIs (b : bool) (s : State) : Prop := allowZeroAssertions (vars s) = b.

(** A run that initialises the first platform and starts reading. *)
Definition sampleSession : State :=
  match IndexJs.steps [InitDone 0 (inr "session-a"); ShowJobDone 0 (inr noJobError); WaitDone 0 (inr 1)]
          (IndexJs.launch sampleEnv cfgDefault) with
  | Some s => s
  | None => initial
  end.

Definition StatusesAre (l : list bool) (s : State) : Prop := statuses (trace s) = l.

(** The second platform of the sample run, its three counters just read. *)
Definition sampleRead : State :=
  match IndexJs.steps (firstn 14 sampleEvents) (IndexJs.launch sampleEnv cfgSeries) with
  | Some s => snd (set_results 1 ["4"; "1"; "5"] s)
  | None => initial
  end.

(** What starting a task does to the queue of requests. *)
Definition StartsInit (task : TaskId -> M unit) : Prop :=
  forall t s,
    fst (task t s) = Ret tt
    /\ pending (snd (task t s)) = (pending s ++ [OpInit t])%list
    /\ coord (snd (task t s)) = coord s
    /\ tests (snd (task t s)) = tests s.

(** The requests in flight when the entry function returns. *)
Definition started (m : Mode) (n : nat) : list Op :=
  match n, m with
  | O, _ => [OpQuit]
  | _, Concurrent => map OpInit (seq 0 n)
  | _, Sequential => [OpInit 0]
  end.

(** The mode each revision selects. *)
Definition modeIndex (cfg : Config) : Mode :=
  if truthy (runInSeries cfg) then Sequential else Concurrent.

Definition modePart000 (cfg : Config) : Mode :=
  if truthy (runInParallel cfg) then Concurrent else Sequential.

(** Neither a poll timer of task [t] nor a status query of task [t] has
    been added since [s0]. *)
Definition NoRearm (t : TaskId) (s0 s : State) : Prop :=
  (forall tm, In tm (timers s) -> isJobPoll t tm = true -> In tm (timers s0))
  /\ (forall o, In o (pending s) -> o = OpShowJob t -> In o (pending s0)).

(** What the callback of the status query and the poll timer do, for a
    poller polling every [interval] milliseconds. *)
Definition PollerBehaviour (onShowJob : TaskId -> JsError + Job -> M unit)
    (onTimer : TimerKind -> M unit) (interval : Z) : Prop :=
  (* the query fails: one line is logged and nothing else changes *)
  (forall t err s, exists msg,
      turn (onShowJob t (inl err)) s = set_trace (fun tr => (tr ++ [ConsoleLog msg])%list) s)
  (* the job reports an error: the outcome false, and no new poll *)
  /\ (forall t job s, ToBoolean (job_error job) = true ->
        statuses (trace (turn (onShowJob t (inr job)) s)) = (statuses (trace s) ++ [false])%list
        /\ NoRearm t s (turn (onShowJob t (inr job)) s))
  (* the job reports none: a tick, and a timer for the next poll *)
  /\ (forall t job s, ToBoolean (job_error job) = false ->
        turn (onShowJob t (inr job)) s
        = snd (set_jobTimeoutId t (Some (nextTimerId s))
                 (set_nextTimerId (S (nextTimerId s))
                    (set_timers (fun ts => (ts ++ [{| timer_id := nextTimerId s;
                                                      timer_kind := JobPollTimer t;
                                                      timer_delay := interval |}])%list)
                       (set_trace (fun tr => (tr ++ [Stdout "."])%list) s)))))
  (* the timer fires: the same query again *)
  /\ (forall t s,
        turn (onTimer (JobPollTimer t)) s = set_pending (fun ps => (ps ++ [OpShowJob t])%list) s).

(** The first platform of a default run, its session just established:
    one status query and the first wait are in flight. *)
Definition samplePolling : State :=
  match IndexJs.steps [InitDone 0 (inr "session-a")] (IndexJs.launch sampleEnv cfgDefault) with
  | Some s => s
  | None => initial
  end.

(** The first platform of a sequential run, waiting for the text of the
    first counter; no retry has been made yet. *)
Definition sampleReading : State :=
  match Part000.steps [InitDone 0 (inr "session-a"); ShowJobDone 0 (inr noJobError); WaitDone 0 (inr 1)]
          (Part000.launch sampleEnv cfgDefault) with
  | Some s => s
  | None => initial
  end.

Definition sampleStale : State :=
  match Part000.step (TextDone 0 (inl staleError)) sampleReading with
  | Some s => s
  | None => initial
  end.

(** ** Further definitions: names, task lists and the first revision *)

(** The first and the last character of a string, as white space. *)
Definition startsWithSpace (s : string) : bool :=
  match s with
  | EmptyString => false
  | String c _ => isWhiteSpace c
  end.

Fixpoint endsWithSpace (s : string) : bool :=
  match s with
  | EmptyString => false
  | String c EmptyString => isWhiteSpace c
  | String _ r => endsWithSpace r
  end.

(** A value that is not empty and has no white space at either end. *)
Definition tidy (s : string) : bool :=
  negb (s =? "") && negb (startsWithSpace s) && negb (endsWithSpace s).

(** The texts of the fields that contribute to a name, in naming order. *)
Definition presentTexts (platform : Obj) : list string :=
  map (fun f => ToString (get platform f)) (presentFields platform).

(** [urlObj.platforms || platforms] *)
Definition resolvedPlatforms (cfg : Config) (urlObj : UrlObj) : list Obj :=
  match url_platforms urlObj with
  | Some ps => ps
  | None => platforms cfg
  end.

(** The first revision of the script: [processPlatform] builds the name as
    the base name, a dash and the parts, and does not trim it. *)
Module Part001.

Definition processPlatform (e1 e2 : JsVal) (testName : JsVal) (platform : Obj) : Obj :=
  let name := ToString testName ++ " - " in
  let name := name ++ namePart platform "deviceName" in
  let name := name ++ namePart platform "platform" in
  let name := name ++ namePart platform "platformName" in
  let name := name ++ namePart platform "platformVersion" in
  let name := name ++ namePart platform "browserName" in
  let name := name ++ namePart platform "version" in
  assign (assign (assign [] (PLATFORM_DEFAULTS e1 e2)) platform)
         [ ("name", JStr name) ].

End Part001.

(** The name the first revision computes, as a closed formula. *)
Definition dashedName (testName : JsVal) (platform : Obj) : string :=
  ToString testName ++ " - "
    ++ joinAll (map (fun f => ToString (get platform f) ++ " ") (presentFields platform)).

Definition RetryCountIs (n : nat) (s : State) : Prop := retryCount (vars s) = n.

(** The arguments of every call of a completion callback, in order. *)
Fixpoint allCallbacks (tr : list Action) : list (option JsError) :=
  match tr with
  | [] => []
  | TaskCallback _ e :: r => e :: allCallbacks r
  | _ :: r => allCallbacks r
  end.

(** The number of calls of [driver.quit()] made by [testComplete]. *)
Fixpoint quits (tr : list Action) : nat :=
  match tr with
  | [] => 0
  | DriverQuit :: r => S (quits r)
  | _ :: r => quits r
  end.

(** Every completion so far reported one outcome, closed the browser once
    and called back once, without an error. *)
Definition Disciplined (s : State) : Prop :=
  Forall (fun e => e = None) (allCallbacks (trace s))
  /\ List.length (allCallbacks (trace s)) = List.length (statuses (trace s))
  /\ quits (trace s) = List.length (statuses (trace s)).

(** The pages the driver was sent to, in order. *)
Fixpoint navigations (tr : list Action) : list string :=
  match tr with
  | [] => []
  | DriverGet url :: r => url :: navigations r
  | _ :: r => navigations r
  end.

(** Since [s0], task [t] has been sent to no page, and no status query, no
    read and no poll timer of task [t] has been added. *)
Definition Quiet (t : TaskId) (s0 s : State) : Prop :=
  (forall o, In o (pending s) -> o = OpShowJob t \/ isReadOf t o = true -> In o (pending s0))
  /\ navigations (trace s) = navigations (trace s0)
  /\ (forall tm, In tm (timers s) -> isJobPoll t tm = true -> In tm (timers s0)).

(** Reading the three counters of task [t]: the reading starts, then each
    wait finds its element and each text arrives. *)
Definition readThree (checkTestResults : TaskId -> M unit)
    (onWait : TaskId -> JsError + nat -> M unit)
    (onText : TaskId -> JsError + string -> M unit)
    (t : TaskId) (passed failed : string) (s : State) : State :=
  let s := turn (checkTestResults t) s in
  let s := turn (onWait t (inr 1)) s in
  let s := turn (onText t (inr passed)) s in
  let s := turn (onWait t (inr 2)) s in
  let s := turn (onText t (inr failed)) s in
  turn (onWait t (inr 3)) s.

(** An event that would hand a callback the retry revision's own
    [RETRY_ERROR] object, which the driver and the account API never hold. *)
Definition carriesRetryObject (ev : Event) : bool :=
  match ev with
  | InitDone _ (inl RetryObject) => true
  | ShowJobDone _ (inl RetryObject) => true
  | WaitDone _ (inl RetryObject) => true
  | TextDone _ (inl RetryObject) => true
  | _ => false
  end.

(** What index.js keeps besides [HeartbeatInv]: the timer a task remembers
    in [jobTimeoutId] was created earlier and is not the heartbeat;
    [keepAliveTimeoutId] names a timer created earlier; and from the first
    task on, as long as no session exists, a heartbeat is scheduled. *)
Record HeartbeatLive (s : State) : Prop :=
  { live_job : Forall (fun tc => forall id, jobTimeoutId (snd tc) = Some id ->
                                   id < nextTimerId s /\ keepAliveTimeoutId (vars s) <> Some id)
                      (closures s);
    live_fresh : forall k, keepAliveTimeoutId (vars s) = Some k -> k < nextTimerId s;
    live_beating : keepAliveTimeoutId (vars s) <> None -> established s = false ->
                   heartbeats s <> [] }.

Definition LiveInv (s : State) : Prop := HeartbeatInv s /\ HeartbeatLive s.

Definition HeartbeatSet (s : State) : Prop := keepAliveTimeoutId (vars s) <> None.

(** The first heartbeat fires, then the first platform fails to initialise. *)
Definition sampleNoSession : State :=
  match IndexJs.steps [TimerFired 0; InitDone 0 (inl queryError)]
          (IndexJs.launch sampleEnv cfgDefault) with
  | Some s => s
  | None => initial
  end.

(** The invariant of the heartbeat in the retry revision, which resets
    [keepAliveTimeoutId] when it clears the timer: timer identifiers are
    fresh and distinct, every scheduled heartbeat is the one the variable
    names, one is scheduled whenever the variable is set, and the poll timer
    a task remembers is never the heartbeat. *)
Record KeepAliveInv (s : State) : Prop :=
  { ka_fresh : Forall (fun tm => timer_id tm < nextTimerId s) (timers s);
    ka_distinct : NoDup (map timer_id (timers s));
    ka_current : Forall (fun tm => keepAliveTimeoutId (vars s) = Some (timer_id tm)) (heartbeats s);
    ka_present : keepAliveTimeoutId (vars s) <> None -> heartbeats s <> [];
    ka_job : Forall (fun tc => forall id, jobTimeoutId (snd tc) = Some id ->
                                 id < nextTimerId s /\ keepAliveTimeoutId (vars s) <> Some id)
                    (closures s) }.

(** Two platforms one after another in the retry revision: the first has
    its session, the second is being initialised. *)
Definition sampleSecondInit : State :=
  match Part000.steps (firstn 8 sampleEvents) (Part000.launch sampleEnv cfgDefault) with
  | Some s => s
  | None => initial
  end.

(** ** Further samples and key classes *)

(** A key written with decimal digits only. JavaScript lists the keys of an
    object that are array indices, which are such strings, in ascending
    order before all its other keys; the other keys come in insertion
    order. *)
Definition isDigit (c : ascii) : bool :=
  let n := nat_of_ascii c in (48 <=? n)%nat && (n <=? 57)%nat.

Fixpoint allDigits (k : string) : bool :=
  match k with
  | EmptyString => true
  | String c r => isDigit c && allDigits r
  end.

Definition digitsOnly (k : string) : bool :=
  match k with
  | EmptyString => false
  | String _ _ => allDigits k
  end.

(** The sequential run of the two sample platforms in the retry revision. *)
Definition samplePart000Final : State :=
  match Part000.steps sampleEvents (Part000.launch sampleEnv cfgDefault) with
  | Some s => s
  | None => initial
  end.

(** An error of the driver whose cause has no value. *)
Definition bareError : JsError := BareCauseError "Error: socket hang up".

(** A first call of the entry function that has nothing to test and
    forbids zero assertions. *)
Definition cfgStrictEmpty : Config :=
  {| urls := []; platforms := [];
     zeroAssertionsPass := Some false; runInParallel := None; runInSeries := None |}.

(** The entry function of index.js called a second time in the same
    process, now with [zeroAssertionsPass] left out, while the first call's
    [driver.quit] is still in flight. *)
Definition sampleSecondCall : State :=
  turn (IndexJs.module_exports sampleEnv cfgDefault) (IndexJs.launch sampleEnv cfgStrictEmpty).

(** The first platform gets its session and its three counters read 0. *)
Definition zeroCounterEvents : list Event :=
  [ InitDone 0 (inr "session-a");
    WaitDone 0 (inr 1); TextDone 0 (inr "0");
    WaitDone 0 (inr 2); TextDone 0 (inr "0");
    WaitDone 0 (inr 3); TextDone 0 (inr "0") ].

(** A default run of index.js and one that forbids zero assertions, each
    with two counters of the first platform read as 0 and the text of the
    third awaited. *)
Definition sampleZeroDefault : State :=
  match IndexJs.steps (firstn 6 zeroCounterEvents) (IndexJs.launch sampleEnv cfgDefault) with
  | Some s => s
  | None => initial
  end.

Definition sampleZeroStrict : State :=
  match IndexJs.steps (firstn 6 zeroCounterEvents) (IndexJs.launch sampleEnv cfgNotParallel) with
  | Some s => s
  | None => initial
  end.

(** ** The order in which the tasks are started *)

(** The platforms handed to [driver.init], in the order of the calls: one
    entry each time a task is started. *)
Fixpoint initPlatforms (tr : list Action) : list Obj :=
  match tr with
  | [] => []
  | DriverInit platform :: r => platform :: initPlatforms r
  | _ :: r => initPlatforms r
  end.

(** The calls of task callbacks: the task and the error passed. *)
Fixpoint taskCallbacks (tr : list Action) : list (TaskId * option JsError) :=
  match tr with
  | [] => []
  | TaskCallback t e :: r => (t, e) :: taskCallbacks r
  | _ :: r => taskCallbacks r
  end.

(** The task a request in flight, or a scheduled timer, belongs to. *)
Definition opTask (o : Op) : option TaskId :=
  match o with
  | OpInit t => Some t
  | OpShowJob t => Some t
  | OpWait t _ => Some t
  | OpText t => Some t
  | OpQuit => None
  end.

Definition timerTask (tm : Timer) : option TaskId :=
  match timer_kind tm with
  | KeepAliveTimer => None
  | JobPollTimer t => Some t
  end.

(** The invariant of a sequential run of the task list [T] of which the
    first [k] tasks have been started: they were started in list order;
    only they have requests or timers outstanding; a task has called back
    as soon as its callback is in the trace; every started task but the
    last has called back with [null]; and either the last started task is
    still running, or the run is over, with every task started or after a
    callback that carried an error. *)
Record SeqInv (T : list Test) (k : nat) (s : State) : Prop :=
  { sq_mode : mode (coord s) = Sequential;
    sq_tests : tests s = T;
    sq_inits : initPlatforms (trace s) = map test_platform (firstn k T);
    sq_le : k <= List.length T;
    sq_pos : 0 < List.length T -> 0 < k;
    sq_ops : Forall (fun o => forall t, opTask o = Some t -> t < k) (pending s);
    sq_timers : Forall (fun tm => forall t, timerTask tm = Some t -> t < k) (timers s);
    sq_called : forall t e, In (t, e) (taskCallbacks (trace s)) -> In t (calledBack (coord s));
    sq_null : forall j, S j < k -> In (j, None) (taskCallbacks (trace s));
    sq_phase :
      (finished (coord s) = false
       /\ k = S (completed (coord s))
       /\ forall j, In j (calledBack (coord s)) <-> j < completed (coord s))
      \/ (finished (coord s) = true
          /\ (forall j, j < k -> In j (calledBack (coord s)))
          /\ (k = List.length T
              \/ exists e, In (pred k, Some e) (taskCallbacks (trace s)))) }.

(** The invariant holds for some number of started tasks, among them the
    task [b] when one is named. *)
Definition SeqBound (T : list Test) (b : option TaskId) (s : State) : Prop :=
  exists k, SeqInv T k s /\ forall t, b = Some t -> t < k.

(** The invariant of a concurrent run: every task has been started, once,
    in list order. *)
Record ConcInv (T : list Test) (s : State) : Prop :=
  { cc_mode : mode (coord s) = Concurrent;
    cc_tests : tests s = T;
    cc_inits : initPlatforms (trace s) = map test_platform T }.

(** What the coordinator relies on: a task, when started, calls
    [driver.init] with its platform and touches neither the coordinator
    nor the other tasks; the completion only asks the driver to quit. *)
Definition TaskEffect (task : TaskId -> M unit) : Prop :=
  forall u s,
    fst (task u s) = Ret tt
    /\ coord (snd (task u s)) = coord s
    /\ tests (snd (task u s)) = tests s
    /\ initPlatforms (trace (snd (task u s))) = (initPlatforms (trace s) ++ [platformOf u s])%list
    /\ taskCallbacks (trace (snd (task u s))) = taskCallbacks (trace s)
    /\ pending (snd (task u s)) = (pending s ++ [OpInit u])%list
    /\ forall k, Forall (fun tm => forall t, timerTask tm = Some t -> t < k) (timers s) ->
                 Forall (fun tm => forall t, timerTask tm = Some t -> t < k) (timers (snd (task u s))).

Definition DoneEffect (done : M unit) : Prop :=
  forall s,
    coord (snd (done s)) = coord s
    /\ tests (snd (done s)) = tests s
    /\ initPlatforms (trace (snd (done s))) = initPlatforms (trace s)
    /\ taskCallbacks (trace (snd (done s))) = taskCallbacks (trace s)
    /\ pending (snd (done s)) = (pending s ++ [OpQuit])%list
    /\ timers (snd (done s)) = timers s.

(** A state in which the coordinator has not been used and nothing is
    outstanding, with the task list [T]. *)
Record Unstarted (T : list Test) (s : State) : Prop :=
  { un_tests : tests s = T;
    un_inits : initPlatforms (trace s) = [];
    un_calls : taskCallbacks (trace s) = [];
    un_pending : pending s = [];
    un_timers : timers s = [];
    un_called : calledBack (coord s) = [];
    un_completed : completed (coord s) = 0;
    un_finished : finished (coord s) = false }.

(** What a run shows when its tasks are all started at once: each task of
    the list has been handed to [driver.init], once, in list order. *)
Definition AllStarted (T : list Test) (s : State) : Prop :=
  initPlatforms (trace s) = map test_platform T.

(** What a run shows when its tasks go one after another: the tasks started
    so far are the first [k] of the list, in list order (the first one as
    soon as there is one); each of them but the last has called back with
    [null]; and when the last one has called back and tasks remain, one of
    its callbacks carried an error, which ends the run. *)
Definition OneAfterAnother (T : list Test) (s : State) : Prop :=
  exists k,
    k <= List.length T
    /\ (0 < List.length T -> 0 < k)
    /\ initPlatforms (trace s) = map test_platform (firstn k T)
    /\ (forall j, S j < k -> In (TaskCallback j None) (trace s))
    /\ (k < List.length T ->
        forall e, In (TaskCallback (pred k) e) (trace s) ->
                  exists e', In (TaskCallback (pred k) (Some e')) (trace s)).

(** The sequential run of the two sample platforms in index.js, the first
    platform just done. *)
Definition sampleSecondStarted : State :=
  match IndexJs.steps (firstn 8 sampleEvents) (IndexJs.launch sampleEnv cfgSeries) with
  | Some s => s
  | None => initial
  end.

(** The same point of the sequential run in the retry revision. *)
Definition samplePart000SecondStarted : State :=
  match Part000.steps (firstn 8 sampleEvents) (Part000.launch sampleEnv cfgDefault) with
  | Some s => s
  | None => initial
  end.

(** The retry revision asked to run everything at once. *)
Definition cfgParallel : Config :=
  {| urls := sampleUrls; platforms := samplePlatforms;
     zeroAssertionsPass := None; runInParallel := Some true; runInSeries := None |}.

(** * Properties *)

(** ** Strings and objects *)

Lemma append_nil_r (s : string) : s ++ "" = s.
Proof. induction s as [|c s IH]; simpl; [reflexivity | now rewrite IH]. Qed.

Lemma append_assoc (a b c : string) : (a ++ b) ++ c = a ++ (b ++ c).
Proof. induction a as [|x a IH]; simpl; [reflexivity | now rewrite IH]. Qed.

Lemma get_set_same (o : Obj) (k : string) (v : JsVal) : get (set o k v) k = v.
Proof.
  induction o as [|[k' v'] r IH]; simpl.
  - now rewrite String.eqb_refl.
  - destruct (k' =? k) eqn:E; simpl; rewrite E; auto.
Qed.

Lemma get_set_other (o : Obj) (k k' : string) (v : JsVal) :
  k <> k' -> get (set o k v) k' = get o k'.
Proof.
  intros Hne. induction o as [|[k0 v0] r IH]; simpl.
  - apply String.eqb_neq in Hne. now rewrite Hne.
  - destruct (k0 =? k) eqn:E; simpl.
    + apply String.eqb_eq in E. subst k0.
      apply String.eqb_neq in Hne. now rewrite Hne.
    + now rewrite IH.
Qed.

Lemma get_absent (o : Obj) (k : string) : ~ In k (keys o) -> get o k = JUndefined.
Proof.
  induction o as [|[k' v'] r IH]; simpl; intros H; [reflexivity|].
  destruct (k' =? k) eqn:E.
  - apply String.eqb_eq in E. tauto.
  - apply IH. tauto.
Qed.

Lemma get_present (o : Obj) (k : string) (v : JsVal) :
  wf_obj o -> In (k, v) o -> get o k = v.
Proof.
  unfold wf_obj. induction o as [|[k' v'] r IH]; simpl; intros Hnd Hin; [contradiction|].
  inversion Hnd as [|? ? Hnotin Hnd']; subst.
  destruct Hin as [Heq | Hin].
  - inversion Heq; subst. now rewrite String.eqb_refl.
  - destruct (k' =? k) eqn:E.
    + apply String.eqb_eq in E. subst k'.
      exfalso. apply Hnotin. change k with (fst (k, v)). now apply in_map.
    + now apply IH.
Qed.

Lemma in_keys_value (o : Obj) (k : string) : In k (keys o) -> exists v, In (k, v) o.
Proof.
  unfold keys. intros H. apply in_map_iff in H. destruct H as [[k' v] [E H]].
  simpl in E. subst. now exists v.
Qed.

(** Property lookup does not depend on the order the properties were written in. *)
Lemma get_permutation (p p' : Obj) (k : string) :
  wf_obj p -> Permutation p p' -> get p k = get p' k.
Proof.
  intros Hwf Hperm.
  assert (Hwf' : wf_obj p').
  { unfold wf_obj, keys in *. eapply Permutation_NoDup; [|exact Hwf]. now apply Permutation_map. }
  destruct (in_dec string_dec k (keys p)) as [Hin | Hout].
  - destruct (in_keys_value _ _ Hin) as [v Hv].
    rewrite (get_present p k v Hwf Hv).
    symmetry. apply get_present; [exact Hwf'|]. eapply Permutation_in; eauto.
  - rewrite (get_absent p k Hout). symmetry. apply get_absent.
    intros Hin. apply Hout. unfold keys in *.
    eapply Permutation_in; [|exact Hin]. apply Permutation_map. now apply Permutation_sym.
Qed.

Lemma set_absent (o : Obj) (k : string) (v : JsVal) :
  ~ In k (keys o) -> set o k v = (o ++ [(k, v)])%list.
Proof.
  induction o as [|[k' v'] r IH]; simpl; intros H; [reflexivity|].
  destruct (k' =? k) eqn:E.
  - apply String.eqb_eq in E. tauto.
  - rewrite IH; tauto.
Qed.

Lemma set_middle (a b : Obj) (k : string) (w v : JsVal) :
  ~ In k (keys a) -> set (a ++ (k, w) :: b)%list k v = (a ++ (k, v) :: b)%list.
Proof.
  induction a as [|[k' v'] r IH]; simpl; intros H.
  - now rewrite String.eqb_refl.
  - destruct (k' =? k) eqn:E.
    + apply String.eqb_eq in E. tauto.
    + rewrite IH; tauto.
Qed.

Lemma set_set_same (o : Obj) (k : string) (v : JsVal) : set (set o k v) k v = set o k v.
Proof.
  induction o as [|[k' v'] r IH]; simpl.
  - now rewrite String.eqb_refl.
  - destruct (k' =? k) eqn:E; simpl; rewrite E; [reflexivity | now rewrite IH].
Qed.

(** Writing a property keeps the keys already there, in place. *)
Lemma keys_set (o : Obj) (k : string) (v : JsVal) :
  exists tail, keys (set o k v) = (keys o ++ tail)%list.
Proof.
  induction o as [|[k' v'] r [tail IH]]; simpl.
  - now exists [k].
  - destruct (k' =? k); simpl.
    + exists []. now rewrite app_nil_r.
    + exists tail. now rewrite IH.
Qed.

Lemma in_keys_set (o : Obj) (k k' : string) (v : JsVal) :
  In k' (keys (set o k v)) -> k' = k \/ In k' (keys o).
Proof.
  induction o as [|[k0 v0] r IH]; simpl.
  - intros [H | []]. now left.
  - destruct (k0 =? k) eqn:E; simpl; intros [H | H]; auto.
    destruct (IH H); auto.
Qed.

Lemma wf_set (o : Obj) (k : string) (v : JsVal) : wf_obj o -> wf_obj (set o k v).
Proof.
  unfold wf_obj. induction o as [|[k' v'] r IH]; simpl; intros H.
  - constructor; [intros [] | constructor].
  - inversion H as [|? ? Hnotin Hnd]; subst.
    destruct (k' =? k) eqn:E; simpl.
    + now constructor.
    + constructor; [|now apply IH].
      intros Hin. apply in_keys_set in Hin. destruct Hin as [-> | Hin]; [|tauto].
      now rewrite String.eqb_refl in E.
Qed.

Lemma wf_assign (s t : Obj) : wf_obj t -> wf_obj (assign t s).
Proof.
  unfold assign. revert t. induction s as [|[k v] r IH]; simpl; intros t H; [exact H|].
  apply IH. now apply wf_set.
Qed.

Lemma keys_assign (s t : Obj) : exists tail, keys (assign t s) = (keys t ++ tail)%list.
Proof.
  unfold assign. revert t. induction s as [|[k v] r IH]; simpl; intros t.
  - exists []. now rewrite app_nil_r.
  - destruct (IH (set t k v)) as [tail1 H1]. destruct (keys_set t k v) as [tail2 H2].
    exists (tail2 ++ tail1)%list. rewrite H1, H2. now rewrite app_assoc.
Qed.

Lemma get_assign_absent (s t : Obj) (k : string) :
  ~ In k (keys s) -> get (assign t s) k = get t k.
Proof.
  unfold assign. revert t. induction s as [|[k' v] r IH]; simpl; intros t H; [reflexivity|].
  rewrite IH by tauto. apply get_set_other. tauto.
Qed.

Lemma get_assign_present (s t : Obj) (k : string) :
  wf_obj s -> In k (keys s) -> get (assign t s) k = get s k.
Proof.
  unfold assign, wf_obj. revert t. induction s as [|[k' v] r IH]; simpl; intros t Hnd Hin; [contradiction|].
  inversion Hnd as [|? ? Hnotin Hnd']; subst.
  destruct (k' =? k) eqn:E.
  - apply String.eqb_eq in E. subst k'.
    change (fold_left (fun t0 kv => set t0 (fst kv) (snd kv)) r (set t k v)) with (assign (set t k v) r).
    rewrite get_assign_absent by exact Hnotin. apply get_set_same.
  - apply IH; [exact Hnd'|]. destruct Hin as [Heq | Hin]; [|exact Hin].
    subst. now rewrite String.eqb_refl in E.
Qed.

(** Copying an object over a target that does not define [k]. *)
Lemma get_assign_fresh (s t : Obj) (k : string) :
  wf_obj s -> get t k = JUndefined -> get (assign t s) k = get s k.
Proof.
  intros Hwf Ht. destruct (in_dec string_dec k (keys s)) as [Hin | Hout].
  - now apply get_assign_present.
  - rewrite get_assign_absent by exact Hout. rewrite Ht. symmetry. now apply get_absent.
Qed.

(** Copying, over a target, an object that starts with the target's keys
    gives back that object. *)
Lemma assign_over_prefix (done t o1 : Obj) :
  keys o1 = keys t -> NoDup (keys done ++ keys o1) ->
  assign (done ++ t)%list o1 = (done ++ o1)%list.
Proof.
  unfold assign. revert done t.
  induction o1 as [|[k v] r IH]; intros done t Hk Hnd; destruct t as [|[k' w] t']; simpl in Hk; try discriminate.
  - reflexivity.
  - inversion Hk as [[Hkk Hrest]]. subst k'. simpl.
    assert (Hout : ~ In k (keys done)).
    { intros Hin. apply NoDup_remove_2 in Hnd. apply Hnd. apply in_or_app. now left. }
    rewrite set_middle by exact Hout.
    change (done ++ (k, v) :: t')%list with (done ++ [(k, v)] ++ t')%list.
    rewrite app_assoc. rewrite IH.
    + now rewrite <- app_assoc.
    + assumption.
    + unfold keys in *. rewrite map_app. simpl. rewrite <- app_assoc. exact Hnd.
Qed.

Lemma assign_fresh_suffix (o2 t : Obj) :
  NoDup (keys t ++ keys o2) -> assign t o2 = (t ++ o2)%list.
Proof.
  unfold assign. revert t. induction o2 as [|[k v] r IH]; simpl; intros t Hnd.
  - now rewrite app_nil_r.
  - assert (Hout : ~ In k (keys t)).
    { intros Hin. apply NoDup_remove_2 in Hnd. apply Hnd. apply in_or_app. now left. }
    rewrite set_absent by exact Hout. rewrite IH.
    + now rewrite <- app_assoc.
    + unfold keys in *. rewrite map_app. simpl. rewrite <- app_assoc. exact Hnd.
Qed.

Lemma assign_absorbs (t o : Obj) (tail : list string) :
  wf_obj o -> keys o = (keys t ++ tail)%list -> assign t o = o.
Proof.
  intros Hwf Hk.
  rewrite <- (firstn_skipn (List.length t) o) in Hwf |- *.
  set (o1 := firstn (List.length t) o) in *. set (o2 := skipn (List.length t) o) in *.
  assert (Hk1 : keys o1 = keys t).
  { unfold o1, keys. rewrite <- firstn_map. fold (keys o). rewrite Hk.
    replace (List.length t) with (List.length (keys t) + 0) by (unfold keys; rewrite length_map; lia).
    rewrite firstn_app_2. simpl. now rewrite app_nil_r. }
  unfold assign. rewrite fold_left_app.
  fold (assign t o1). fold (assign (assign t o1) o2).
  assert (H1 : assign t o1 = o1).
  { apply (assign_over_prefix [] t o1 Hk1). simpl.
    unfold wf_obj, keys in Hwf. rewrite map_app in Hwf. now apply NoDup_app_remove_r in Hwf. }
  rewrite H1. apply assign_fresh_suffix.
  unfold wf_obj, keys in Hwf. rewrite map_app in Hwf. exact Hwf.
Qed.

(** ** The platform name and the merged configuration *)

Lemma displayName_ext (t : JsVal) (p q : Obj) :
  (forall f, In f NAME_FIELDS -> get p f = get q f) -> displayName t p = displayName t q.
Proof.
  intros H. unfold displayName, presentFields, NAME_FIELDS in *.
  simpl filter.
  rewrite (H "deviceName"), (H "platform"), (H "platformName"),
    (H "platformVersion"), (H "browserName"), (H "version") by (simpl; tauto).
  destruct (ToBoolean (get q "deviceName")), (ToBoolean (get q "platform")),
    (ToBoolean (get q "platformName")), (ToBoolean (get q "platformVersion")),
    (ToBoolean (get q "browserName")), (ToBoolean (get q "version")); simpl;
    rewrite ?(H "deviceName"), ?(H "platform"), ?(H "platformName"),
      ?(H "platformVersion"), ?(H "browserName"), ?(H "version") by (simpl; tauto);
    reflexivity.
Qed.

(** [processPlatform] in closed form: the defaults, overlaid by the caller's
    fields, overlaid by the computed name. *)
Lemma processPlatform_unfold (e1 e2 t : JsVal) (p : Obj) :
  processPlatform e1 e2 t p
  = set (assign (PLATFORM_DEFAULTS e1 e2) p) "name" (JStr (displayName t p)).
Proof.
  unfold processPlatform.
  change (assign [] (PLATFORM_DEFAULTS e1 e2)) with (PLATFORM_DEFAULTS e1 e2).
  unfold assign at 1. simpl fold_left.
  f_equal. f_equal. unfold displayName. f_equal. f_equal. f_equal.
  unfold presentFields, NAME_FIELDS, namePart. simpl filter.
  destruct (ToBoolean (get p "deviceName")), (ToBoolean (get p "platform")),
    (ToBoolean (get p "platformName")), (ToBoolean (get p "platformVersion")),
    (ToBoolean (get p "browserName")), (ToBoolean (get p "version"));
    cbn [map joinAll fold_right];
    rewrite ?append_nil_r; cbn [String.append]; rewrite ?append_nil_r, ?append_assoc;
    reflexivity.
Qed.

Lemma defaults_lack_name_fields (e1 e2 : JsVal) (f : string) :
  In f NAME_FIELDS -> get (PLATFORM_DEFAULTS e1 e2) f = JUndefined.
Proof.
  unfold NAME_FIELDS. simpl.
  intros [<- | [<- | [<- | [<- | [<- | [<- | []]]]]]]; reflexivity.
Qed.

Lemma defaults_wf (e1 e2 : JsVal) : wf_obj (PLATFORM_DEFAULTS e1 e2).
Proof.
  unfold wf_obj, PLATFORM_DEFAULTS. simpl.
  repeat (constructor; [simpl; intros H; repeat (destruct H as [H | H]; [discriminate H|]); exact H|]).
  constructor.
Qed.

(** The merge leaves the six naming fields as the caller gave them. *)
Lemma processPlatform_keeps_name_fields (e1 e2 t : JsVal) (p : Obj) (f : string) :
  wf_obj p -> In f NAME_FIELDS -> get (processPlatform e1 e2 t p) f = get p f.
Proof.
  intros Hwf Hin. rewrite processPlatform_unfold.
  rewrite get_set_other.
  - apply get_assign_fresh; [exact Hwf | now apply defaults_lack_name_fields].
  - unfold NAME_FIELDS in Hin. simpl in Hin.
    intros E. subst f. repeat (destruct Hin as [Hin | Hin]; [discriminate Hin|]). exact Hin.
Qed.

(** C8, as the code has it: for every descriptor, however its fields are
    ordered, the [name] of the merged platform is the base name followed by
    the parenthesised concatenation, in the order deviceName, platform,
    platformName, platformVersion, browserName, version, of each field whose
    value is truthy followed by one space, with the white space at both
    ends of that concatenation trimmed; a field that is absent or falsy
    contributes nothing. *)
Theorem processPlatform_name_fixed_order (e1 e2 t : JsVal) (p p' : Obj) :
  wf_obj p -> Permutation p p' ->
  get (processPlatform e1 e2 t p') "name" = JStr (displayName t p).
Proof.
  intros Hwf Hperm. rewrite processPlatform_unfold, get_set_same.
  f_equal. apply displayName_ext. intros f _.
  symmetry. now apply get_permutation.
Qed.

Lemma processPlatform_name_fixed_order_witness :
  get (processPlatform (JStr "77") (JStr "77.1") DEFAULT_TEST_NAME
         [("version", JStr "11"); ("browserName", JStr "firefox"); ("platform", JStr "Windows 10")])
      "name"
  = JStr "qunit tests (Windows 10 firefox 11)".
Proof.
  apply (processPlatform_name_fixed_order (JStr "77") (JStr "77.1") DEFAULT_TEST_NAME
           [("platform", JStr "Windows 10"); ("browserName", JStr "firefox"); ("version", JStr "11")]).
  - unfold wf_obj. simpl.
    repeat (constructor; [simpl; intros H; repeat (destruct H as [H | H]; [discriminate H|]); exact H|]).
    constructor.
  - apply perm_trans with
      [("browserName", JStr "firefox"); ("platform", JStr "Windows 10"); ("version", JStr "11")].
    + apply perm_swap.
    + apply perm_trans with
        [("browserName", JStr "firefox"); ("version", JStr "11"); ("platform", JStr "Windows 10")].
      * apply perm_skip. apply perm_swap.
      * apply perm_swap.
Defined.

(** C8, as worded, fails: [trim] also removes white space at the front, so
    a first field that begins with a space does not appear as given. *)
Lemma processPlatform_name_trims_front :
  get (processPlatform (JStr "77") (JStr "77.1") DEFAULT_TEST_NAME [("deviceName", JStr " iPhone")]) "name"
  = JStr "qunit tests (iPhone)"
  /\ spec_displayName DEFAULT_TEST_NAME [("deviceName", JStr " iPhone")] = "qunit tests ( iPhone)"
  /\ get (processPlatform (JStr "77") (JStr "77.1") DEFAULT_TEST_NAME [("deviceName", JStr " iPhone")]) "name"
     <> JStr (spec_displayName DEFAULT_TEST_NAME [("deviceName", JStr " iPhone")]).
Proof.
  split; [reflexivity | split; [reflexivity |]].
  vm_compute. discriminate.
Qed.

(** C9: merging is idempotent. *)
Theorem processPlatform_idempotent (e1 e2 t : JsVal) (p : Obj) :
  wf_obj p ->
  processPlatform e1 e2 t (processPlatform e1 e2 t p) = processPlatform e1 e2 t p.
Proof.
  intros Hwf.
  assert (Hname : displayName t (processPlatform e1 e2 t p) = displayName t p).
  { apply displayName_ext. intros f Hf. now apply processPlatform_keeps_name_fields. }
  rewrite (processPlatform_unfold e1 e2 t (processPlatform e1 e2 t p)), Hname.
  assert (Hwf' : wf_obj (processPlatform e1 e2 t p)).
  { rewrite processPlatform_unfold. apply wf_set, wf_assign, defaults_wf. }
  assert (Hkeys : exists tail,
             keys (processPlatform e1 e2 t p) = (keys (PLATFORM_DEFAULTS e1 e2) ++ tail)%list).
  { rewrite processPlatform_unfold.
    destruct (keys_set (assign (PLATFORM_DEFAULTS e1 e2) p) "name" (JStr (displayName t p))) as [t1 H1].
    destruct (keys_assign p (PLATFORM_DEFAULTS e1 e2)) as [t2 H2].
    exists (t2 ++ t1)%list. rewrite H1, H2. now rewrite app_assoc. }
  destruct Hkeys as [tail Hkeys].
  rewrite (assign_absorbs _ _ tail Hwf' Hkeys).
  rewrite processPlatform_unfold. apply set_set_same.
Qed.

Lemma processPlatform_idempotent_witness :
  let p := [("browserName", JStr "firefox"); ("idleTimeout", JNum 90); ("name", JStr "mine")] in
  processPlatform (JStr "77") JUndefined DEFAULT_TEST_NAME
    (processPlatform (JStr "77") JUndefined DEFAULT_TEST_NAME p)
  = processPlatform (JStr "77") JUndefined DEFAULT_TEST_NAME p.
Proof.
  apply (processPlatform_idempotent (JStr "77") JUndefined DEFAULT_TEST_NAME).
  unfold wf_obj. simpl.
  repeat (constructor; [simpl; intros H; repeat (destruct H as [H | H]; [discriminate H|]); exact H|]).
  constructor.
Defined.

(** ** Reasoning about handlers *)

Section Preservation.

Variable I : State -> Prop.

Lemma pres_ret {A : Type} (a : A) : pres I (ret a).
Proof. intros s H. exact H. Qed.

Lemma pres_throw {A : Type} (msg : string) : pres I (@throw A msg).
Proof. intros s H. exact H. Qed.

Lemma pres_gets {A : Type} (f : State -> A) : pres I (gets f).
Proof. intros s H. exact H. Qed.

Lemma pres_modify (f : State -> State) : (forall s, I s -> I (f s)) -> pres I (modify f).
Proof. intros Hf s H. simpl. now apply Hf. Qed.

Lemma pres_bind {A B : Type} (m : M A) (k : A -> M B) :
  pres I m -> (forall a, pres I (k a)) -> pres I (bind m k).
Proof.
  intros Hm Hk s H. unfold bind. specialize (Hm s H).
  destruct (m s) as [[a | msg] s']; simpl in *.
  - now apply Hk.
  - exact Hm.
Qed.

Lemma pres_when (b : bool) (m : M unit) : pres I m -> pres I (when b m).
Proof. intros Hm. destruct b; simpl; [exact Hm | apply pres_ret]. Qed.

Lemma pres_turn (m : M unit) (s : State) :
  pres I m -> (forall s' h, I s' -> I (set_halted h s')) -> I s -> I (turn m s).
Proof.
  intros Hm Hh H. unfold turn. specialize (Hm s H).
  destruct (m s) as [[a | msg] s']; simpl in *; auto.
Qed.

End Preservation.

Lemma turn_bind_gets {A : Type} (f : State -> A) (k : A -> M unit) (s : State) :
  turn (bind (gets f) k) s = turn (k (f s)) s.
Proof. reflexivity. Qed.

Lemma turn_bind_modify (f : State -> State) (k : unit -> M unit) (s : State) :
  turn (bind (modify f) k) s = turn (k tt) (f s).
Proof. reflexivity. Qed.

(** Reduce the projections of an updated state. *)
Ltac state_simpl :=
  cbn [vars tests closures timers nextTimerId pending coord trace halted
       set_vars set_tests set_closures set_timers set_nextTimerId set_pending
       set_coord set_trace set_halted
       allPlatformsPassed allowZeroAssertions keepAliveTimeoutId retryCount
       mode calledBack completed finished fst snd] in *.

(** Walk through a handler: sequencing, branching and the named callees,
    leaving one goal per state update for [prim]. *)
Ltac pres_walk prim :=
  repeat first
    [ apply pres_ret
    | apply pres_throw
    | apply pres_gets
    | solve [ auto with presdb ]
    | apply pres_modify; intros ? ?; solve [ prim ]
    | apply pres_when
    | apply pres_bind; [| intro ]
    | match goal with
      | |- pres _ (match ?x with _ => _ end) => destruct x
      | |- pres _ (if ?b then _ else _) => destruct b
      end ].

Create HintDb presdb.

Lemma statuses_app (l l' : list Action) : statuses (l ++ l') = (statuses l ++ statuses l')%list.
Proof.
  induction l as [|a l IH]; simpl; [reflexivity|].
  destruct a; simpl; now rewrite ?IH.
Qed.

Lemma forallb_id_snoc (l : list bool) (b : bool) :
  forallb (fun x => x) (l ++ [b]) = forallb (fun x => x) l && b.
Proof. rewrite forallb_app. simpl. now rewrite andb_true_r. Qed.

(** The conjunction does not depend on the order in which outcomes arrive. *)
Lemma forallb_id_permutation (l l' : list bool) :
  Permutation l l' -> forallb (fun x => x) l = forallb (fun x => x) l'.
Proof.
  induction 1; simpl.
  - reflexivity.
  - now rewrite IHPermutation.
  - destruct x, y; reflexivity.
  - congruence.
Qed.

(** ** The aggregate of the run (index.js) *)

Ltac agg_prim :=
  idtac;
  match goal with
  | H : AggRunning _ |- AggRunning _ =>
      destruct H as [? ?]; split; state_simpl;
      rewrite ?statuses_app; simpl statuses; rewrite ?app_nil_r; assumption
  end.

Lemma agg_setTimeout (k : TimerKind) (d : Z) : pres AggRunning (setTimeout k d).
Proof. intros s H. unfold setTimeout. state_simpl. agg_prim. Qed.
#[local] Hint Resolve agg_setTimeout : presdb.

Lemma agg_initKeepAlive : pres AggRunning IndexJs.initKeepAlive.
Proof. unfold IndexJs.initKeepAlive, emit, set_keepAliveTimeoutId. pres_walk agg_prim. Qed.
#[local] Hint Resolve agg_initKeepAlive : presdb.

Lemma agg_runTest (t : TaskId) : pres AggRunning (IndexJs.runTest t).
Proof. unfold IndexJs.runTest, emit, request. pres_walk agg_prim. Qed.
#[local] Hint Resolve agg_runTest : presdb.

Lemma agg_complete : pres AggRunning IndexJs.complete.
Proof. unfold IndexJs.complete, emit, request. pres_walk agg_prim. Qed.
#[local] Hint Resolve agg_complete : presdb.

Lemma agg_cb (t : TaskId) (e : option JsError) : pres AggRunning (IndexJs.cb t e).
Proof.
  unfold IndexJs.cb, taskCallback, finish, emit.
  pres_walk agg_prim.
Qed.
#[local] Hint Resolve agg_cb : presdb.

Lemma agg_testComplete (t : TaskId) (status : bool) : pres AggRunning (IndexJs.testComplete t status).
Proof.
  unfold IndexJs.testComplete.
  apply pres_bind; [apply pres_gets | intro j].
  apply pres_bind; [destruct j; unfold clearTimeout; pres_walk agg_prim | intros _].
  intros s [Hand Hrun].
  cbn [bind emit modify gets set_allPlatformsPassed].
  apply agg_cb. split; state_simpl; [| exact Hrun].
  rewrite !statuses_app. simpl statuses. rewrite app_nil_r, forallb_id_snoc.
  now rewrite Hand.
Qed.
#[local] Hint Resolve agg_testComplete : presdb.

Lemma agg_checkTestResultsDone (t : TaskId) (e : option JsError) :
  pres AggRunning (IndexJs.checkTestResultsDone t e).
Proof. unfold IndexJs.checkTestResultsDone, emit. pres_walk agg_prim. Qed.
#[local] Hint Resolve agg_checkTestResultsDone : presdb.

Lemma agg_readCallback (t : TaskId) (r : JsError + string) :
  pres AggRunning (IndexJs.readCallback t r).
Proof.
  unfold IndexJs.readCallback, IndexJs.getElementText, set_results, set_closure, request.
  destruct r; pres_walk agg_prim.
Qed.
#[local] Hint Resolve agg_readCallback : presdb.

Lemma agg_onInit (t : TaskId) (r : JsError + string) : pres AggRunning (IndexJs.onInit t r).
Proof.
  unfold IndexJs.onInit, IndexJs.pollSauceLabsStatus, IndexJs.checkTestResults,
    IndexJs.getElementText, set_sessionId, set_results, set_closure, clearTimeout, emit, request.
  destruct r; simpl SELECTORS; pres_walk agg_prim.
Qed.

Lemma agg_onShowJob (t : TaskId) (r : JsError + Job) : pres AggRunning (IndexJs.onShowJob t r).
Proof.
  unfold IndexJs.onShowJob, set_jobTimeoutId, set_closure, emit.
  destruct r; pres_walk agg_prim.
Qed.

Lemma agg_onWait (t : TaskId) (r : JsError + nat) : pres AggRunning (IndexJs.onWait t r).
Proof. unfold IndexJs.onWait, request. destruct r; pres_walk agg_prim. Qed.

Lemma agg_onText (t : TaskId) (r : JsError + string) : pres AggRunning (IndexJs.onText t r).
Proof. unfold IndexJs.onText. destruct r; pres_walk agg_prim. Qed.

Lemma agg_onTimer (k : TimerKind) : pres AggRunning (IndexJs.onTimer k).
Proof. unfold IndexJs.onTimer, IndexJs.pollSauceLabsStatus, request. destruct k; pres_walk agg_prim. Qed.

Lemma pres_startAll (I : State -> Prop) (task : TaskId -> M unit) (ts : list TaskId) :
  (forall t, pres I (task t)) -> pres I (startAll task ts).
Proof.
  intros H. induction ts as [|t r IH]; simpl.
  - apply pres_ret.
  - apply pres_bind; [apply H | intros _; exact IH].
Qed.

Lemma agg_module_exports (env : Env) (cfg : Config) :
  pres AggRunning (IndexJs.module_exports env cfg).
Proof.
  unfold IndexJs.module_exports, parallel, series, start, finish, set_allowZeroAssertions.
  pres_walk agg_prim; apply pres_startAll; intro; apply agg_runTest.
Qed.

Lemma agg_running_inv (s : State) : AggRunning s -> AggregateInv s.
Proof.
  intros [Hand Hrun]. constructor; [exact Hand|].
  intros code H. rewrite Hrun in H. discriminate.
Qed.

Lemma agg_turn (m : M unit) (s : State) :
  pres AggRunning m -> AggRunning s -> AggregateInv (turn m s).
Proof.
  intros Hm H. unfold turn. specialize (Hm s H).
  destruct (m s) as [[a | msg] s']; simpl in Hm.
  - now apply agg_running_inv.
  - destruct Hm as [Hand Hrun]. constructor; state_simpl; [exact Hand|].
    intros code Hc. discriminate.
Qed.

Lemma agg_onQuit (s : State) : AggRunning s -> AggregateInv (turn IndexJs.onQuit s).
Proof.
  intros [Hand Hrun]. unfold turn, IndexJs.onQuit, processExit.
  cbn [bind emit modify gets]. constructor; state_simpl.
  - rewrite statuses_app. simpl statuses. now rewrite app_nil_r.
  - intros code Hc. inversion Hc; subst.
    rewrite statuses_app. simpl statuses. rewrite app_nil_r, <- Hand.
    unfold exitCode. reflexivity.
Qed.

Lemma agg_step (ev : Event) (s s' : State) :
  AggregateInv s -> IndexJs.step ev s = Some s' -> AggregateInv s'.
Proof.
  intros [Hand Hexit] Hstep. unfold IndexJs.step, loop_step in Hstep.
  destruct (halted s) eqn:Hh; simpl in Hstep; [discriminate|].
  assert (Hrun : forall f, AggRunning (set_pending f s)) by (intros f; split; assumption).
  assert (Hrun' : forall f, AggRunning (set_timers f s)) by (intros f; split; assumption).
  destruct ev; simpl in Hstep;
    match type of Hstep with
    | match ?x with _ => _ end = _ => destruct x as [[? ?]|]; [|discriminate]
    end;
    inversion Hstep; subst; clear Hstep.
  - apply agg_turn; [apply agg_onInit | apply Hrun].
  - apply agg_turn; [apply agg_onShowJob | apply Hrun].
  - apply agg_turn; [apply agg_onWait | apply Hrun].
  - apply agg_turn; [apply agg_onText | apply Hrun].
  - apply agg_turn; [apply agg_onTimer | apply Hrun'].
  - apply agg_onQuit, Hrun.
Qed.

Lemma agg_reachable (env : Env) (cfg : Config) (s : State) :
  IndexJs.reachable env cfg s -> AggregateInv s.
Proof.
  intros [evs Hevs].
  assert (H0 : AggregateInv (IndexJs.launch env cfg)).
  { apply agg_turn; [apply agg_module_exports | split; reflexivity]. }
  revert H0 Hevs. generalize (IndexJs.launch env cfg) as s0.
  unfold IndexJs.steps.
  induction evs as [|ev r IH]; simpl; intros s0 H0 Hevs.
  - inversion Hevs; subst. exact H0.
  - destruct (loop_step _ _ _ _ _ _ ev s0) as [s1|] eqn:E; [|discriminate].
    apply (IH s1); [|exact Hevs]. eapply agg_step; eauto.
Qed.

(** C2: in every state a run of index.js can reach, in either mode, the
    aggregate is the conjunction of the outcomes reported so far, whatever
    the order they arrived in; when the process exits, its code is 0 if all
    of them are true and 1 if one is false; and two runs, whatever their
    modes, that report the same outcomes hold the same aggregate. *)
Theorem aggregate_is_conjunction (env : Env) (cfg : Config) (s : State) :
  IndexJs.reachable env cfg s ->
  let outcomes := statuses (trace s) in
  allPlatformsPassed (vars s) = forallb (fun b => b) outcomes
  /\ (forall code, halted s = Some (Exited code) ->
        (code = 0%Z <-> (forall b, In b outcomes -> b = true))
        /\ (code = 1%Z <-> In false outcomes))
  /\ (forall env' cfg' s',
        IndexJs.reachable env' cfg' s' ->
        Permutation outcomes (statuses (trace s')) ->
        allPlatformsPassed (vars s') = allPlatformsPassed (vars s)).
Proof.
  intros Hr outcomes. destruct (agg_reachable env cfg s Hr) as [Hand Hexit].
  fold outcomes in Hand, Hexit.
  split; [exact Hand | split].
  - intros code Hc. rewrite (Hexit code Hc). unfold exitCode.
    destruct (forallb (fun b => b) outcomes) eqn:E.
    + rewrite forallb_forall in E. split; split; intros H; try reflexivity; try discriminate.
      * exact E.
      * apply E in H. discriminate.
    + split; split; intros H; try reflexivity; try discriminate.
      * exfalso. assert (E' : forallb (fun b => b) outcomes = true) by (now apply forallb_forall).
        congruence.
      * clear -E. induction outcomes as [|b l IH]; simpl in *; [discriminate|].
        destruct b; auto.
  - intros env' cfg' s' Hr' Hperm.
    destruct (agg_reachable env' cfg' s' Hr') as [Hand' _].
    rewrite Hand, Hand'. symmetry. now apply forallb_id_permutation.
Qed.

Lemma aggregate_is_conjunction_witness :
  allPlatformsPassed (vars sampleFinal) = false
  /\ statuses (trace sampleFinal) = [true; false]
  /\ halted sampleFinal = Some (Exited 1).
Proof.
  destruct (aggregate_is_conjunction sampleEnv cfgSeries sampleFinal) as [Hand [Hexit _]].
  - exists sampleEvents. vm_compute. reflexivity.
  - split; [rewrite Hand; vm_compute; reflexivity | split; vm_compute; reflexivity].
Defined.

(** ** The zero-assertions policy (index.js) *)

(** Unfold the handlers of index.js down to their state updates. *)
Ltac unfold_index :=
  unfold IndexJs.onInit, IndexJs.onShowJob, IndexJs.onWait, IndexJs.onText,
    IndexJs.onTimer, IndexJs.onQuit, IndexJs.checkTestResults, IndexJs.readCallback,
    IndexJs.checkTestResultsDone, IndexJs.getElementText, IndexJs.pollSauceLabsStatus,
    IndexJs.testComplete, IndexJs.cb, IndexJs.complete, IndexJs.runTest,
    IndexJs.initKeepAlive, taskCallback, finish, processExit,
    set_jobTimeoutId, set_sessionId, set_results, set_closure, set_allPlatformsPassed,
    set_keepAliveTimeoutId, clearTimeout, request, emit;
  simpl SELECTORS.

Ltac policy_prim :=
  idtac;
  match goal with
  | H : PolicyIs _ _ |- PolicyIs _ _ => unfold PolicyIs in *; state_simpl; exact H
  end.

Lemma policy_setTimeout (b : bool) (k : TimerKind) (d : Z) : pres (PolicyIs b) (setTimeout k d).
Proof. intros s H. unfold setTimeout. policy_prim. Qed.
#[local] Hint Resolve policy_setTimeout : presdb.

Lemma policy_handlers (b : bool) :
  (forall t r, pres (PolicyIs b) (IndexJs.onInit t r))
  /\ (forall t r, pres (PolicyIs b) (IndexJs.onShowJob t r))
  /\ (forall t r, pres (PolicyIs b) (IndexJs.onWait t r))
  /\ (forall t r, pres (PolicyIs b) (IndexJs.onText t r))
  /\ (forall k, pres (PolicyIs b) (IndexJs.onTimer k))
  /\ pres (PolicyIs b) IndexJs.onQuit.
Proof.
  repeat split; intros; unfold_index;
    repeat match goal with
           | r : _ + _ |- _ => destruct r
           | k : TimerKind |- _ => destruct k
           end;
    pres_walk policy_prim.
Qed.

(** A property every handler preserves, and that survives a request or a
    timer leaving the queues and the end of the process, holds along a run. *)
Lemma steps_preserve (I : State -> Prop) :
  (forall t r, pres I (IndexJs.onInit t r)) ->
  (forall t r, pres I (IndexJs.onShowJob t r)) ->
  (forall t r, pres I (IndexJs.onWait t r)) ->
  (forall t r, pres I (IndexJs.onText t r)) ->
  (forall k, pres I (IndexJs.onTimer k)) ->
  pres I IndexJs.onQuit ->
  (forall s o ps, I s -> take o (pending s) = Some ps -> I (set_pending (fun _ => snd ps) s)) ->
  (forall s id tm, I s -> takeTimer id (timers s) = Some tm ->
                   I (set_timers (fun _ => snd tm) s)) ->
  (forall s h, I s -> I (set_halted h s)) ->
  forall evs s s', I s -> IndexJs.steps evs s = Some s' -> I s'.
Proof.
  intros Hinit Hjob Hwait Htext Htimer Hquit Hp Ht Hh.
  unfold IndexJs.steps.
  induction evs as [|ev r IH]; simpl; intros s s' H Hs.
  - inversion Hs; subst. exact H.
  - destruct (loop_step _ _ _ _ _ _ ev s) as [s1|] eqn:E; [|discriminate].
    apply (IH s1 s'); [|exact Hs]. clear IH Hs.
    unfold loop_step in E. destruct (isSome (halted s)); [discriminate|].
    destruct ev; simpl in E;
      match type of E with
      | match ?x with _ => _ end = _ => destruct x as [[o ps]|] eqn:Et; [|discriminate]
      end;
      inversion E; subst; clear E;
      (apply pres_turn; [solve [auto] | exact Hh |]).
    + apply (Hp s _ (o, ps) H Et).
    + apply (Hp s _ (o, ps) H Et).
    + apply (Hp s _ (o, ps) H Et).
    + apply (Hp s _ (o, ps) H Et).
    + apply (Ht s _ (o, ps) H Et).
    + apply (Hp s _ (o, ps) H Et).
Qed.

Lemma policy_launch (env : Env) (cfg : Config) : PolicyIs (policy cfg) (IndexJs.launch env cfg).
Proof.
  unfold IndexJs.launch, IndexJs.module_exports.
  rewrite turn_bind_gets. unfold set_allowZeroAssertions. rewrite turn_bind_modify.
  apply pres_turn.
  - unfold parallel, series, start. unfold_index.
    pres_walk policy_prim; apply pres_startAll; intro; unfold_index; pres_walk policy_prim.
  - intros s h H. exact H.
  - unfold PolicyIs, policy. state_simpl. simpl. destruct (zeroAssertionsPass cfg); reflexivity.
Qed.

(** The assignment to [allowZeroAssertions] is the only one of the entry
    function, whatever the module has done before the call. *)
Lemma policy_call (env : Env) (cfg : Config) (s0 : State) :
  PolicyIs (match zeroAssertionsPass cfg with
            | None => allowZeroAssertions (vars s0)
            | Some b => b
            end)
           (turn (IndexJs.module_exports env cfg) s0).
Proof.
  unfold IndexJs.module_exports.
  rewrite turn_bind_gets. unfold set_allowZeroAssertions. rewrite turn_bind_modify.
  apply pres_turn.
  - unfold parallel, series, start. unfold_index.
    pres_walk policy_prim; apply pres_startAll; intro; unfold_index; pres_walk policy_prim.
  - intros s h H. exact H.
  - unfold PolicyIs. state_simpl. reflexivity.
Qed.

Lemma policy_reachable (env : Env) (cfg : Config) (s : State) :
  IndexJs.reachable env cfg s -> PolicyIs (policy cfg) s.
Proof.
  intros [evs Hevs].
  destruct (policy_handlers (policy cfg)) as (H1 & H2 & H3 & H4 & H5 & H6).
  apply (steps_preserve (PolicyIs (policy cfg)) H1 H2 H3 H4 H5 H6) with (evs := evs)
                                                                       (s := IndexJs.launch env cfg).
  - intros s0 o ps H _. exact H.
  - intros s0 id tm H _. exact H.
  - intros s0 h H. exact H.
  - apply policy_launch.
  - exact Hevs.
Qed.

(** ** The keep-alive heartbeat (index.js) *)

Lemma take_spec (p : Op -> bool) (ps : list Op) (o : Op) (ps' : list Op) :
  take p ps = Some (o, ps') ->
  exists a b, ps = (a ++ o :: b)%list /\ ps' = (a ++ b)%list /\ p o = true.
Proof.
  revert o ps'. induction ps as [|x r IH]; simpl; intros o ps' H; [discriminate|].
  destruct (p x) eqn:E.
  - inversion H; subst. now exists [], ps'.
  - destruct (take p r) as [[y r']|]; [|discriminate].
    inversion H; subst. destruct (IH o r' eq_refl) as (a & b & -> & -> & Hp).
    now exists (x :: a), b.
Qed.

Lemma takeTimer_spec (id : TimerId) (ts : list Timer) (tm : Timer) (ts' : list Timer) :
  takeTimer id ts = Some (tm, ts') ->
  exists a b, ts = (a ++ tm :: b)%list /\ ts' = (a ++ b)%list /\ timer_id tm = id.
Proof.
  revert tm ts'. induction ts as [|x r IH]; simpl; intros tm ts' H; [discriminate|].
  destruct (timer_id x =? id)%nat eqn:E.
  - inversion H; subst. apply Nat.eqb_eq in E. now exists [], ts'.
  - destruct (takeTimer id r) as [[y r']|]; [|discriminate].
    inversion H; subst. destruct (IH tm r' eq_refl) as (a & b & -> & -> & Hid).
    now exists (x :: a), b.
Qed.

Lemma established_update (t : TaskId) (f : Closure -> Closure) (cs : list (TaskId * Closure)) :
  (forall c, sessionId (f c) = sessionId c) ->
  existsb (fun tc => isSome (sessionId (snd tc))) (updateClosure t f cs)
  = existsb (fun tc => isSome (sessionId (snd tc))) cs.
Proof.
  intros Hf. induction cs as [|[u c] r IH]; simpl.
  - now rewrite Hf.
  - destruct (u =? t)%nat; simpl; [now rewrite Hf | now rewrite IH].
Qed.

Lemma established_set_session (t : TaskId) (sid : string) (cs : list (TaskId * Closure)) :
  existsb (fun tc => isSome (sessionId (snd tc)))
    (updateClosure t (fun c => {| jobTimeoutId := jobTimeoutId c; sessionId := Some sid;
                                  results := results c |}) cs) = true.
Proof.
  induction cs as [|[u c] r IH]; simpl; [reflexivity|].
  destruct (u =? t)%nat; simpl; [reflexivity|]. rewrite IH. apply orb_true_r.
Qed.

(** The invariant only looks at the timers, the heartbeat variable, the
    sessions and the initialisations in flight. *)
Lemma hb_frame (s s' : State) :
  timers s' = timers s ->
  nextTimerId s' = nextTimerId s ->
  keepAliveTimeoutId (vars s') = keepAliveTimeoutId (vars s) ->
  established s' = established s ->
  existsb isOpInit (pending s') = existsb isOpInit (pending s) ->
  HeartbeatInv s -> HeartbeatInv s'.
Proof.
  intros Ht Hn Hk He Hp [H1 H2 H3 H4 H5].
  constructor; unfold heartbeats in *; rewrite ?Ht, ?Hn, ?Hk, ?He, ?Hp; assumption.
Qed.

Ltac hb_prim :=
  idtac;
  match goal with
  | H : HeartbeatInv ?s |- HeartbeatInv _ =>
      apply (hb_frame s); [ .. | exact H ]; unfold established; state_simpl;
      first [ reflexivity
            | apply established_update; reflexivity
            | rewrite existsb_app; simpl; apply orb_false_r ]
  end.

Lemma hb_sublist (s : State) (ts : list Timer) :
  (forall tm, In tm ts -> In tm (timers s)) ->
  NoDup (map timer_id ts) ->
  HeartbeatInv s -> HeartbeatInv (set_timers (fun _ => ts) s).
Proof.
  intros Hsub Hnd [H1 H2 H3 H4 H5].
  assert (Hhb : forall tm, In tm (filter isKeepAlive ts) -> In tm (heartbeats s)).
  { intros tm Hin. apply filter_In in Hin. destruct Hin as [Hin Hk].
    apply filter_In. split; [now apply Hsub | exact Hk]. }
  constructor; unfold heartbeats, established in *; state_simpl.
  - rewrite Forall_forall in *. intros tm Hin. apply H1. now apply Hsub.
  - exact Hnd.
  - rewrite Forall_forall in *. intros tm Hin. apply H3. now apply Hhb.
  - intros He. specialize (H4 He).
    destruct (filter isKeepAlive ts) as [|tm r] eqn:E; [reflexivity|].
    exfalso. specialize (Hhb tm (or_introl eq_refl)). rewrite H4 in Hhb. exact Hhb.
  - exact H5.
Qed.

(** Removing timers from the schedule keeps the identifiers distinct. *)
Lemma timers_distinct_filter (keep : Timer -> bool) (ts : list Timer) :
  NoDup (map timer_id ts) -> NoDup (map timer_id (filter keep ts)).
Proof.
  induction ts as [|tm r IH]; simpl; intros Hnd; [constructor|].
  inversion Hnd as [|? ? Hout Hrest]; subst.
  destruct (keep tm); simpl; [|now apply IH].
  constructor; [|now apply IH].
  intros Hin. apply Hout. apply in_map_iff in Hin. destruct Hin as [y [Ey Hy]].
  apply filter_In in Hy. apply in_map_iff. exists y. tauto.
Qed.

Lemma hb_clearTimeout (id : TimerId) : pres HeartbeatInv (clearTimeout id).
Proof.
  unfold clearTimeout. apply pres_modify. intros s H.
  apply (hb_sublist s (filter (fun tm => negb (timer_id tm =? id)%nat) (timers s))).
  - intros tm Hin. apply filter_In in Hin. tauto.
  - apply timers_distinct_filter. now destruct H.
  - exact H.
Qed.
#[local] Hint Resolve hb_clearTimeout : presdb.

Lemma filter_app_single {A : Type} (p : A -> bool) (l : list A) (x : A) :
  filter p (l ++ [x]) = (filter p l ++ (if p x then [x] else []))%list.
Proof. rewrite filter_app. simpl. destruct (p x); reflexivity. Qed.

Lemma hb_setTimeout_job (t : TaskId) (d : Z) : pres HeartbeatInv (setTimeout (JobPollTimer t) d).
Proof.
  intros s [H1 H2 H3 H4 H5]. unfold setTimeout.
  constructor; unfold heartbeats, established in *; state_simpl.
  - apply Forall_app. split.
    + eapply Forall_impl; [|exact H1]. simpl. intros; lia.
    + constructor; [simpl; lia | constructor].
  - rewrite map_app. simpl. apply NoDup_app; [exact H2 | repeat constructor; intros [] |].
    intros x Hin [Hx | []]. subst x.
    apply in_map_iff in Hin. destruct Hin as [tm [E Hin]].
    rewrite Forall_forall in H1. specialize (H1 tm Hin). lia.
  - rewrite filter_app_single. simpl. rewrite app_nil_r. exact H3.
  - rewrite filter_app_single. simpl. rewrite app_nil_r. exact H4.
  - exact H5.
Qed.
#[local] Hint Resolve hb_setTimeout_job : presdb.

(** Starting the heartbeat when none is scheduled and no session exists. *)
Lemma hb_initKeepAlive (s : State) :
  HeartbeatInv s -> heartbeats s = [] -> established s = false ->
  HeartbeatInv (snd (IndexJs.initKeepAlive s))
  /\ keepAliveTimeoutId (vars (snd (IndexJs.initKeepAlive s))) <> None.
Proof.
  intros [H1 H2 H3 H4 H5] Hnone Hest.
  unfold IndexJs.initKeepAlive, emit, set_keepAliveTimeoutId, setTimeout.
  cbn [bind modify]. unfold modify. split; [state_simpl | state_simpl; discriminate].
  constructor; unfold heartbeats, established in *; state_simpl.
  - apply Forall_app. split.
    + eapply Forall_impl; [|exact H1]. simpl. intros; lia.
    + constructor; [simpl; lia | constructor].
  - rewrite map_app. simpl. apply NoDup_app; [exact H2 | repeat constructor; intros [] |].
    intros x Hin [Hx | []]. subst x.
    apply in_map_iff in Hin. destruct Hin as [tm [E Hin]].
    rewrite Forall_forall in H1. specialize (H1 tm Hin). lia.
  - rewrite filter_app_single. simpl. rewrite Hnone. simpl. repeat constructor.
  - intros He. rewrite Hest in He. discriminate.
  - intros _. discriminate.
Qed.

Lemma snd_bind_gets {A B : Type} (f : State -> A) (k : A -> M B) (s : State) :
  snd (bind (gets f) k s) = snd (k (f s) s).
Proof. reflexivity. Qed.

Lemma snd_bind_modify {B : Type} (f : State -> State) (k : unit -> M B) (s : State) :
  snd (bind (modify f) k s) = snd (k tt (f s)).
Proof. reflexivity. Qed.

Lemma snd_bind_ret {A B : Type} (a : A) (k : A -> M B) (s : State) :
  snd (bind (ret a) k s) = snd (k a s).
Proof. reflexivity. Qed.

Lemma snd_bind_returns {A B : Type} (m : M A) (k : A -> M B) (s : State) (a : A) :
  fst (m s) = Ret a -> snd (bind m k s) = snd (k a (snd (m s))).
Proof. unfold bind. destruct (m s) as [[x | msg] s']; simpl; intros H; [now inversion H | discriminate]. Qed.

Lemma turn_snd (I : State -> Prop) (m : M unit) (s : State) :
  (forall s' h, I s' -> I (set_halted h s')) -> I (snd (m s)) -> I (turn m s).
Proof. intros Hh H. unfold turn. destruct (m s) as [[a | msg] s']; simpl in *; auto. Qed.

Lemma hb_halted (s : State) (h : option Halt) : HeartbeatInv s -> HeartbeatInv (set_halted h s).
Proof. intros H. hb_prim. Qed.

Lemma hb_no_heartbeat_when_unset (s : State) :
  HeartbeatInv s -> keepAliveTimeoutId (vars s) = None ->
  heartbeats s = [] /\ established s = false.
Proof.
  intros [H1 H2 H3 H4 H5] Hk. split.
  - destruct (heartbeats s) as [|tm r]; [reflexivity|].
    inversion H3 as [|? ? Hc _]; subst. rewrite Hk in Hc. discriminate.
  - destruct (established s) eqn:E; [|reflexivity].
    exfalso. apply H5; [now left | exact Hk].
Qed.

(** Requesting an initialisation once the heartbeat variable is set. *)
Lemma hb_request_init (s : State) (t : TaskId) (f : list Action -> list Action) :
  HeartbeatInv s -> keepAliveTimeoutId (vars s) <> None ->
  HeartbeatInv (set_pending (fun ps => (ps ++ [OpInit t])%list) (set_trace f s)).
Proof.
  intros [H1 H2 H3 H4 H5] Hk.
  constructor; unfold heartbeats, established in *; state_simpl; auto.
Qed.

Lemma hb_runTest (t : TaskId) : pres HeartbeatInv (IndexJs.runTest t).
Proof.
  intros s H. unfold IndexJs.runTest. rewrite snd_bind_gets.
  destruct (keepAliveTimeoutId (vars s)) as [id|] eqn:Hk; simpl negb; unfold when.
  - rewrite snd_bind_ret, snd_bind_gets. unfold emit, request.
    rewrite snd_bind_modify. unfold modify. simpl snd.
    apply hb_request_init; [exact H | rewrite Hk; discriminate].
  - destruct (hb_no_heartbeat_when_unset s H Hk) as [Hnone Hest].
    destruct (hb_initKeepAlive s H Hnone Hest) as [Hinv Hset].
    rewrite (snd_bind_returns IndexJs.initKeepAlive _ s tt eq_refl).
    rewrite snd_bind_gets. unfold emit, request.
    rewrite snd_bind_modify. unfold modify at 1. simpl snd.
    now apply hb_request_init.
Qed.
#[local] Hint Resolve hb_runTest : presdb.

(** Unfold the handlers of index.js, keeping the steps that touch the
    heartbeat folded. *)
Ltac unfold_index_hb :=
  unfold IndexJs.onInit, IndexJs.onShowJob, IndexJs.onWait, IndexJs.onText,
    IndexJs.onTimer, IndexJs.onQuit, IndexJs.checkTestResults, IndexJs.readCallback,
    IndexJs.checkTestResultsDone, IndexJs.getElementText, IndexJs.pollSauceLabsStatus,
    IndexJs.testComplete, IndexJs.cb, IndexJs.complete,
    taskCallback, finish, processExit,
    set_jobTimeoutId, set_results, set_closure, set_allPlatformsPassed,
    set_allowZeroAssertions, request, emit;
  simpl SELECTORS.

Lemma hb_poll (t : TaskId) : pres HeartbeatInv (IndexJs.pollSauceLabsStatus t).
Proof. unfold_index_hb. pres_walk hb_prim. Qed.

Lemma hb_checkTestResults (t : TaskId) : pres HeartbeatInv (IndexJs.checkTestResults t).
Proof. unfold_index_hb. pres_walk hb_prim. Qed.

Lemma hb_testComplete (t : TaskId) (b : bool) : pres HeartbeatInv (IndexJs.testComplete t b).
Proof. unfold_index_hb. pres_walk hb_prim. Qed.
#[local] Hint Resolve hb_poll hb_checkTestResults hb_testComplete : presdb.

Lemma hb_onShowJob (t : TaskId) (r : JsError + Job) : pres HeartbeatInv (IndexJs.onShowJob t r).
Proof. unfold IndexJs.onShowJob, set_jobTimeoutId, set_closure, emit. destruct r; pres_walk hb_prim. Qed.

Lemma hb_onWait (t : TaskId) (r : JsError + nat) : pres HeartbeatInv (IndexJs.onWait t r).
Proof. unfold_index_hb. destruct r; pres_walk hb_prim. Qed.

Lemma hb_onText (t : TaskId) (r : JsError + string) : pres HeartbeatInv (IndexJs.onText t r).
Proof. unfold_index_hb. destruct r; pres_walk hb_prim. Qed.

Lemma hb_onQuit : pres HeartbeatInv IndexJs.onQuit.
Proof. unfold_index_hb. pres_walk hb_prim. Qed.

(** The callback of [driver.init], once the request has left the queue. *)
Lemma hb_onInit (t : TaskId) (r : JsError + string) (s : State) :
  HeartbeatInv s -> keepAliveTimeoutId (vars s) <> None ->
  HeartbeatInv (snd (IndexJs.onInit t r s)).
Proof.
  intros H Hk. destruct r as [err | sid].
  - revert s H Hk. unfold IndexJs.onInit, emit.
    assert (Hp : pres HeartbeatInv
                   (modify (set_trace (fun tr =>
                      (tr ++ [ConsoleLog ("Error calling driver.init: " ++ errorToString err)])%list));;
                    IndexJs.testComplete t false)) by pres_walk hb_prim.
    intros s H _. now apply Hp.
  - unfold IndexJs.onInit, set_sessionId, set_closure.
    rewrite snd_bind_modify, snd_bind_gets. state_simpl.
    destruct (keepAliveTimeoutId (vars s)) as [id|] eqn:Ek; [|congruence].
    unfold clearTimeout at 1. rewrite snd_bind_modify.
    match goal with
    | |- HeartbeatInv (snd (?rest ?s3)) =>
        assert (Hrest : pres HeartbeatInv rest)
          by (unfold emit; pres_walk hb_prim);
        apply Hrest
    end.
    destruct H as [H1 H2 H3 H4 H5].
    assert (Hnone : filter isKeepAlive
                      (filter (fun tm => negb (timer_id tm =? id)%nat) (timers s)) = []).
    { destruct (filter isKeepAlive (filter (fun tm => negb (timer_id tm =? id)%nat) (timers s)))
        as [|tm r0] eqn:E; [reflexivity|]. exfalso.
      assert (Hin : In tm (tm :: r0)) by now left.
      rewrite <- E in Hin. apply filter_In in Hin. destruct Hin as [Hin Hka].
      apply filter_In in Hin. destruct Hin as [Hin Hne].
      assert (Hhb : In tm (heartbeats s)) by (apply filter_In; tauto).
      rewrite Forall_forall in H3. specialize (H3 tm Hhb).
      rewrite Ek in H3. inversion H3; subst.
      rewrite Nat.eqb_refl in Hne. discriminate. }
    constructor; unfold heartbeats, established in *; state_simpl.
    + rewrite Forall_forall in *. intros tm Hin. apply H1. apply filter_In in Hin. tauto.
    + now apply timers_distinct_filter.
    + rewrite Hnone. constructor.
    + intros _. exact Hnone.
    + intros _. rewrite Ek. discriminate.
Qed.

Lemma hb_take_pending (s : State) (p : Op -> bool) (o : Op) (ps : list Op) :
  HeartbeatInv s -> take p (pending s) = Some (o, ps) ->
  HeartbeatInv (set_pending (fun _ => ps) s).
Proof.
  intros [H1 H2 H3 H4 H5] Ht. apply take_spec in Ht. destruct Ht as (a & b & Hs & -> & _).
  constructor; unfold heartbeats, established in *; state_simpl; auto.
  intros [He | Hp]; apply H5; [now left | right].
  rewrite Hs. rewrite existsb_app in *. simpl.
  apply orb_true_iff in Hp. destruct Hp as [-> | ->]; rewrite ?orb_true_r; reflexivity.
Qed.

(** A timer fires: it leaves the schedule and its callback runs. *)
Lemma hb_onTimer (s : State) (id : TimerId) (tm : Timer) (ts : list Timer) :
  HeartbeatInv s -> takeTimer id (timers s) = Some (tm, ts) ->
  HeartbeatInv (snd (IndexJs.onTimer (timer_kind tm) (set_timers (fun _ => ts) s))).
Proof.
  intros H Ht. apply takeTimer_spec in Ht. destruct Ht as (a & b & Hs & -> & Hid).
  assert (Hnd : NoDup (map timer_id (a ++ b))).
  { destruct H as [_ H2 _ _ _]. rewrite Hs, map_app in H2. simpl in H2.
    apply NoDup_remove_1 in H2. now rewrite map_app. }
  assert (Hsub : forall x, In x (a ++ b)%list -> In x (timers s)).
  { intros x Hin. rewrite Hs. apply in_app_or in Hin. apply in_or_app. simpl. tauto. }
  pose proof (hb_sublist s (a ++ b)%list Hsub Hnd H) as H'.
  destruct (timer_kind tm) eqn:Ekind; simpl IndexJs.onTimer.
  - destruct H as [H1 H2 H3 H4 H5].
    assert (Htm : In tm (heartbeats s)).
    { apply filter_In. split; [rewrite Hs; apply in_or_app; simpl; tauto|].
      unfold isKeepAlive. now rewrite Ekind. }
    assert (Hest : established s = false).
    { destruct (established s) eqn:E; [|reflexivity].
      rewrite (H4 eq_refl) in Htm. destruct Htm. }
    assert (Hnone : filter isKeepAlive (a ++ b) = []).
    { destruct (filter isKeepAlive (a ++ b)) as [|x r] eqn:E; [reflexivity|]. exfalso.
      assert (Hx : In x (x :: r)) by now left.
      rewrite <- E in Hx. apply filter_In in Hx. destruct Hx as [Hx Hka].
      assert (Hxhb : In x (heartbeats s)) by (apply filter_In; split; [now apply Hsub | exact Hka]).
      rewrite Forall_forall in H3.
      pose proof (H3 x Hxhb) as E1. pose proof (H3 tm Htm) as E2.
      rewrite E1 in E2. inversion E2 as [E3].
      rewrite Hs, map_app in H2. simpl in H2. apply NoDup_remove_2 in H2.
      apply H2. rewrite <- map_app, <- E3. now apply in_map. }
    apply hb_initKeepAlive; [exact H' | exact Hnone | exact Hest].
  - now apply hb_poll.
Qed.

Lemma hb_step (ev : Event) (s s' : State) :
  HeartbeatInv s -> IndexJs.step ev s = Some s' -> HeartbeatInv s'.
Proof.
  intros H Hstep. unfold IndexJs.step, loop_step in Hstep.
  destruct (isSome (halted s)); [discriminate|].
  destruct ev; simpl in Hstep;
    match type of Hstep with
    | match ?x with _ => _ end = _ => destruct x as [[o ps]|] eqn:Et; [|discriminate]
    end;
    inversion Hstep; subst; clear Hstep.
  - apply turn_snd; [intros; now apply hb_halted|].
    apply hb_onInit; [eapply hb_take_pending; eauto|].
    state_simpl. destruct H as [_ _ _ _ H5]. apply H5. right.
    apply take_spec in Et. destruct Et as (a & b & -> & _ & Hp).
    rewrite existsb_app. simpl. destruct o; try discriminate. simpl. apply orb_true_r.
  - apply pres_turn; [apply hb_onShowJob | intros; now apply hb_halted |].
    eapply hb_take_pending; eauto.
  - apply pres_turn; [apply hb_onWait | intros; now apply hb_halted |].
    eapply hb_take_pending; eauto.
  - apply pres_turn; [apply hb_onText | intros; now apply hb_halted |].
    eapply hb_take_pending; eauto.
  - apply turn_snd; [intros; now apply hb_halted|].
    now apply (hb_onTimer s id).
  - apply pres_turn; [apply hb_onQuit | intros; now apply hb_halted |].
    eapply hb_take_pending; eauto.
Qed.

Lemma hb_launch (env : Env) (cfg : Config) : HeartbeatInv (IndexJs.launch env cfg).
Proof.
  unfold IndexJs.launch. apply pres_turn.
  - unfold IndexJs.module_exports, parallel, series, start. unfold_index_hb.
    pres_walk hb_prim. apply (pres_startAll HeartbeatInv). intros t. apply hb_runTest.
  - intros; now apply hb_halted.
  - constructor; unfold heartbeats, established; simpl.
    + constructor.
    + constructor.
    + constructor.
    + reflexivity.
    + intros [H | H]; discriminate.
Qed.

Lemma hb_reachable (env : Env) (cfg : Config) (s : State) :
  IndexJs.reachable env cfg s -> HeartbeatInv s.
Proof.
  intros [evs Hevs]. pose proof (hb_launch env cfg) as H0.
  revert H0 Hevs. generalize (IndexJs.launch env cfg) as s0.
  unfold IndexJs.steps.
  induction evs as [|ev r IH]; simpl; intros s0 H0 Hevs.
  - inversion Hevs; subst. exact H0.
  - destruct (loop_step _ _ _ _ _ _ ev s0) as [s1|] eqn:E; [|discriminate].
    apply (IH s1); [|exact Hevs]. eapply hb_step; eauto.
Qed.

Lemma same_id_at_most_one (ts : list Timer) (id : TimerId) :
  NoDup (map timer_id ts) -> Forall (fun tm => timer_id tm = id) ts -> List.length ts <= 1.
Proof.
  intros Hnd Hall. destruct ts as [|x [|y r]]; simpl; try lia.
  exfalso. inversion Hall as [|? ? Hx Hr]; subst. inversion Hr as [|? ? Hy _]; subst.
  simpl in Hnd. inversion Hnd as [|? ? Hout _]; subst. apply Hout. left. congruence.
Qed.

(** C7: in every state a run of index.js can reach, at most one heartbeat
    timer is scheduled, and none is once some platform has received its
    session. *)
Theorem keepAlive_heartbeat_invariant (env : Env) (cfg : Config) (s : State) :
  IndexJs.reachable env cfg s ->
  List.length (heartbeats s) <= 1
  /\ (established s = true -> heartbeats s = []).
Proof.
  intros Hr. destruct (hb_reachable env cfg s Hr) as [H1 H2 H3 H4 H5]. split; [|exact H4].
  destruct (keepAliveTimeoutId (vars s)) as [id|] eqn:Ek.
  - apply (same_id_at_most_one (heartbeats s) id).
    + unfold heartbeats. now apply timers_distinct_filter.
    + eapply Forall_impl; [|exact H3]. simpl. intros tm E. now inversion E.
  - destruct (heartbeats s) as [|tm r]; simpl; [lia|].
    inversion H3 as [|? ? Hc _]; subst. discriminate.
Qed.

Lemma keepAlive_heartbeat_invariant_witness :
  established sampleSession = true /\ heartbeats sampleSession = []
  /\ List.length (heartbeats (IndexJs.launch sampleEnv cfgDefault)) = 1.
Proof.
  destruct (keepAlive_heartbeat_invariant sampleEnv cfgDefault sampleSession) as [_ H].
  - exists [InitDone 0 (inr "session-a"); ShowJobDone 0 (inr noJobError); WaitDone 0 (inr 1)].
    vm_compute. reflexivity.
  - split; [vm_compute; reflexivity | split; [apply H; vm_compute; reflexivity | vm_compute; reflexivity]].
Defined.

(** ** The verdict of the result scraper *)

Ltac statuses_prim :=
  idtac;
  match goal with
  | H : StatusesAre _ _ |- StatusesAre _ _ =>
      unfold StatusesAre in *; state_simpl;
      rewrite ?statuses_app; simpl statuses; rewrite ?app_nil_r; exact H
  end.

Lemma statuses_setTimeout (l : list bool) (k : TimerKind) (d : Z) :
  pres (StatusesAre l) (setTimeout k d).
Proof. intros s H. unfold setTimeout. statuses_prim. Qed.
#[local] Hint Resolve statuses_setTimeout : presdb.

Lemma statuses_cb_index (l : list bool) (t : TaskId) (e : option JsError) :
  pres (StatusesAre l) (IndexJs.cb t e).
Proof. unfold_index. pres_walk statuses_prim. Qed.

Ltac unfold_part000 :=
  unfold Part000.onInit, Part000.onShowJob, Part000.onWait, Part000.onText,
    Part000.onTimer, Part000.onQuit, Part000.checkTestResults, Part000.readCallback,
    Part000.checkTestResultsDone, Part000.getElementText, Part000.pollSauceLabsStatus,
    Part000.testComplete, Part000.cb, Part000.complete, Part000.runTest,
    Part000.initKeepAlive, Part000.bumpRetryCount, taskCallback, finish, processExit,
    set_jobTimeoutId, set_sessionId, set_results, set_closure, set_allPlatformsPassed,
    set_keepAliveTimeoutId, set_retryCount, clearTimeout, request, emit;
  simpl SELECTORS.

Lemma statuses_cb_part000 (l : list bool) (t : TaskId) (e : option JsError) :
  pres (StatusesAre l) (Part000.cb t e).
Proof. unfold_part000. pres_walk statuses_prim. Qed.

Lemma lookup_update_same (t : TaskId) (f : Closure -> Closure) (cs : list (TaskId * Closure)) :
  lookupClosure t (updateClosure t f cs) = f (lookupClosure t cs).
Proof.
  induction cs as [|[u c] r IH]; simpl.
  - now rewrite Nat.eqb_refl.
  - destruct (u =? t)%nat eqn:E; simpl; rewrite E; [reflexivity | exact IH].
Qed.

Lemma lookup_update_other (t u : TaskId) (f : Closure -> Closure) (cs : list (TaskId * Closure)) :
  u <> t -> lookupClosure u (updateClosure t f cs) = lookupClosure u cs.
Proof.
  intros Hne. induction cs as [|[v c] r IH]; simpl.
  - destruct (t =? u)%nat eqn:E; [apply Nat.eqb_eq in E; congruence | reflexivity].
  - destruct (v =? t)%nat eqn:E; simpl.
    + apply Nat.eqb_eq in E. subst v.
      destruct (t =? u)%nat eqn:E'; [apply Nat.eqb_eq in E'; congruence | reflexivity].
    + destruct (v =? u)%nat; [reflexivity | exact IH].
Qed.

Lemma trace_turn (m : M unit) (s : State) : trace (turn m s) = trace (snd (m s)).
Proof. unfold turn. destruct (m s) as [[a | msg] s']; reflexivity. Qed.

Lemma allTestsPassed_iff (passed failed total : string) (allow : bool) :
  allTestsPassed passed failed total allow = true
  <-> passed = total /\ failed = "0" /\ (total <> "0" \/ allow = true).
Proof.
  unfold allTestsPassed.
  rewrite !andb_true_iff, orb_true_iff, negb_true_iff, !String.eqb_eq, String.eqb_neq.
  tauto.
Qed.

(** What [testComplete] reports, in index.js and in the retry revision. *)
Lemma testComplete_reports_index (t : TaskId) (status : bool) (s : State) :
  statuses (trace (snd (IndexJs.testComplete t status s))) = (statuses (trace s) ++ [status])%list.
Proof.
  unfold IndexJs.testComplete. rewrite snd_bind_gets.
  assert (Hrest : forall s1, statuses (trace s1) = statuses (trace s) ->
            statuses (trace (snd ((emit (DriverSauceJobStatus status);;
                                   emit DriverQuit;;
                                   passed <- gets (fun s => allPlatformsPassed (vars s));;
                                   set_allPlatformsPassed (passed && status);;
                                   IndexJs.cb t None) s1)))
            = (statuses (trace s) ++ [status])%list).
  { intros s1 H1. unfold emit at 1. rewrite snd_bind_modify.
    match goal with
    | |- statuses (trace (snd (?rest ?s2))) = ?l =>
        assert (Hp : pres (StatusesAre l) rest)
          by (unfold emit, set_allPlatformsPassed;
              pres_walk statuses_prim; apply statuses_cb_index);
        apply (Hp s2)
    end.
    unfold StatusesAre. state_simpl. rewrite statuses_app, H1. reflexivity. }
  destruct (jobTimeoutId (closure t s)) as [id|].
  - unfold clearTimeout. rewrite snd_bind_modify. apply Hrest. reflexivity.
  - rewrite snd_bind_ret. apply Hrest. reflexivity.
Qed.

Lemma testComplete_reports_part000 (t : TaskId) (status : bool) (s : State) :
  statuses (trace (snd (Part000.testComplete t status s))) = (statuses (trace s) ++ [status])%list.
Proof.
  unfold Part000.testComplete. rewrite snd_bind_gets.
  assert (Hrest : forall s1, statuses (trace s1) = statuses (trace s) ->
            statuses (trace (snd ((emit (DriverSauceJobStatus status);;
                                   emit DriverQuit;;
                                   passed <- gets (fun s => allPlatformsPassed (vars s));;
                                   set_allPlatformsPassed (passed && status);;
                                   Part000.cb t None) s1)))
            = (statuses (trace s) ++ [status])%list).
  { intros s1 H1. unfold emit at 1. rewrite snd_bind_modify.
    match goal with
    | |- statuses (trace (snd (?rest ?s2))) = ?l =>
        assert (Hp : pres (StatusesAre l) rest)
          by (unfold emit, set_allPlatformsPassed;
              pres_walk statuses_prim; apply statuses_cb_part000);
        apply (Hp s2)
    end.
    unfold StatusesAre. state_simpl. rewrite statuses_app, H1. reflexivity. }
  destruct (jobTimeoutId (closure t s)) as [id|].
  - unfold clearTimeout, set_jobTimeoutId, set_closure.
    rewrite snd_bind_returns with (a := tt) by reflexivity.
    apply Hrest. reflexivity.
  - rewrite snd_bind_ret. apply Hrest. reflexivity.
Qed.

(** C1: once the three counters are read, the outcome the scraper reports
    (in index.js and in the retry revision alike) is a pass exactly when
    passed and total are the same string, failed is the string "0", and
    total is not the string "0" or zero assertions are allowed. *)
Theorem scraper_verdict (t : TaskId) (s : State) (passed failed total : string) :
  results (closure t s) = [passed; failed; total] ->
  let verdict := allTestsPassed passed failed total (allowZeroAssertions (vars s)) in
  statuses (trace (turn (IndexJs.checkTestResultsDone t None) s))
    = (statuses (trace s) ++ [verdict])%list
  /\ statuses (trace (turn (Part000.checkTestResultsDone t None) s))
     = (statuses (trace s) ++ [verdict])%list
  /\ (verdict = true <->
      passed = total /\ failed = "0" /\ (total <> "0" \/ allowZeroAssertions (vars s) = true)).
Proof.
  intros Hrs verdict. split; [|split].
  - rewrite trace_turn. unfold IndexJs.checkTestResultsDone.
    rewrite !snd_bind_gets, Hrs. unfold emit. rewrite snd_bind_modify.
    rewrite testComplete_reports_index. state_simpl.
    rewrite statuses_app. simpl statuses. now rewrite app_nil_r.
  - rewrite trace_turn. unfold Part000.checkTestResultsDone.
    rewrite !snd_bind_gets, Hrs. unfold emit. rewrite snd_bind_modify.
    rewrite testComplete_reports_part000. state_simpl.
    rewrite statuses_app. simpl statuses. now rewrite app_nil_r.
  - apply allTestsPassed_iff.
Qed.

(** The literal cases; the last two differ from a numeric comparison. *)
Example verdict_cases :
  allTestsPassed "5" "0" "5" false = true
  /\ allTestsPassed "0" "0" "0" false = false
  /\ allTestsPassed "0" "0" "0" true = true
  /\ allTestsPassed "4" "1" "5" false = false
  /\ allTestsPassed "05" "0" "5" true = false
  /\ allTestsPassed "00" "0" "00" false = true.
Proof. repeat split. Qed.

Lemma scraper_verdict_witness :
  statuses (trace (turn (IndexJs.checkTestResultsDone 1 None) sampleRead)) = [true; false]
  /\ statuses (trace (turn (Part000.checkTestResultsDone 1 None) sampleRead)) = [true; false].
Proof.
  destruct (scraper_verdict 1 sampleRead "4" "1" "5") as [H1 [H2 _]].
  - vm_compute. reflexivity.
  - split; [rewrite H1 | rewrite H2]; vm_compute; reflexivity.
Defined.

(** ** The zero-assertions policy along a run (index.js) *)

(** C10, as the code has it: the entry function sets the policy to the
    supplied [zeroAssertionsPass], and leaves it as it is when the option is
    left out. On the first call in a freshly loaded module the policy is
    therefore the default, allowing, when the option is left out, and the
    supplied value otherwise; it stays so in every state of the run, and a
    platform whose third counter arrives with all three counters reading 0
    is reported as passed exactly when the policy allows it. *)
Theorem zeroAssertionsPass_default (env : Env) (cfg : Config) :
  (forall s0,
     allowZeroAssertions (vars (turn (IndexJs.module_exports env cfg) s0))
     = match zeroAssertionsPass cfg with
       | None => allowZeroAssertions (vars s0)
       | Some b => b
       end)
  /\ (forall s, IndexJs.reachable env cfg s ->
        (zeroAssertionsPass cfg = None -> allowZeroAssertions (vars s) = true)
        /\ (forall b, zeroAssertionsPass cfg = Some b -> allowZeroAssertions (vars s) = b)
        /\ (forall t s',
              results (closure t s) = ["0"; "0"] ->
              IndexJs.step (TextDone t (inr "0")) s = Some s' ->
              statuses (trace s')
              = (statuses (trace s)
                 ++ [match zeroAssertionsPass cfg with None => true | Some b => b end])%list)).
Proof.
  split.
  - intros s0. exact (policy_call env cfg s0).
  - intros s Hr. pose proof (policy_reachable env cfg s Hr) as H.
    unfold PolicyIs, policy in H. split; [|split].
    + intros Hnone. now rewrite Hnone in H.
    + intros b Hsome. now rewrite Hsome in H.
    + intros t s' Hrs Hstep.
      unfold IndexJs.step, loop_step in Hstep.
      destruct (isSome (halted s)); [discriminate|]. simpl in Hstep.
      destruct (take (op_eqb (OpText t)) (pending s)) as [[o ps]|]; [|discriminate].
      inversion Hstep; subst s'; clear Hstep.
      rewrite trace_turn. unfold IndexJs.onText, IndexJs.readCallback.
      rewrite snd_bind_gets. unfold closure in *. state_simpl. rewrite Hrs.
      unfold set_results, set_closure. rewrite snd_bind_modify.
      cbn [List.length app nth_error SELECTORS].
      unfold IndexJs.checkTestResultsDone. rewrite !snd_bind_gets.
      unfold emit. rewrite snd_bind_modify, testComplete_reports_index.
      unfold closure. state_simpl. rewrite lookup_update_same. cbn [results nthResult nth].
      rewrite statuses_app, H. simpl statuses. rewrite app_nil_r.
      destruct (zeroAssertionsPass cfg) as [[|]|]; reflexivity.
Qed.

Lemma zeroAssertionsPass_default_witness :
  (exists s, IndexJs.step (TextDone 0 (inr "0")) sampleZeroDefault = Some s
             /\ statuses (trace s) = [true])
  /\ (exists s, IndexJs.step (TextDone 0 (inr "0")) sampleZeroStrict = Some s
                /\ statuses (trace s) = [false])
  /\ allowZeroAssertions (vars sampleZeroDefault) = true
  /\ allowZeroAssertions (vars sampleZeroStrict) = false.
Proof.
  destruct (zeroAssertionsPass_default sampleEnv cfgDefault) as [_ Hd].
  destruct (zeroAssertionsPass_default sampleEnv cfgNotParallel) as [_ Hs].
  destruct (Hd sampleZeroDefault) as (Hd1 & _ & Hd3);
    [exists (firstn 6 zeroCounterEvents); vm_compute; reflexivity|].
  destruct (Hs sampleZeroStrict) as (_ & Hs2 & Hs3);
    [exists (firstn 6 zeroCounterEvents); vm_compute; reflexivity|].
  split; [|split; [|split]].
  - eexists. split; [vm_compute; reflexivity|].
    match goal with
    | |- statuses (trace ?s1) = _ =>
        rewrite (Hd3 0 s1); [vm_compute; reflexivity | vm_compute; reflexivity | vm_compute; reflexivity]
    end.
  - eexists. split; [vm_compute; reflexivity|].
    match goal with
    | |- statuses (trace ?s1) = _ =>
        rewrite (Hs3 0 s1); [vm_compute; reflexivity | vm_compute; reflexivity | vm_compute; reflexivity]
    end.
  - apply Hd1. reflexivity.
  - apply (Hs2 false). reflexivity.
Defined.

(** C10, as worded, fails on a later call: the policy is a variable of the
    module, so after a call with [zeroAssertionsPass: false] a call that
    leaves the option out keeps forbidding zero assertions, and its first
    platform, with counters 0, 0, 0, is reported as failed. *)
Lemma omitted_option_keeps_earlier_policy :
  zeroAssertionsPass cfgDefault = None
  /\ allowZeroAssertions (vars sampleSecondCall) = false
  /\ match IndexJs.steps zeroCounterEvents sampleSecondCall with
     | Some s => statuses (trace s) = [false]
     | None => False
     end.
Proof. split; [reflexivity | split; vm_compute; reflexivity]. Qed.

(** ** The execution mode *)

Lemma turn_returns (m : M unit) (s : State) (a : unit) : fst (m s) = Ret a -> turn m s = snd (m s).
Proof. unfold turn. destruct (m s) as [[x | msg] s']; simpl; intros H; [reflexivity | discriminate]. Qed.

Lemma runTest_starts_index : StartsInit IndexJs.runTest.
Proof.
  intros t s. unfold IndexJs.runTest, IndexJs.initKeepAlive, emit, request,
    set_keepAliveTimeoutId, setTimeout, when, bind, gets, modify, ret.
  destruct (keepAliveTimeoutId (vars s)); simpl; auto.
Qed.

Lemma runTest_starts_part000 : StartsInit Part000.runTest.
Proof.
  intros t s. unfold Part000.runTest, Part000.initKeepAlive, emit, request,
    set_keepAliveTimeoutId, setTimeout, when, bind, gets, modify, ret.
  destruct (keepAliveTimeoutId (vars s)); simpl; auto.
Qed.

Lemma startAll_starts (task : TaskId -> M unit) (ts : list TaskId) (s : State) :
  StartsInit task ->
  fst (startAll task ts s) = Ret tt
  /\ pending (snd (startAll task ts s)) = (pending s ++ map OpInit ts)%list
  /\ coord (snd (startAll task ts s)) = coord s.
Proof.
  intros H. revert s. induction ts as [|t r IH]; intros s; simpl.
  - now rewrite app_nil_r.
  - destruct (H t s) as (Hret & Hp & Hc & _). unfold bind.
    destruct (task t s) as [[[] | msg] s1]; simpl in *; [|discriminate].
    destruct (IH s1) as (Hret' & Hp' & Hc'). rewrite Hret', Hp', Hc', Hp, Hc.
    now rewrite <- app_assoc.
Qed.

Lemma start_shape (task : TaskId -> M unit) (done : M unit) (m : Mode) (s : State) :
  StartsInit task ->
  (forall s', fst (done s') = Ret tt /\ pending (snd (done s')) = (pending s' ++ [OpQuit])%list
              /\ mode (coord (snd (done s'))) = mode (coord s')) ->
  finished (coord s) = false ->
  pending s = [] ->
  mode (coord (turn (start task done m) s)) = m
  /\ pending (turn (start task done m) s) = started m (List.length (tests s)).
Proof.
  intros Htask Hdone Hfin Hpend. unfold start.
  rewrite turn_bind_modify, turn_bind_gets. state_simpl.
  destruct (List.length (tests s)) as [|n] eqn:En; simpl Nat.eqb; cbv iota.
  - unfold finish. rewrite turn_bind_gets. state_simpl. rewrite Hfin.
    rewrite turn_bind_modify.
    match goal with |- context [turn done ?s1] => destruct (Hdone s1) as (Hr & Hp & Hm) end.
    rewrite (turn_returns _ _ tt Hr), Hp, Hm. state_simpl. rewrite Hpend. split; reflexivity.
  - destruct m.
    + match goal with
      | |- context [turn (startAll task ?ts) ?s1] =>
          destruct (startAll_starts task ts s1 Htask) as (Hr & Hp & Hc)
      end.
      rewrite (turn_returns _ _ tt Hr), Hp, Hc. state_simpl. rewrite Hpend. split; reflexivity.
    + match goal with
      | |- context [turn (task 0) ?s1] => destruct (Htask 0 s1) as (Hr & Hp & Hc & _)
      end.
      rewrite (turn_returns _ _ tt Hr), Hp, Hc. state_simpl. rewrite Hpend. split; reflexivity.
Qed.

Lemma complete_shape_index (s : State) :
  fst (IndexJs.complete s) = Ret tt
  /\ pending (snd (IndexJs.complete s)) = (pending s ++ [OpQuit])%list
  /\ mode (coord (snd (IndexJs.complete s))) = mode (coord s).
Proof. repeat split. Qed.

Lemma complete_shape_part000 (s : State) :
  fst (Part000.complete s) = Ret tt
  /\ pending (snd (Part000.complete s)) = (pending s ++ [OpQuit])%list
  /\ mode (coord (snd (Part000.complete s))) = mode (coord s).
Proof. repeat split. Qed.

(** ** The order in which the tasks are started *)

Lemma initPlatforms_app (l l' : list Action) :
  initPlatforms (l ++ l') = (initPlatforms l ++ initPlatforms l')%list.
Proof.
  induction l as [|a l IH]; simpl; [reflexivity|].
  destruct a; simpl; now rewrite ?IH.
Qed.

Lemma taskCallbacks_app (l l' : list Action) :
  taskCallbacks (l ++ l') = (taskCallbacks l ++ taskCallbacks l')%list.
Proof.
  induction l as [|a l IH]; simpl; [reflexivity|].
  destruct a; simpl; now rewrite ?IH.
Qed.

Lemma in_taskCallbacks (t : TaskId) (e : option JsError) (tr : list Action) :
  In (t, e) (taskCallbacks tr) <-> In (TaskCallback t e) tr.
Proof.
  induction tr as [|a r IH]; simpl; [tauto|].
  destruct a; simpl; rewrite IH; intuition (try discriminate; try congruence).
Qed.

Lemma firstn_snoc_nth (T : list Test) (k : nat) (x : Test) :
  nth_error T k = Some x -> firstn (S k) T = (firstn k T ++ [x])%list.
Proof.
  revert k. induction T as [|y r IH]; intros [|k] H; simpl in *; try discriminate.
  - now inversion H.
  - f_equal. now apply IH.
Qed.

Lemma platforms_in_list_order (T : list Test) :
  map (fun u => match nth_error T u with
                | Some tst => test_platform tst
                | None => []
                end) (seq 0 (List.length T))
  = map test_platform T.
Proof.
  induction T as [|x r IH]; simpl; [reflexivity|].
  f_equal. rewrite <- seq_shift, map_map. exact IH.
Qed.

(** The invariant only looks at the coordinator, the task list, the calls
    of [driver.init] and of task callbacks in the trace, and the tasks of
    the requests and timers outstanding. *)
Lemma seq_frame (T : list Test) (k : nat) (s s' : State) :
  coord s' = coord s ->
  tests s' = tests s ->
  initPlatforms (trace s') = initPlatforms (trace s) ->
  taskCallbacks (trace s') = taskCallbacks (trace s) ->
  Forall (fun o => forall t, opTask o = Some t -> t < k) (pending s') ->
  Forall (fun tm => forall t, timerTask tm = Some t -> t < k) (timers s') ->
  SeqInv T k s -> SeqInv T k s'.
Proof.
  intros Hc Ht Hi Hcb Hp Htm [H1 H2 H3 H4 H5 H6 H7 H8 H9 H10].
  constructor; rewrite ?Hc, ?Ht, ?Hi, ?Hcb; assumption.
Qed.

Lemma timers_task_filter (keep : Timer -> bool) (k : nat) (ts : list Timer) :
  Forall (fun tm => forall t, timerTask tm = Some t -> t < k) ts ->
  Forall (fun tm => forall t, timerTask tm = Some t -> t < k) (filter keep ts).
Proof.
  intros H. rewrite Forall_forall in *. intros tm Hin. apply H. apply filter_In in Hin. tauto.
Qed.

Ltac seq_prim :=
  idtac;
  match goal with
  | H : SeqBound ?T _ ?s |- SeqBound _ _ _ =>
      let k := fresh "k" in
      let Hi := fresh "Hi" in
      let Hk := fresh "Hk" in
      destruct H as (k & Hi & Hk); exists k; split; [|exact Hk];
      apply (seq_frame T k s); [ .. | exact Hi ]; state_simpl;
      first [ reflexivity
            | rewrite initPlatforms_app; simpl; apply app_nil_r
            | rewrite taskCallbacks_app; simpl; apply app_nil_r
            | exact (sq_ops T k s Hi)
            | exact (sq_timers T k s Hi)
            | apply timers_task_filter; exact (sq_timers T k s Hi)
            | apply Forall_app; split;
              [ exact (sq_ops T k s Hi)
              | constructor;
                [ simpl;
                  let Hx := fresh "Hx" in
                  intros ? Hx; inversion Hx; subst; apply Hk; reflexivity
                | constructor ] ]
            | apply Forall_app; split;
              [ exact (sq_timers T k s Hi)
              | constructor;
                [ unfold timerTask; simpl;
                  let Hx := fresh "Hx" in
                  intros ? Hx; inversion Hx; subst; apply Hk; reflexivity
                | constructor ] ] ]
  end.

Lemma seq_halted (T : list Test) (b : option TaskId) (s : State) (h : option Halt) :
  SeqBound T b s -> SeqBound T b (set_halted h s).
Proof. intros H. seq_prim. Qed.

Lemma seq_setTimeout (T : list Test) (t : TaskId) (kind : TimerKind) (d : Z) :
  (forall u, timerTask {| timer_id := 0; timer_kind := kind; timer_delay := d |} = Some u -> u = t) ->
  pres (SeqBound T (Some t)) (setTimeout kind d).
Proof.
  intros Hkind s (k & Hi & Hk). exists k. split; [|exact Hk].
  unfold setTimeout. apply (seq_frame T k s); [ .. | exact Hi ]; state_simpl; try reflexivity.
  - exact (sq_ops T k s Hi).
  - apply Forall_app. split; [exact (sq_timers T k s Hi)|].
    constructor; [|constructor]. unfold timerTask in *. simpl in *. intros u Hu.
    rewrite (Hkind u Hu). now apply Hk.
Qed.

Lemma seq_setTimeout_job (T : list Test) (t : TaskId) (d : Z) :
  pres (SeqBound T (Some t)) (setTimeout (JobPollTimer t) d).
Proof. apply seq_setTimeout. unfold timerTask. simpl. intros u Hu. now inversion Hu. Qed.

Lemma seq_setTimeout_keepAlive (T : list Test) (b : option TaskId) (d : Z) :
  pres (SeqBound T b) (setTimeout KeepAliveTimer d).
Proof.
  intros s (k & Hi & Hk). exists k. split; [|exact Hk].
  unfold setTimeout. apply (seq_frame T k s); [ .. | exact Hi ]; state_simpl; try reflexivity.
  - exact (sq_ops T k s Hi).
  - apply Forall_app. split; [exact (sq_timers T k s Hi)|].
    constructor; [|constructor]. unfold timerTask. simpl. discriminate.
Qed.
#[local] Hint Resolve seq_setTimeout_job seq_setTimeout_keepAlive : presdb.

Lemma conc_frame (T : list Test) (s s' : State) :
  mode (coord s') = mode (coord s) ->
  tests s' = tests s ->
  initPlatforms (trace s') = initPlatforms (trace s) ->
  ConcInv T s -> ConcInv T s'.
Proof.
  intros Hc Ht Hi [H1 H2 H3]. constructor; rewrite ?Hc, ?Ht, ?Hi; assumption.
Qed.

Ltac conc_prim :=
  idtac;
  match goal with
  | H : ConcInv ?T ?s |- ConcInv _ _ =>
      apply (conc_frame T s); [ .. | exact H ]; state_simpl;
      first [ reflexivity
            | rewrite initPlatforms_app; simpl; apply app_nil_r ]
  end.

Lemma conc_halted (T : list Test) (s : State) (h : option Halt) :
  ConcInv T s -> ConcInv T (set_halted h s).
Proof. intros H. conc_prim. Qed.

Lemma conc_setTimeout (T : list Test) (kind : TimerKind) (d : Z) :
  pres (ConcInv T) (setTimeout kind d).
Proof. intros s H. unfold setTimeout. conc_prim. Qed.
#[local] Hint Resolve conc_setTimeout : presdb.

Section Coordinator.

Variable task : TaskId -> M unit.
Variable done : M unit.
Variable T0 : list Test.
Hypothesis Htask : TaskEffect task.
Hypothesis Hdone : DoneEffect done.

(** Ending a sequential run that has not been ended before. *)
Lemma seq_finish_run (T : list Test) (k : nat) (s : State) :
  finished (coord s) = false ->
  mode (coord s) = Sequential ->
  tests s = T ->
  initPlatforms (trace s) = map test_platform (firstn k T) ->
  k <= List.length T ->
  (0 < List.length T -> 0 < k) ->
  Forall (fun o => forall t, opTask o = Some t -> t < k) (pending s) ->
  Forall (fun tm => forall t, timerTask tm = Some t -> t < k) (timers s) ->
  (forall t e, In (t, e) (taskCallbacks (trace s)) -> In t (calledBack (coord s))) ->
  (forall j, S j < k -> In (j, None) (taskCallbacks (trace s))) ->
  (forall j, j < k -> In j (calledBack (coord s))) ->
  (k = List.length T \/ exists e, In (pred k, Some e) (taskCallbacks (trace s))) ->
  SeqInv T k (snd (finish done s)).
Proof.
  intros Hf H1 H2 H3 H4 H5 H6 H7 H8 H9 Hall Hend.
  unfold finish. rewrite snd_bind_gets, Hf, snd_bind_modify.
  match goal with |- SeqInv _ _ (snd (done ?s1)) => destruct (Hdone s1) as (Dc & Dt & Di & Dcb & Dp & Dtm) end.
  constructor; rewrite ?Dc, ?Dt, ?Di, ?Dcb, ?Dp, ?Dtm; state_simpl; auto;
    try (right; repeat split; assumption).
  apply Forall_app. split; [exact H6|]. constructor; [|constructor]. simpl. discriminate.
Qed.

(** A task calls back in a sequential run: a second call is refused; an
    error ends the run; otherwise the next task of the list, if there is
    one, is started at once, and the run is completed if there is none. *)
Lemma seq_taskCallback (T : list Test) (t : TaskId) (e : option JsError) :
  pres (SeqBound T (Some t)) (taskCallback task done t e).
Proof.
  intros s (k & Hi & Hk). specialize (Hk t eq_refl).
  unfold taskCallback, emit. rewrite snd_bind_modify, snd_bind_gets. state_simpl.
  destruct (existsb (Nat.eqb t) (calledBack (coord s))) eqn:Hex.
  - unfold throw. simpl snd. exists k. split; [|intros u Hu; inversion Hu; subst; exact Hk].
    destruct Hi as [H1 H2 H3 H4 H5 H6 H7 H8 H9 H10].
    apply existsb_exists in Hex. destruct Hex as (u & Hu & Heq).
    apply Nat.eqb_eq in Heq. subst u.
    constructor; state_simpl; rewrite ?initPlatforms_app, ?taskCallbacks_app; simpl;
      rewrite ?app_nil_r; auto.
    + intros u e' Hin. apply in_app_or in Hin. destruct Hin as [Hin | [Hin | []]].
      * eapply H8; eauto.
      * inversion Hin; subst. exact Hu.
    + intros j Hj. apply in_or_app. left. now apply H9.
    + destruct H10 as [HA | (Hf & Hall & [Hn | [e' He']])]; [now left | right | right].
      * repeat split; auto.
      * repeat split; auto. right. exists e'. apply in_or_app. now left.
  - assert (Hnot : ~ In t (calledBack (coord s))).
    { intros Hin.
      assert (Ht : existsb (Nat.eqb t) (calledBack (coord s)) = true)
        by (apply existsb_exists; exists t; split; [exact Hin | apply Nat.eqb_refl]).
      congruence. }
    destruct Hi as [H1 H2 H3 H4 H5 H6 H7 H8 H9 H10].
    destruct H10 as [(Hf & Hkc & Hcb) | (Hf & Hall & _)]; [|elim Hnot; now apply Hall].
    assert (Htc : t = completed (coord s)).
    { destruct (Nat.lt_ge_cases t (completed (coord s))) as [Hlt | Hge];
        [elim Hnot; now apply Hcb | lia]. }
    assert (Hcalled : forall u e',
              In (u, e') (taskCallbacks (trace s) ++ [(t, e)]) ->
              In u (t :: calledBack (coord s))).
    { intros u e' Hin. apply in_app_or in Hin. destruct Hin as [Hin | [Hin | []]].
      - right. eapply H8; eauto.
      - inversion Hin; subst. now left. }
    assert (Hallk : forall j, j < k -> In j (t :: calledBack (coord s))).
    { intros j Hj. destruct (Nat.eq_dec j t) as [-> | Hne]; [now left | right].
      apply Hcb. lia. }
    assert (Hnull : forall j, S j < k -> In (j, None) (taskCallbacks (trace s) ++ [(t, e)])).
    { intros j Hj. apply in_or_app. left. now apply H9. }
    rewrite snd_bind_modify. destruct e as [err|].
    + exists k. split; [|intros u Hu; inversion Hu; subst; exact Hk].
      apply seq_finish_run; state_simpl; rewrite ?initPlatforms_app, ?taskCallbacks_app; simpl;
        rewrite ?app_nil_r; auto.
      right. exists err. apply in_or_app. right. left. f_equal. lia.
    + rewrite snd_bind_modify, !snd_bind_gets. state_simpl. rewrite H1, H2, Hf.
      destruct (S (completed (coord s)) =? List.length T)%nat eqn:En.
      * apply Nat.eqb_eq in En.
        exists k. split; [|intros u Hu; inversion Hu; subst; exact Hk].
        apply seq_finish_run; state_simpl; rewrite ?initPlatforms_app, ?taskCallbacks_app; simpl;
          rewrite ?app_nil_r; auto.
        left. lia.
      * apply Nat.eqb_neq in En.
        match goal with
        | |- SeqBound _ _ (snd (task _ ?s3)) =>
            destruct (Htask (S t) s3) as (_ & Rc & Rt & Ri & Rcb & Rp & Rtm);
            specialize (Rtm (S k)); revert Rc Rt Ri Rcb Rp Rtm;
            generalize (snd (task (S t) s3))
        end.
        unfold platformOf. state_simpl. rewrite H2.
        rewrite initPlatforms_app, taskCallbacks_app.
        cbn [initPlatforms taskCallbacks]. rewrite !app_nil_r.
        assert (Hlt : k < List.length T) by lia.
        assert (Hkt : k = S t) by lia.
        destruct (nth_error T (S t)) as [x|] eqn:Ex;
          [|apply nth_error_None in Ex; lia].
        intros s' Rc Rt Ri Rcb Rp Rtm.
        exists (S k). split; [|intros u Hu; inversion Hu; subst; lia].
        constructor; rewrite ?Rc, ?Rt, ?Ri, ?Rcb, ?Rp; state_simpl; auto.
        -- rewrite H3, Hkt.
           now rewrite (firstn_snoc_nth T (S t) x Ex), map_app.
        -- intros _. lia.
        -- apply Forall_app. split.
           ++ eapply Forall_impl; [|exact H6]. simpl. intros o Ho u Hu. specialize (Ho u Hu). lia.
           ++ constructor; [|constructor]. simpl. intros u Hu. inversion Hu; subst. lia.
        -- apply Rtm. eapply Forall_impl; [|exact H7]. simpl.
           intros tm Htm u Hu. specialize (Htm u Hu). lia.
        -- intros j Hj. destruct (Nat.eq_dec j t) as [-> | Hne].
           ++ apply in_or_app. right. now left.
           ++ apply Hnull. lia.
        -- left. repeat split; [exact Hf | lia | |].
           ++ intros [<- | Hin]; [lia | apply Hcb in Hin; lia].
           ++ intros Hj. destruct (Nat.eq_dec j t) as [-> | Hne]; [now left | right].
              apply Hcb. lia.
Qed.

Lemma conc_done : pres (ConcInv T0) done.
Proof.
  intros s H. destruct (Hdone s) as (Dc & Dt & Di & _).
  apply (conc_frame T0 s); [now rewrite Dc | exact Dt | exact Di | exact H].
Qed.

Lemma conc_finish : pres (ConcInv T0) (finish done).
Proof.
  pose proof conc_done as Hd. unfold finish. pres_walk conc_prim.
Qed.

(** A task calls back in a concurrent run: no task is started. *)
Lemma conc_taskCallback (t : TaskId) (e : option JsError) :
  pres (ConcInv T0) (taskCallback task done t e).
Proof.
  intros s H. pose proof (cc_mode T0 s H) as Hm.
  unfold taskCallback, emit. rewrite snd_bind_modify, snd_bind_gets. state_simpl.
  assert (H1 : ConcInv T0 (set_trace (fun tr => (tr ++ [TaskCallback t e])%list) s)) by conc_prim.
  destruct (existsb (Nat.eqb t) (calledBack (coord s))); [exact H1|].
  rewrite snd_bind_modify.
  match goal with
  | |- ConcInv _ (snd (_ ?s2)) => assert (H2 : ConcInv T0 s2) by (clear H; conc_prim)
  end.
  destruct e as [err|]; [now apply conc_finish|].
  rewrite snd_bind_modify, !snd_bind_gets. state_simpl. rewrite Hm.
  match goal with
  | |- ConcInv _ (snd (_ ?s3)) => assert (H3 : ConcInv T0 s3) by (clear H H1; conc_prim)
  end.
  match goal with
  | |- context [if ?b then _ else _] => destruct b
  end; [now apply conc_finish | exact H3].
Qed.

(** Starting the tasks of a list one after another starts them in the
    order of the list. *)
Lemma startAll_inits (ts : list TaskId) (s : State) :
  fst (startAll task ts s) = Ret tt
  /\ coord (snd (startAll task ts s)) = coord s
  /\ tests (snd (startAll task ts s)) = tests s
  /\ initPlatforms (trace (snd (startAll task ts s)))
     = (initPlatforms (trace s) ++ map (fun u => platformOf u s) ts)%list.
Proof.
  revert s. induction ts as [|u r IH]; intros s; simpl.
  - now rewrite app_nil_r.
  - destruct (Htask u s) as (Rr & Rc & Rt & Ri & _).
    unfold bind. destruct (task u s) as [[[] | msg] s1]; simpl in *; [|discriminate].
    destruct (IH s1) as (Ir & Ic & It & Ii).
    rewrite Ir, Ic, It, Ii, Rc, Rt, Ri, <- app_assoc. simpl.
    repeat split. do 2 f_equal. apply map_ext. intros a. unfold platformOf. now rewrite Rt.
Qed.

(** The entry into a sequential run: the first task is started, or the
    run is completed at once when there is no task. *)
Lemma seq_start (s : State) :
  Unstarted T0 s -> SeqBound T0 None (snd (start task done Sequential s)).
Proof.
  intros [U1 U2 U3 U4 U5 U6 U7 U8].
  unfold start. rewrite snd_bind_modify, snd_bind_gets. state_simpl. rewrite U1.
  destruct T0 as [|x r] eqn:ET; cbn [List.length Nat.eqb].
  - exists 0. split; [|discriminate].
    apply seq_finish_run; state_simpl; rewrite ?U2, ?U3, ?U4, ?U5, ?U6; simpl; auto; try lia;
      try (intros ? ? []); try (intros; lia).
  - match goal with
    | |- SeqBound _ _ (snd (task _ ?s1)) =>
        destruct (Htask 0 s1) as (_ & Rc & Rt & Ri & Rcb & Rp & Rtm);
        specialize (Rtm 1); revert Rc Rt Ri Rcb Rp Rtm;
        generalize (snd (task 0 s1))
    end.
    unfold platformOf. state_simpl. rewrite U1, U2, U3, U4, U5. cbn [nth_error app].
    intros s' Rc Rt Ri Rcb Rp Rtm.
    exists 1. split; [|discriminate].
    constructor; rewrite ?Rc, ?Rt, ?Ri, ?Rcb, ?Rp; state_simpl; rewrite ?U6, ?U7, ?U8;
      simpl; auto; try lia; try (intros ? ? []); try (intros; lia).
    + constructor; [|constructor]. simpl. intros u Hu. inversion Hu. lia.
    + left. repeat split; auto; [intros [] | lia].
Qed.

(** The entry into a concurrent run: every task is started. *)
Lemma conc_start (s : State) :
  Unstarted T0 s -> ConcInv T0 (snd (start task done Concurrent s)).
Proof.
  intros [U1 U2 U3 U4 U5 U6 U7 U8].
  unfold start. rewrite snd_bind_modify, snd_bind_gets. state_simpl. rewrite U1.
  destruct (List.length T0 =? 0)%nat eqn:En.
  - apply conc_finish. constructor; state_simpl; auto.
    apply Nat.eqb_eq in En. destruct T0; [now rewrite U2 | discriminate].
  - match goal with
    | |- ConcInv _ (snd (startAll _ ?ts ?s1)) =>
        destruct (startAll_inits ts s1) as (_ & Rc & Rt & Ri)
    end.
    constructor; rewrite ?Rc, ?Rt, ?Ri; state_simpl; auto.
    rewrite U2. simpl. unfold platformOf. state_simpl. rewrite U1.
    apply platforms_in_list_order.
Qed.

End Coordinator.

Lemma seq_weaken (T : list Test) (b : option TaskId) (s : State) :
  SeqBound T b s -> SeqBound T None s.
Proof. intros (k & Hi & _). exists k. split; [exact Hi | discriminate]. Qed.

(** A request leaves the queue: its task is one of the started ones. *)
Lemma seq_take (T : list Test) (b : option TaskId) (p : Op -> bool) (s : State)
    (o : Op) (ps : list Op) :
  (forall x, p x = true -> opTask x = b) ->
  SeqBound T None s -> take p (pending s) = Some (o, ps) ->
  SeqBound T b (set_pending (fun _ => ps) s).
Proof.
  intros Hp (k & Hi & _) Ht. apply take_spec in Ht. destruct Ht as (l & r & Hs & -> & Ho).
  pose proof (sq_ops T k s Hi) as Hops. rewrite Hs in Hops.
  apply Forall_app in Hops. destruct Hops as [Hl Hr].
  inversion Hr as [|? ? Hhead Htail]; subst.
  exists k. split.
  - apply (seq_frame T k s); [ .. | exact Hi ]; state_simpl; try reflexivity.
    + apply Forall_app. now split.
    + exact (sq_timers T k s Hi).
  - intros t Hb. apply Hhead. rewrite (Hp o Ho). exact Hb.
Qed.

Lemma seq_takeTimer (T : list Test) (s : State) (id : TimerId) (tm : Timer) (ts : list Timer) :
  SeqBound T None s -> takeTimer id (timers s) = Some (tm, ts) ->
  SeqBound T (timerTask tm) (set_timers (fun _ => ts) s).
Proof.
  intros (k & Hi & _) Ht. apply takeTimer_spec in Ht. destruct Ht as (l & r & Hs & -> & _).
  pose proof (sq_timers T k s Hi) as Htm. rewrite Hs in Htm.
  apply Forall_app in Htm. destruct Htm as [Hl Hr].
  inversion Hr as [|? ? Hhead Htail]; subst.
  exists k. split.
  - apply (seq_frame T k s); [ .. | exact Hi ]; state_simpl; try reflexivity.
    + exact (sq_ops T k s Hi).
    + apply Forall_app. now split.
  - exact Hhead.
Qed.

Lemma op_eqb_task (a x : Op) : op_eqb a x = true -> opTask x = opTask a.
Proof.
  destruct a, x; simpl; try discriminate; intros H;
    try (apply andb_true_iff in H; destruct H as [H _]);
    try (apply Nat.eqb_eq in H; subst); reflexivity.
Qed.

Section OrderedLoop.

Variable onInit : TaskId -> JsError + string -> M unit.
Variable onShowJob : TaskId -> JsError + Job -> M unit.
Variable onWait : TaskId -> JsError + nat -> M unit.
Variable onText : TaskId -> JsError + string -> M unit.
Variable onTimer : TimerKind -> M unit.
Variable onQuit : M unit.
Variable T0 : list Test.

Section Sequential.

Hypothesis Hinit : forall t r, pres (SeqBound T0 (Some t)) (onInit t r).
Hypothesis Hjob : forall t r, pres (SeqBound T0 (Some t)) (onShowJob t r).
Hypothesis Hwait : forall t r, pres (SeqBound T0 (Some t)) (onWait t r).
Hypothesis Htext : forall t r, pres (SeqBound T0 (Some t)) (onText t r).
Hypothesis Hbeat : pres (SeqBound T0 None) (onTimer KeepAliveTimer).
Hypothesis Hpoll : forall t, pres (SeqBound T0 (Some t)) (onTimer (JobPollTimer t)).
Hypothesis Hquit : pres (SeqBound T0 None) onQuit.

Lemma seq_loop_steps (evs : list Event) (s s' : State) :
  SeqBound T0 None s ->
  loop_steps onInit onShowJob onWait onText onTimer onQuit evs s = Some s' ->
  SeqBound T0 None s'.
Proof.
  revert s. induction evs as [|ev r IH]; simpl; intros s H Hs.
  - inversion Hs; subst. exact H.
  - destruct (loop_step _ _ _ _ _ _ ev s) as [s1|] eqn:E; [|discriminate].
    apply (IH s1); [|exact Hs]. clear IH Hs.
    unfold loop_step in E. destruct (isSome (halted s)); [discriminate|].
    destruct ev; simpl in E;
      match type of E with
      | match ?x with _ => _ end = _ => destruct x as [[o ps]|] eqn:Et; [|discriminate]
      end;
      inversion E; subst; clear E.
    + apply (seq_weaken T0 (Some t)).
      apply pres_turn; [apply Hinit | intros; now apply seq_halted |].
      refine (seq_take T0 (Some t) _ s o ps _ H Et).
      intros x Hx. now rewrite (op_eqb_task _ _ Hx).
    + apply (seq_weaken T0 (Some t)).
      apply pres_turn; [apply Hjob | intros; now apply seq_halted |].
      refine (seq_take T0 (Some t) _ s o ps _ H Et).
      intros x Hx. now rewrite (op_eqb_task _ _ Hx).
    + apply (seq_weaken T0 (Some t)).
      apply pres_turn; [apply Hwait | intros; now apply seq_halted |].
      refine (seq_take T0 (Some t) _ s o ps _ H Et).
      intros x Hx. destruct x; try discriminate. apply Nat.eqb_eq in Hx. now subst.
    + apply (seq_weaken T0 (Some t)).
      apply pres_turn; [apply Htext | intros; now apply seq_halted |].
      refine (seq_take T0 (Some t) _ s o ps _ H Et).
      intros x Hx. now rewrite (op_eqb_task _ _ Hx).
    + pose proof (seq_takeTimer T0 s id o ps H Et) as Hb.
      unfold timerTask in Hb. destruct (timer_kind o) as [|t].
      * apply pres_turn; [apply Hbeat | intros; now apply seq_halted | exact Hb].
      * apply (seq_weaken T0 (Some t)).
        apply pres_turn; [apply Hpoll | intros; now apply seq_halted | exact Hb].
    + apply pres_turn; [apply Hquit | intros; now apply seq_halted |].
      refine (seq_take T0 None _ s o ps _ H Et).
      intros x Hx. now rewrite (op_eqb_task _ _ Hx).
Qed.

End Sequential.

Section Concurrent.

Hypothesis Hinit : forall t r, pres (ConcInv T0) (onInit t r).
Hypothesis Hjob : forall t r, pres (ConcInv T0) (onShowJob t r).
Hypothesis Hwait : forall t r, pres (ConcInv T0) (onWait t r).
Hypothesis Htext : forall t r, pres (ConcInv T0) (onText t r).
Hypothesis Htimer : forall k, pres (ConcInv T0) (onTimer k).
Hypothesis Hquit : pres (ConcInv T0) onQuit.

Lemma conc_loop_steps (evs : list Event) (s s' : State) :
  ConcInv T0 s ->
  loop_steps onInit onShowJob onWait onText onTimer onQuit evs s = Some s' ->
  ConcInv T0 s'.
Proof.
  revert s. induction evs as [|ev r IH]; simpl; intros s H Hs.
  - inversion Hs; subst. exact H.
  - destruct (loop_step _ _ _ _ _ _ ev s) as [s1|] eqn:E; [|discriminate].
    apply (IH s1); [|exact Hs]. clear IH Hs.
    unfold loop_step in E. destruct (isSome (halted s)); [discriminate|].
    destruct ev; simpl in E;
      match type of E with
      | match ?x with _ => _ end = _ => destruct x as [[o ps]|] eqn:Et; [|discriminate]
      end;
      inversion E; subst; clear E;
      (apply pres_turn; [solve [auto] | intros; now apply conc_halted | clear Et; conc_prim]).
Qed.

End Concurrent.

End OrderedLoop.

(** What a run shows of the invariant of the sequential mode. *)
Lemma seq_observed (T : list Test) (s : State) :
  SeqBound T None s ->
  exists k,
    k <= List.length T
    /\ (0 < List.length T -> 0 < k)
    /\ initPlatforms (trace s) = map test_platform (firstn k T)
    /\ (forall j, S j < k -> In (TaskCallback j None) (trace s))
    /\ (k < List.length T ->
        forall e, In (TaskCallback (pred k) e) (trace s) ->
                  exists e', In (TaskCallback (pred k) (Some e')) (trace s)).
Proof.
  intros (k & [H1 H2 H3 H4 H5 H6 H7 H8 H9 H10] & _). exists k.
  split; [exact H4|]. split; [exact H5|]. split; [exact H3|]. split.
  - intros j Hj. apply in_taskCallbacks. now apply H9.
  - intros Hlt e Hin. apply in_taskCallbacks in Hin. apply H8 in Hin.
    destruct H10 as [(_ & Hk & Hcb) | (_ & _ & [Hn | [e' He']])].
    + apply Hcb in Hin. lia.
    + lia.
    + exists e'. now apply in_taskCallbacks.
Qed.

(** *** The two revisions *)

Lemma runTest_effect_index : TaskEffect IndexJs.runTest.
Proof.
  intros u s. unfold IndexJs.runTest, IndexJs.initKeepAlive, emit, request,
    set_keepAliveTimeoutId, setTimeout, when, bind, gets, modify, ret.
  destruct (keepAliveTimeoutId (vars s)); cbn -[initPlatforms taskCallbacks platformOf];
    rewrite ?initPlatforms_app, ?taskCallbacks_app; cbn [initPlatforms taskCallbacks];
    rewrite ?app_nil_r; repeat split; auto.
  intros k Hall. apply Forall_app. split; [exact Hall|].
  constructor; [|constructor]. unfold timerTask. simpl. discriminate.
Qed.

Lemma runTest_effect_part000 : TaskEffect Part000.runTest.
Proof.
  intros u s. unfold Part000.runTest, Part000.initKeepAlive, emit, request,
    set_keepAliveTimeoutId, setTimeout, when, bind, gets, modify, ret.
  destruct (keepAliveTimeoutId (vars s)); cbn -[initPlatforms taskCallbacks platformOf];
    rewrite ?initPlatforms_app, ?taskCallbacks_app; cbn [initPlatforms taskCallbacks];
    rewrite ?app_nil_r; repeat split; auto.
  intros k Hall. apply Forall_app. split; [exact Hall|].
  constructor; [|constructor]. unfold timerTask. simpl. discriminate.
Qed.

Lemma complete_effect_index : DoneEffect IndexJs.complete.
Proof.
  intros s. unfold IndexJs.complete, emit, request, bind, gets, modify.
  cbn -[initPlatforms taskCallbacks]. rewrite initPlatforms_app, taskCallbacks_app.
  cbn [initPlatforms taskCallbacks]. rewrite !app_nil_r. repeat split.
Qed.

Lemma complete_effect_part000 : DoneEffect Part000.complete.
Proof.
  intros s. unfold Part000.complete, emit, request, bind, gets, modify.
  cbn -[initPlatforms taskCallbacks]. rewrite initPlatforms_app, taskCallbacks_app.
  cbn [initPlatforms taskCallbacks]. rewrite !app_nil_r. repeat split.
Qed.

Lemma seq_cb_index (T : list Test) (t : TaskId) (e : option JsError) :
  pres (SeqBound T (Some t)) (IndexJs.cb t e).
Proof.
  apply (seq_taskCallback IndexJs.runTest IndexJs.complete
           runTest_effect_index complete_effect_index).
Qed.

Lemma seq_cb_part000 (T : list Test) (t : TaskId) (e : option JsError) :
  pres (SeqBound T (Some t)) (Part000.cb t e).
Proof.
  apply (seq_taskCallback Part000.runTest Part000.complete
           runTest_effect_part000 complete_effect_part000).
Qed.

Lemma conc_cb_index (T : list Test) (t : TaskId) (e : option JsError) :
  pres (ConcInv T) (IndexJs.cb t e).
Proof. apply (conc_taskCallback IndexJs.runTest IndexJs.complete T complete_effect_index). Qed.

Lemma conc_cb_part000 (T : list Test) (t : TaskId) (e : option JsError) :
  pres (ConcInv T) (Part000.cb t e).
Proof. apply (conc_taskCallback Part000.runTest Part000.complete T complete_effect_part000). Qed.
#[local] Hint Resolve seq_cb_index seq_cb_part000 conc_cb_index conc_cb_part000 : presdb.

(** Unfold the handlers of a revision down to the task callback. *)
Ltac unfold_index_order :=
  unfold IndexJs.onInit, IndexJs.onShowJob, IndexJs.onWait, IndexJs.onText,
    IndexJs.onTimer, IndexJs.onQuit, IndexJs.checkTestResults, IndexJs.readCallback,
    IndexJs.checkTestResultsDone, IndexJs.getElementText, IndexJs.pollSauceLabsStatus,
    IndexJs.testComplete, IndexJs.initKeepAlive, processExit,
    set_jobTimeoutId, set_sessionId, set_results, set_closure, set_allPlatformsPassed,
    set_keepAliveTimeoutId, clearTimeout, request, emit;
  simpl SELECTORS.

Ltac unfold_part000_order :=
  unfold Part000.onInit, Part000.onShowJob, Part000.onWait, Part000.onText,
    Part000.onTimer, Part000.onQuit, Part000.checkTestResults, Part000.readCallback,
    Part000.checkTestResultsDone, Part000.bumpRetryCount, Part000.getElementText,
    Part000.pollSauceLabsStatus, Part000.testComplete, Part000.initKeepAlive, processExit,
    set_jobTimeoutId, set_sessionId, set_results, set_closure, set_allPlatformsPassed,
    set_keepAliveTimeoutId, set_retryCount, clearTimeout, request, emit;
  simpl SELECTORS.

Lemma seq_handlers_index (T : list Test) :
  (forall t r, pres (SeqBound T (Some t)) (IndexJs.onInit t r))
  /\ (forall t r, pres (SeqBound T (Some t)) (IndexJs.onShowJob t r))
  /\ (forall t r, pres (SeqBound T (Some t)) (IndexJs.onWait t r))
  /\ (forall t r, pres (SeqBound T (Some t)) (IndexJs.onText t r))
  /\ pres (SeqBound T None) (IndexJs.onTimer KeepAliveTimer)
  /\ (forall t, pres (SeqBound T (Some t)) (IndexJs.onTimer (JobPollTimer t)))
  /\ pres (SeqBound T None) IndexJs.onQuit.
Proof.
  split; [|split; [|split; [|split; [|split; [|split]]]]]; intros; unfold_index_order;
    repeat match goal with
           | r : _ + _ |- _ => destruct r
           end;
    pres_walk seq_prim.
Qed.

Lemma seq_handlers_part000 (T : list Test) :
  (forall t r, pres (SeqBound T (Some t)) (Part000.onInit t r))
  /\ (forall t r, pres (SeqBound T (Some t)) (Part000.onShowJob t r))
  /\ (forall t r, pres (SeqBound T (Some t)) (Part000.onWait t r))
  /\ (forall t r, pres (SeqBound T (Some t)) (Part000.onText t r))
  /\ pres (SeqBound T None) (Part000.onTimer KeepAliveTimer)
  /\ (forall t, pres (SeqBound T (Some t)) (Part000.onTimer (JobPollTimer t)))
  /\ pres (SeqBound T None) Part000.onQuit.
Proof.
  split; [|split; [|split; [|split; [|split; [|split]]]]]; intros; unfold_part000_order;
    repeat match goal with
           | r : _ + _ |- _ => destruct r
           end;
    pres_walk seq_prim.
Qed.

Lemma conc_handlers_index (T : list Test) :
  (forall t r, pres (ConcInv T) (IndexJs.onInit t r))
  /\ (forall t r, pres (ConcInv T) (IndexJs.onShowJob t r))
  /\ (forall t r, pres (ConcInv T) (IndexJs.onWait t r))
  /\ (forall t r, pres (ConcInv T) (IndexJs.onText t r))
  /\ (forall k, pres (ConcInv T) (IndexJs.onTimer k))
  /\ pres (ConcInv T) IndexJs.onQuit.
Proof.
  split; [|split; [|split; [|split; [|split]]]]; intros; unfold_index_order;
    repeat match goal with
           | r : _ + _ |- _ => destruct r
           | k : TimerKind |- _ => destruct k
           end;
    pres_walk conc_prim.
Qed.

Lemma conc_handlers_part000 (T : list Test) :
  (forall t r, pres (ConcInv T) (Part000.onInit t r))
  /\ (forall t r, pres (ConcInv T) (Part000.onShowJob t r))
  /\ (forall t r, pres (ConcInv T) (Part000.onWait t r))
  /\ (forall t r, pres (ConcInv T) (Part000.onText t r))
  /\ (forall k, pres (ConcInv T) (Part000.onTimer k))
  /\ pres (ConcInv T) Part000.onQuit.
Proof.
  split; [|split; [|split; [|split; [|split]]]]; intros; unfold_part000_order;
    repeat match goal with
           | r : _ + _ |- _ => destruct r
           | k : TimerKind |- _ => destruct k
           end;
    pres_walk conc_prim.
Qed.

Lemma unstarted_at_entry (T : list Test) (f : Vars -> Vars) :
  Unstarted T (set_tests T (set_vars f initial)).
Proof. constructor; reflexivity. Qed.

Lemma seq_reachable_index (env : Env) (cfg : Config) (s : State) :
  truthy (runInSeries cfg) = true -> IndexJs.reachable env cfg s ->
  SeqBound (buildTests env cfg) None s.
Proof.
  intros Hm [evs Hevs].
  destruct (seq_handlers_index (buildTests env cfg)) as (H1 & H2 & H3 & H4 & H5 & H6 & H7).
  refine (seq_loop_steps _ _ _ _ _ _ _ H1 H2 H3 H4 H5 H6 H7 evs _ s _ Hevs).
  unfold IndexJs.launch, IndexJs.module_exports.
  rewrite turn_bind_gets. unfold set_allowZeroAssertions. rewrite !turn_bind_modify.
  rewrite Hm. unfold series.
  apply turn_snd; [intros; now apply seq_halted|].
  apply seq_start;
    [apply runTest_effect_index | apply complete_effect_index | apply unstarted_at_entry].
Qed.

Lemma conc_reachable_index (env : Env) (cfg : Config) (s : State) :
  truthy (runInSeries cfg) = false -> IndexJs.reachable env cfg s ->
  ConcInv (buildTests env cfg) s.
Proof.
  intros Hm [evs Hevs].
  destruct (conc_handlers_index (buildTests env cfg)) as (H1 & H2 & H3 & H4 & H5 & H6).
  refine (conc_loop_steps _ _ _ _ _ _ _ H1 H2 H3 H4 H5 H6 evs _ s _ Hevs).
  unfold IndexJs.launch, IndexJs.module_exports.
  rewrite turn_bind_gets. unfold set_allowZeroAssertions. rewrite !turn_bind_modify.
  rewrite Hm. unfold parallel.
  apply turn_snd; [intros; now apply conc_halted|].
  apply conc_start;
    [apply runTest_effect_index | apply complete_effect_index | apply unstarted_at_entry].
Qed.

Lemma seq_reachable_part000 (env : Env) (cfg : Config) (s : State) :
  truthy (runInParallel cfg) = false -> Part000.reachable env cfg s ->
  SeqBound (buildTests env cfg) None s.
Proof.
  intros Hm [evs Hevs].
  destruct (seq_handlers_part000 (buildTests env cfg)) as (H1 & H2 & H3 & H4 & H5 & H6 & H7).
  refine (seq_loop_steps _ _ _ _ _ _ _ H1 H2 H3 H4 H5 H6 H7 evs _ s _ Hevs).
  unfold Part000.launch, Part000.module_exports.
  rewrite turn_bind_gets. unfold set_allowZeroAssertions. rewrite !turn_bind_modify.
  rewrite Hm. unfold series.
  apply turn_snd; [intros; now apply seq_halted|].
  apply seq_start;
    [apply runTest_effect_part000 | apply complete_effect_part000 | apply unstarted_at_entry].
Qed.

Lemma conc_reachable_part000 (env : Env) (cfg : Config) (s : State) :
  truthy (runInParallel cfg) = true -> Part000.reachable env cfg s ->
  ConcInv (buildTests env cfg) s.
Proof.
  intros Hm [evs Hevs].
  destruct (conc_handlers_part000 (buildTests env cfg)) as (H1 & H2 & H3 & H4 & H5 & H6).
  refine (conc_loop_steps _ _ _ _ _ _ _ H1 H2 H3 H4 H5 H6 evs _ s _ Hevs).
  unfold Part000.launch, Part000.module_exports.
  rewrite turn_bind_gets. unfold set_allowZeroAssertions. rewrite !turn_bind_modify.
  rewrite Hm. unfold parallel.
  apply turn_snd; [intros; now apply conc_halted|].
  apply conc_start;
    [apply runTest_effect_part000 | apply complete_effect_part000 | apply unstarted_at_entry].
Qed.

Lemma truthy_flag (o : option bool) :
  (truthy o = true <-> o = Some true) /\ (truthy o = false <-> o <> Some true).
Proof. destruct o as [[|]|]; simpl; split; split; congruence. Qed.

(** C5, as the code has it: one option selects the mode and nothing else
    does. The retry revision runs all tasks at once exactly when
    [runInParallel] is true and one after another otherwise; index.js reads
    [runInSeries] instead, runs one after another exactly when that option
    is true, all at once otherwise, and never looks at [runInParallel]. In
    the concurrent mode every task is started, in list order, before the
    entry function returns, and none is started later. In the sequential
    mode only the first task is started by the entry function; throughout
    the run the tasks started are a prefix of the list, each started only
    once its predecessor has called back with [null], and the next one is
    held back only while the last one has not called back or after a
    callback that carried an error. *)
Theorem mode_selected_by_one_flag (env : Env) (cfg : Config) :
  let T := buildTests env cfg in
  let n := List.length T in
  (mode (coord (Part000.launch env cfg)) = Concurrent <-> runInParallel cfg = Some true)
  /\ (mode (coord (Part000.launch env cfg)) = Sequential <-> runInParallel cfg <> Some true)
  /\ pending (Part000.launch env cfg) = started (modePart000 cfg) n
  /\ (mode (coord (IndexJs.launch env cfg)) = Sequential <-> runInSeries cfg = Some true)
  /\ (mode (coord (IndexJs.launch env cfg)) = Concurrent <-> runInSeries cfg <> Some true)
  /\ pending (IndexJs.launch env cfg) = started (modeIndex cfg) n
  /\ (runInParallel cfg = Some true ->
      forall s, Part000.reachable env cfg s -> AllStarted T s)
  /\ (runInParallel cfg <> Some true ->
      forall s, Part000.reachable env cfg s -> OneAfterAnother T s)
  /\ (runInSeries cfg = Some true ->
      forall s, IndexJs.reachable env cfg s -> OneAfterAnother T s)
  /\ (runInSeries cfg <> Some true ->
      forall s, IndexJs.reachable env cfg s -> AllStarted T s).
Proof.
  intros T n.
  assert (HP : mode (coord (Part000.launch env cfg)) = modePart000 cfg
               /\ pending (Part000.launch env cfg) = started (modePart000 cfg) n).
  { unfold Part000.launch, Part000.module_exports, modePart000.
    rewrite turn_bind_gets. unfold set_allowZeroAssertions.
    rewrite !turn_bind_modify. unfold parallel, series.
    destruct (truthy (runInParallel cfg));
      apply (start_shape Part000.runTest Part000.complete);
      auto using runTest_starts_part000, complete_shape_part000. }
  assert (HI : mode (coord (IndexJs.launch env cfg)) = modeIndex cfg
               /\ pending (IndexJs.launch env cfg) = started (modeIndex cfg) n).
  { unfold IndexJs.launch, IndexJs.module_exports, modeIndex.
    rewrite turn_bind_gets. unfold set_allowZeroAssertions.
    rewrite !turn_bind_modify. unfold parallel, series.
    destruct (truthy (runInSeries cfg));
      apply (start_shape IndexJs.runTest IndexJs.complete);
      auto using runTest_starts_index, complete_shape_index. }
  destruct HP as [HPm HPp]. destruct HI as [HIm HIp].
  destruct (truthy_flag (runInParallel cfg)) as [HPt HPf].
  destruct (truthy_flag (runInSeries cfg)) as [HIt HIf].
  rewrite HPm, HIm. unfold modePart000, modeIndex in *.
  split; [|split; [|split; [|split; [|split; [|split; [|split; [|split; [|split]]]]]]]];
    try assumption;
    try (destruct (runInParallel cfg) as [[|]|]; simpl; split; intros; congruence);
    try (destruct (runInSeries cfg) as [[|]|]; simpl; split; intros; congruence).
  - intros Hf s Hr. apply HPt in Hf.
    exact (cc_inits T s (conc_reachable_part000 env cfg s Hf Hr)).
  - intros Hf s Hr. apply HPf in Hf.
    exact (seq_observed T s (seq_reachable_part000 env cfg s Hf Hr)).
  - intros Hf s Hr. apply HIt in Hf.
    exact (seq_observed T s (seq_reachable_index env cfg s Hf Hr)).
  - intros Hf s Hr. apply HIf in Hf.
    exact (cc_inits T s (conc_reachable_index env cfg s Hf Hr)).
Qed.

Lemma mode_selected_by_one_flag_witness :
  OneAfterAnother (buildTests sampleEnv cfgSeries) sampleSecondStarted
  /\ OneAfterAnother (buildTests sampleEnv cfgDefault) samplePart000SecondStarted
  /\ AllStarted (buildTests sampleEnv cfgDefault) (IndexJs.launch sampleEnv cfgDefault)
  /\ AllStarted (buildTests sampleEnv cfgParallel) (Part000.launch sampleEnv cfgParallel)
  /\ List.length (initPlatforms (trace (IndexJs.launch sampleEnv cfgSeries))) = 1
  /\ List.length (initPlatforms (trace sampleSecondStarted)) = 2
  /\ List.length (initPlatforms (trace (IndexJs.launch sampleEnv cfgDefault))) = 2.
Proof.
  destruct (mode_selected_by_one_flag sampleEnv cfgSeries)
    as (_ & _ & _ & _ & _ & _ & _ & _ & Hseq & _).
  destruct (mode_selected_by_one_flag sampleEnv cfgDefault)
    as (_ & _ & _ & _ & _ & _ & _ & Hpseq & _ & Hconc).
  destruct (mode_selected_by_one_flag sampleEnv cfgParallel)
    as (_ & _ & _ & _ & _ & _ & Hpconc & _).
  split; [|split; [|split; [|split; [|split; [|split]]]]].
  - apply Hseq; [reflexivity|]. exists (firstn 8 sampleEvents). vm_compute. reflexivity.
  - apply Hpseq; [discriminate|]. exists (firstn 8 sampleEvents). vm_compute. reflexivity.
  - apply Hconc; [discriminate|]. exists []. reflexivity.
  - apply Hpconc; [reflexivity|]. exists []. reflexivity.
  - vm_compute. reflexivity.
  - vm_compute. reflexivity.
  - vm_compute. reflexivity.
Defined.

(** C5, as worded, fails on index.js: with [runInParallel: false] and no
    [runInSeries], both platforms are started at once. *)
Lemma index_runs_concurrently_without_runInParallel :
  ~ (mode (coord (IndexJs.launch sampleEnv cfgNotParallel)) = Concurrent
     <-> runInParallel cfgNotParallel = Some true)
  /\ pending (IndexJs.launch sampleEnv cfgNotParallel) = [OpInit 0; OpInit 1].
Proof.
  split; [|reflexivity].
  intros [H _]. specialize (H eq_refl). discriminate H.
Qed.

(** ** The job status poller *)

Ltac norearm_prim :=
  idtac;
  match goal with
  | H : NoRearm _ _ _ |- NoRearm _ _ _ =>
      let x := fresh "x" in
      let Hin := fresh "Hin" in
      let Hk := fresh "Hk" in
      destruct H as [? ?]; split; state_simpl; intros x Hin Hk;
      try (apply filter_In in Hin; destruct Hin as [Hin _]);
      try (apply in_app_or in Hin; destruct Hin as [Hin | [Hin | []]];
           [| subst x; discriminate Hk]);
      auto
  end.

Lemma norearm_setTimeout_keepAlive (t : TaskId) (s0 : State) (d : Z) :
  pres (NoRearm t s0) (setTimeout KeepAliveTimer d).
Proof. intros s H. unfold setTimeout. norearm_prim. Qed.
#[local] Hint Resolve norearm_setTimeout_keepAlive : presdb.

Lemma norearm_testComplete_index (t : TaskId) (s0 : State) (b : bool) :
  pres (NoRearm t s0) (IndexJs.testComplete t b).
Proof. unfold_index. pres_walk norearm_prim. Qed.

Lemma norearm_testComplete_part000 (t : TaskId) (s0 : State) (b : bool) :
  pres (NoRearm t s0) (Part000.testComplete t b).
Proof. unfold_part000. pres_walk norearm_prim. Qed.

Lemma norearm_refl (t : TaskId) (s : State) : NoRearm t s s.
Proof. split; auto. Qed.

Lemma norearm_turn (t : TaskId) (s0 s : State) (m : M unit) :
  pres (NoRearm t s0) m -> NoRearm t s0 s -> NoRearm t s0 (turn m s).
Proof. intros Hm H. apply pres_turn; [exact Hm | | exact H]. intros s' h H'. exact H'. Qed.

Lemma poller_index : PollerBehaviour IndexJs.onShowJob IndexJs.onTimer IndexJs.statusPollingInterval.
Proof.
  repeat split.
  - intros t err s. eexists. reflexivity.
  - rewrite trace_turn. unfold IndexJs.onShowJob. rewrite H.
    unfold emit. rewrite snd_bind_modify, testComplete_reports_index.
    state_simpl. rewrite statuses_app. simpl statuses. now rewrite app_nil_r.
  - apply norearm_turn; [|apply norearm_refl].
    unfold IndexJs.onShowJob. rewrite H. unfold emit.
    pres_walk norearm_prim.
  - apply norearm_turn; [|apply norearm_refl].
    unfold IndexJs.onShowJob. rewrite H. unfold emit.
    pres_walk norearm_prim.
  - intros t job s H. unfold IndexJs.onShowJob. rewrite H. reflexivity.
Qed.

Lemma poller_part000 : PollerBehaviour Part000.onShowJob Part000.onTimer Part000.statusPollingInterval.
Proof.
  repeat split.
  - intros t err s. eexists. reflexivity.
  - rewrite trace_turn. unfold Part000.onShowJob. rewrite H.
    rewrite snd_bind_gets. unfold emit. rewrite snd_bind_modify, testComplete_reports_part000.
    state_simpl. rewrite statuses_app. simpl statuses. now rewrite app_nil_r.
  - apply norearm_turn; [|apply norearm_refl].
    unfold Part000.onShowJob. rewrite H. unfold emit.
    pres_walk norearm_prim.
  - apply norearm_turn; [|apply norearm_refl].
    unfold Part000.onShowJob. rewrite H. unfold emit.
    pres_walk norearm_prim.
  - intros t job s H. unfold Part000.onShowJob. rewrite H. reflexivity.
Qed.

(** C6, as the code has it, in index.js and in the retry revision: a failed
    status query is logged and changes nothing else, so the run is not
    failed and no further query is armed; a job that reports an error
    yields the outcome false and no further poll; a job that reports none
    yields a tick and a timer that, after the polling interval, issues the
    same query again. *)
Theorem poller_behaviour :
  PollerBehaviour IndexJs.onShowJob IndexJs.onTimer 10000
  /\ PollerBehaviour Part000.onShowJob Part000.onTimer 10000.
Proof. split; [apply poller_index | apply poller_part000]. Qed.

Lemma poller_behaviour_witness :
  statuses (trace (turn (IndexJs.onShowJob 0 (inr {| job_error := JStr "Test exceeded maximum duration" |}))
                     samplePolling)) = [false]
  /\ timers (turn (IndexJs.onShowJob 0 (inr noJobError)) samplePolling)
     = [{| timer_id := 1; timer_kind := JobPollTimer 0; timer_delay := 10000 |}].
Proof.
  destruct poller_behaviour as [(_ & Herr & Hok & _) _]. split.
  - destruct (Herr 0 {| job_error := JStr "Test exceeded maximum duration" |} samplePolling) as [H _].
    + reflexivity.
    + exact H.
  - rewrite (Hok 0 noJobError samplePolling); [vm_compute; reflexivity | reflexivity].
Defined.

(** C6, as worded, fails: after a failed status query no poll timer is
    scheduled and no query is in flight, while the run goes on. *)
Lemma poller_not_rearmed_after_query_error :
  IndexJs.reachable sampleEnv cfgDefault samplePolling
  /\ match IndexJs.step (ShowJobDone 0 (inl queryError)) samplePolling with
     | Some s' =>
         filter (isJobPoll 0) (timers s') = []
         /\ existsb (op_eqb (OpShowJob 0)) (pending s') = false
         /\ jobTimeoutId (closure 0 s') = None
         /\ halted s' = None
         /\ statuses (trace s') = []
     | None => False
     end.
Proof.
  split.
  - exists [InitDone 0 (inr "session-a")]. vm_compute. reflexivity.
  - vm_compute. repeat split.
Qed.

(** ** The stale element in the retry revision *)

(** C3 at the failing input: the text read of the first platform fails
    with a stale element. The task hands the error object to its completion
    callback, reports no outcome, and the coordinator ends the run at once:
    the second platform is never started and the process exits with 0. *)
Theorem stale_element_reaches_coordinator :
  Part000.reachable sampleEnv cfgDefault sampleStale
  /\ callbacksOf 0 (trace sampleStale) = [Some Part000.RETRY_ERROR]
  /\ statuses (trace sampleStale) = []
  /\ finished (coord sampleStale) = true
  /\ existsb isOpInit (pending sampleStale) = false
  /\ (exists s', Part000.step QuitDone sampleStale = Some s'
                 /\ halted s' = Some (Exited 0)
                 /\ statuses (trace s') = []).
Proof.
  split.
  - exists [InitDone 0 (inr "session-a"); ShowJobDone 0 (inr noJobError); WaitDone 0 (inr 1);
            TextDone 0 (inl staleError)].
    vm_compute. reflexivity.
  - do 4 (split; [vm_compute; reflexivity |]).
    eexists. split; [vm_compute; reflexivity | split; vm_compute; reflexivity].
Qed.

(** C4 at the failing input: the retry counter is 0, well under the
    ceiling, when the stale element occurs; yet no re-read is scheduled and
    none is in flight, no read of that platform can complete any more, and
    the final callback of the series, had it received the retry error,
    would have stopped at the unbound name. *)
Theorem stale_element_is_not_retried :
  retryCount (vars sampleReading) = 0
  /\ existsb (isReadOf 0) (pending sampleReading) = true
  /\ timers sampleStale = [{| timer_id := 1; timer_kind := JobPollTimer 0; timer_delay := 10000 |}]
  /\ existsb (isReadOf 0) (pending sampleStale) = false
  /\ retryCount (vars sampleStale) = 0
  /\ (forall r, Part000.step (WaitDone 0 r) sampleStale = None)
  /\ (forall r, Part000.step (TextDone 0 r) sampleStale = None)
  /\ halted (turn (Part000.checkTestResultsDone 0 (Some Part000.RETRY_ERROR)) sampleReading)
     = Some (Uncaught "ReferenceError: setTImeout is not defined")
  /\ timers (turn (Part000.checkTestResultsDone 0 (Some Part000.RETRY_ERROR)) sampleReading)
     = timers sampleReading.
Proof.
  do 5 (split; [vm_compute; reflexivity |]).
  split; [intros r; vm_compute; reflexivity |].
  split; [intros r; vm_compute; reflexivity |].
  split; vm_compute; reflexivity.
Qed.

(** In index.js a job error followed by the failure of the pending wait
    completes the same task twice: the guard of the task runner raises. *)
Lemma job_error_then_read_error_calls_back_twice :
  match IndexJs.steps [InitDone 0 (inr "session-a");
                       ShowJobDone 0 (inr {| job_error := JStr "Test exceeded maximum duration" |});
                       WaitDone 0 (inl queryError)]
          (IndexJs.launch sampleEnv cfgDefault) with
  | Some s =>
      callbacksOf 0 (trace s) = [None; None]
      /\ statuses (trace s) = [false; false]
      /\ halted s = Some (Uncaught "Error: Callback was already called.")
  | None => False
  end.
Proof. vm_compute. split; [reflexivity | split; reflexivity]. Qed.

(** In the retry revision the heartbeat variable is reset to [null] when the
    timer is cleared, so in a sequential run the second platform starts the
    heartbeat again after the first one has had its session. *)
Lemma part000_restarts_heartbeat :
  match Part000.steps (firstn 8 sampleEvents) (Part000.launch sampleEnv cfgDefault) with
  | Some s =>
      established s = true
      /\ heartbeats s = [{| timer_id := 2; timer_kind := KeepAliveTimer; timer_delay := 10000 |}]
      /\ pending s = [OpInit 1]
  | None => False
  end.
Proof. vm_compute. split; [reflexivity | split; reflexivity]. Qed.

(** * Further properties *)

(** ** The merged platform configuration *)

Lemma existsb_eqb_In (k : string) (l : list string) :
  existsb (String.eqb k) l = true <-> In k l.
Proof.
  rewrite existsb_exists. split.
  - intros [x [Hin E]]. apply String.eqb_eq in E. now subst.
  - intros Hin. exists k. split; [exact Hin | apply String.eqb_refl].
Qed.

(** X1: apart from [name], a property of the merged platform is the
    caller's when the caller gave one and the default otherwise. *)
Theorem processPlatform_overlay (e1 e2 t : JsVal) (p : Obj) (k : string) :
  wf_obj p -> k <> "name" ->
  get (processPlatform e1 e2 t p) k
  = if existsb (String.eqb k) (keys p) then get p k else get (PLATFORM_DEFAULTS e1 e2) k.
Proof.
  intros Hwf Hk. rewrite processPlatform_unfold.
  rewrite get_set_other by congruence.
  destruct (existsb (String.eqb k) (keys p)) eqn:E.
  - apply get_assign_present; [exact Hwf | now apply existsb_eqb_In].
  - apply get_assign_absent. intros Hin. apply existsb_eqb_In in Hin. congruence.
Qed.

Lemma processPlatform_overlay_witness :
  let p := [("browserName", JStr "firefox"); ("idleTimeout", JNum 90)] in
  get (processPlatform (JStr "77") JUndefined DEFAULT_TEST_NAME p) "idleTimeout" = JNum 90
  /\ get (processPlatform (JStr "77") JUndefined DEFAULT_TEST_NAME p) "maxDuration" = JNum 1800
  /\ get (processPlatform (JStr "77") JUndefined DEFAULT_TEST_NAME p) "build" = JStr "77".
Proof.
  assert (Hwf : wf_obj [("browserName", JStr "firefox"); ("idleTimeout", JNum 90)]).
  { unfold wf_obj. simpl.
    repeat (constructor; [simpl; intros H; repeat (destruct H as [H | H]; [discriminate H|]); exact H|]).
    constructor. }
  split; [|split].
  - rewrite (processPlatform_overlay _ _ _ _ "idleTimeout" Hwf); [reflexivity | discriminate].
  - rewrite (processPlatform_overlay _ _ _ _ "maxDuration" Hwf); [reflexivity | discriminate].
  - rewrite (processPlatform_overlay _ _ _ _ "build" Hwf); [reflexivity | discriminate].
Defined.

Lemma in_keys_set_iff (o : Obj) (k k' : string) (v : JsVal) :
  In k' (keys (set o k v)) <-> k' = k \/ In k' (keys o).
Proof.
  split; [apply in_keys_set|].
  induction o as [|[k0 v0] r IH]; simpl.
  - intros [-> | []]. now left.
  - destruct (k0 =? k) eqn:E; simpl.
    + apply String.eqb_eq in E. subst k0. intros [-> | [-> | H]]; auto.
    + intros [-> | [-> | H]]; auto.
Qed.

Lemma in_keys_assign_iff (s t : Obj) (k : string) :
  In k (keys (assign t s)) <-> In k (keys t) \/ In k (keys s).
Proof.
  unfold assign. revert t. induction s as [|[k' v] r IH]; simpl; intros t.
  - tauto.
  - rewrite IH, in_keys_set_iff. intuition (subst; auto).
Qed.

(** X2: the merged platform holds each of its keys once; they are the
    default keys, the caller's keys and [name]; and when no key of the
    descriptor is written with digits only (such a key may be an array
    index, which JavaScript lists first), the five default keys come first,
    in the order of the defaults. *)
Theorem processPlatform_keys (e1 e2 t : JsVal) (p : Obj) :
  wf_obj (processPlatform e1 e2 t p)
  /\ (forall k, In k (keys (processPlatform e1 e2 t p))
                <-> In k (keys (PLATFORM_DEFAULTS e1 e2)) \/ In k (keys p) \/ k = "name")
  /\ ((forall k, In k (keys p) -> digitsOnly k = false) ->
      firstn 5 (keys (processPlatform e1 e2 t p))
      = [ "maxDuration"; "commandTimeout"; "idleTimeout"; "build"; "tunnelIdentifier" ]).
Proof.
  rewrite processPlatform_unfold. split; [|split].
  - apply wf_set, wf_assign, defaults_wf.
  - intros k. rewrite in_keys_set_iff, in_keys_assign_iff. tauto.
  - intros _. destruct (keys_set (assign (PLATFORM_DEFAULTS e1 e2) p) "name" (JStr (displayName t p))) as [t1 H1].
    destruct (keys_assign p (PLATFORM_DEFAULTS e1 e2)) as [t2 H2].
    rewrite H1, H2. reflexivity.
Qed.

Lemma processPlatform_keys_witness :
  firstn 5 (keys (processPlatform (JStr "77") JUndefined DEFAULT_TEST_NAME
                    [("browserName", JStr "chrome"); ("build", JStr "local")]))
  = [ "maxDuration"; "commandTimeout"; "idleTimeout"; "build"; "tunnelIdentifier" ].
Proof.
  destruct (processPlatform_keys (JStr "77") JUndefined DEFAULT_TEST_NAME
              [("browserName", JStr "chrome"); ("build", JStr "local")]) as (_ & _ & H).
  apply H. intros k [<- | [<- | []]]; reflexivity.
Defined.

(** ** White space around the name *)

Lemma trimStart_no_leading (s : string) : startsWithSpace (trimStart s) = false.
Proof.
  induction s as [|c r IH]; simpl; [reflexivity|].
  destruct (isWhiteSpace c) eqn:E; simpl; [exact IH | exact E].
Qed.

Lemma trimEnd_no_trailing (s : string) : endsWithSpace (trimEnd s) = false.
Proof.
  induction s as [|c r IH]; simpl; [reflexivity|].
  destruct (trimEnd r) as [|d r'] eqn:E.
  - destruct (isWhiteSpace c) eqn:Ec; simpl; [reflexivity | exact Ec].
  - exact IH.
Qed.

Lemma trimEnd_keeps_start (s : string) :
  startsWithSpace s = false -> startsWithSpace (trimEnd s) = false.
Proof.
  destruct s as [|c r]; simpl; [reflexivity|]. intros Hc.
  destruct (trimEnd r); [rewrite Hc|]; simpl; exact Hc.
Qed.

Lemma trimStart_id (s : string) : startsWithSpace s = false -> trimStart s = s.
Proof. destruct s as [|c r]; simpl; [reflexivity|]. now intros ->. Qed.

Lemma trimEnd_id (s : string) : endsWithSpace s = false -> trimEnd s = s.
Proof.
  induction s as [|c r IH]; [reflexivity|].
  destruct r as [|d r'].
  - simpl. now intros ->.
  - intros H. change (endsWithSpace (String c (String d r'))) with (endsWithSpace (String d r')) in H.
    change (trimEnd (String c (String d r')))
      with (match trimEnd (String d r') with
            | EmptyString => if isWhiteSpace c then EmptyString else String c EmptyString
            | r0 => String c r0
            end).
    now rewrite (IH H).
Qed.

Lemma trimEnd_app_space (a : string) : trimEnd (a ++ " ") = trimEnd a.
Proof.
  induction a as [|c r IH]; [reflexivity|].
  simpl. now rewrite IH.
Qed.

(** Trimming twice is trimming once. *)
Lemma trim_idempotent (s : string) : trim (trim s) = trim s.
Proof.
  unfold trim at 1.
  rewrite trimStart_id.
  - apply trimEnd_id, trimEnd_no_trailing.
  - apply trimEnd_keeps_start, trimStart_no_leading.
Qed.

(** X3: whatever the descriptor holds, the merged platform's name is the
    base name followed by a parenthesised text that neither begins nor ends
    with white space. *)
Theorem processPlatform_name_has_no_outer_space (e1 e2 t : JsVal) (p : Obj) :
  exists inner,
    get (processPlatform e1 e2 t p) "name" = JStr (ToString t ++ " (" ++ inner ++ ")")
    /\ startsWithSpace inner = false
    /\ endsWithSpace inner = false
    /\ trim inner = inner.
Proof.
  rewrite processPlatform_unfold, get_set_same. unfold displayName.
  eexists. split; [reflexivity | split; [|split]].
  - unfold trim. apply trimEnd_keeps_start, trimStart_no_leading.
  - unfold trim. apply trimEnd_no_trailing.
  - apply trim_idempotent.
Qed.

Lemma joinAll_spaced (vs : list string) :
  vs <> [] -> joinAll (map (fun v => v ++ " ") vs) = String.concat " " vs ++ " ".
Proof.
  induction vs as [|v r IH]; [congruence|]. intros _.
  destruct r as [|w r'].
  - simpl. now rewrite append_nil_r.
  - change (joinAll (map (fun v0 => v0 ++ " ") (v :: w :: r')))
      with ((v ++ " ") ++ joinAll (map (fun v0 => v0 ++ " ") (w :: r'))).
    rewrite IH by discriminate.
    change (String.concat " " (v :: w :: r')) with (v ++ " " ++ String.concat " " (w :: r')).
    now rewrite !append_assoc.
Qed.

Lemma startsWithSpace_app (a b : string) :
  a <> "" -> startsWithSpace (a ++ b) = startsWithSpace a.
Proof. destruct a; [congruence | reflexivity]. Qed.

Lemma endsWithSpace_app (a b : string) :
  b <> "" -> endsWithSpace (a ++ b) = endsWithSpace b.
Proof.
  intros Hb. induction a as [|c r IH]; [reflexivity|].
  simpl. destruct (r ++ b) eqn:E; [|exact IH].
  destruct r; simpl in E; [congruence | discriminate].
Qed.

Lemma concat_space_end (vs : list string) (d : string) :
  vs <> [] -> last vs d <> "" ->
  String.concat " " vs <> "" /\ endsWithSpace (String.concat " " vs) = endsWithSpace (last vs d).
Proof.
  induction vs as [|v r IH]; [congruence|]. intros _ Hlast.
  destruct r as [|w r'].
  - simpl in *. split; [exact Hlast | reflexivity].
  - change (last (v :: w :: r') d) with (last (w :: r') d) in *.
    destruct (IH ltac:(discriminate) Hlast) as [Hne Hend].
    change (String.concat " " (v :: w :: r')) with (v ++ " " ++ String.concat " " (w :: r')).
    split.
    + destruct v; simpl; discriminate.
    + rewrite endsWithSpace_app by (simpl; discriminate).
      rewrite <- Hend. apply (endsWithSpace_app " "). exact Hne.
Qed.

Lemma tidy_spec (s : string) :
  tidy s = true <-> s <> "" /\ startsWithSpace s = false /\ endsWithSpace s = false.
Proof.
  unfold tidy. rewrite !andb_true_iff, !negb_true_iff, String.eqb_neq. tauto.
Qed.

(** X4: when no naming field is truthy the name is the base name followed
    by empty parentheses; when the first contributing value and the last
    one are tidy, the name lists the contributing values in the fixed order,
    separated by single spaces. *)
Theorem processPlatform_name_joined (e1 e2 t : JsVal) (p : Obj) :
  (presentTexts p = [] ->
     get (processPlatform e1 e2 t p) "name" = JStr (ToString t ++ " ()"))
  /\ (forall first rest,
        presentTexts p = first :: rest ->
        tidy first = true -> tidy (last rest first) = true ->
        get (processPlatform e1 e2 t p) "name"
        = JStr (ToString t ++ " (" ++ String.concat " " (first :: rest) ++ ")")).
Proof.
  rewrite processPlatform_unfold, get_set_same. unfold displayName.
  assert (Hmap : map (fun f => ToString (get p f) ++ " ") (presentFields p)
                 = map (fun v => v ++ " ") (presentTexts p)).
  { unfold presentTexts. now rewrite map_map. }
  rewrite Hmap. split.
  - intros ->. reflexivity.
  - intros first rest -> Hfirst Hlast.
    apply tidy_spec in Hfirst. destruct Hfirst as (Hne & Hstart & _).
    apply tidy_spec in Hlast. destruct Hlast as (Hlne & _ & Hend).
    rewrite joinAll_spaced by discriminate.
    assert (Hl : last (first :: rest) first = last rest first).
    { destruct rest; reflexivity. }
    destruct (concat_space_end (first :: rest) first ltac:(discriminate)) as [Hcne Hcend].
    { now rewrite Hl. }
    rewrite Hl in Hcend.
    assert (Hcstart : startsWithSpace (String.concat " " (first :: rest)) = false).
    { destruct rest as [|w r'].
      - exact Hstart.
      - change (String.concat " " (first :: w :: r')) with (first ++ " " ++ String.concat " " (w :: r')).
        now rewrite startsWithSpace_app. }
    assert (Htrim : trim (String.concat " " (first :: rest) ++ " ")
                    = String.concat " " (first :: rest)).
    { unfold trim.
      rewrite trimStart_id by (rewrite startsWithSpace_app; assumption).
      rewrite trimEnd_app_space. apply trimEnd_id. now rewrite Hcend. }
    now rewrite Htrim.
Qed.

Lemma processPlatform_name_joined_witness :
  get (processPlatform (JStr "77") JUndefined DEFAULT_TEST_NAME
         [("version", JNum 11); ("platform", JStr "Windows 10"); ("browserName", JStr "internet explorer")])
      "name"
  = JStr "qunit tests (Windows 10 internet explorer 11)"
  /\ get (processPlatform (JStr "77") JUndefined (JStr "smoke") [("version", JStr "")]) "name"
     = JStr "smoke ()".
Proof.
  split.
  - destruct (processPlatform_name_joined (JStr "77") JUndefined DEFAULT_TEST_NAME
                [("version", JNum 11); ("platform", JStr "Windows 10");
                 ("browserName", JStr "internet explorer")]) as [_ H].
    apply (H "Windows 10" ["internet explorer"; "11"]); reflexivity.
  - destruct (processPlatform_name_joined (JStr "77") JUndefined (JStr "smoke")
                [("version", JStr "")]) as [H _].
    apply H. reflexivity.
Defined.

(** ** The task list *)

Lemma buildTests_length (env : Env) (cfg : Config) :
  List.length (buildTests env cfg)
  = list_sum (map (fun u => List.length (resolvedPlatforms cfg u)) (urls cfg)).
Proof.
  unfold buildTests. fold (resolvedPlatforms cfg).
  induction (urls cfg) as [|u r IH]; simpl; [reflexivity|].
  rewrite length_app, length_map, IH. reflexivity.
Qed.

(** X5: the entry function builds one test per URL and resolved platform:
    as many tests as the URLs have resolved platforms in all (URLs times
    default platforms when no URL has a list of its own, none for an empty
    URL list), and each test carries the URL of its test target and the
    platform merged under the target's name, or under the default name when
    the target has none. *)
Theorem buildTests_per_url_and_platform (env : Env) (cfg : Config) :
  List.length (buildTests env cfg)
  = list_sum (map (fun u => List.length (resolvedPlatforms cfg u)) (urls cfg))
  /\ ((forall u, In u (urls cfg) -> url_platforms u = None) ->
      List.length (buildTests env cfg) = List.length (urls cfg) * List.length (platforms cfg))
  /\ (forall tst, In tst (buildTests env cfg) <->
        exists u p,
          In u (urls cfg) /\ In p (resolvedPlatforms cfg u)
          /\ tst = {| test_url := url_url u;
                      test_platform :=
                        processPlatform (TRAVIS_JOB_ID env) (TRAVIS_JOB_NUMBER env)
                          (js_or (url_name u) DEFAULT_TEST_NAME) p |}).
Proof.
  split; [apply buildTests_length | split].
  - intros H. rewrite buildTests_length.
    induction (urls cfg) as [|u r IH]; simpl; [reflexivity|].
    unfold resolvedPlatforms at 1. rewrite (H u) by (now left).
    rewrite IH; [reflexivity|]. intros v Hv. apply H. now right.
  - intros tst. unfold buildTests. fold (resolvedPlatforms cfg).
    rewrite in_flat_map. split.
    + intros [u [Hu Hin]]. apply in_map_iff in Hin. destruct Hin as [p [E Hp]].
      exists u, p. repeat split; auto.
    + intros (u & p & Hu & Hp & ->). exists u. split; [exact Hu|].
      apply in_map_iff. exists p. split; [reflexivity | exact Hp].
Qed.

Lemma buildTests_per_url_and_platform_witness :
  List.length (buildTests sampleEnv cfgDefault) = 1 * 2.
Proof.
  destruct (buildTests_per_url_and_platform sampleEnv cfgDefault) as (_ & H & _).
  apply H. intros u [<- | []]. reflexivity.
Defined.

(** ** The first revision's [processPlatform] *)

Lemma dashedName_ext (t : JsVal) (p q : Obj) :
  (forall f, In f NAME_FIELDS -> get p f = get q f) -> dashedName t p = dashedName t q.
Proof.
  intros H. unfold dashedName, presentFields.
  assert (E : forall l, (forall f, In f l -> get p f = get q f) ->
              map (fun f => ToString (get p f) ++ " ") (filter (fun f => ToBoolean (get p f)) l)
              = map (fun f => ToString (get q f) ++ " ") (filter (fun f => ToBoolean (get q f)) l)).
  { induction l as [|f r IH]; intros Hl; simpl; [reflexivity|].
    rewrite (Hl f) by (now left).
    destruct (ToBoolean (get q f)); simpl; rewrite ?(Hl f) by (now left);
      rewrite IH by (intros g Hg; apply Hl; now right); reflexivity. }
  now rewrite (E NAME_FIELDS H).
Qed.

Lemma part001_unfold (e1 e2 t : JsVal) (p : Obj) :
  Part001.processPlatform e1 e2 t p
  = set (assign (PLATFORM_DEFAULTS e1 e2) p) "name" (JStr (dashedName t p)).
Proof.
  unfold Part001.processPlatform.
  change (assign [] (PLATFORM_DEFAULTS e1 e2)) with (PLATFORM_DEFAULTS e1 e2).
  unfold assign at 1. simpl fold_left.
  f_equal. f_equal. unfold dashedName.
  rewrite !append_assoc. f_equal. f_equal.
  unfold presentFields, NAME_FIELDS, namePart. simpl filter.
  destruct (ToBoolean (get p "deviceName")), (ToBoolean (get p "platform")),
    (ToBoolean (get p "platformName")), (ToBoolean (get p "platformVersion")),
    (ToBoolean (get p "browserName")), (ToBoolean (get p "version"));
    cbn [map joinAll fold_right];
    rewrite ?append_nil_r; cbn [String.append]; rewrite ?append_nil_r, ?append_assoc;
    reflexivity.
Qed.

(** Overlaying the defaults, then the caller's fields, then a name computed
    from the naming fields, twice, is the same as doing it once. *)
Lemma overlay_idempotent (D : Obj) (nameOf : Obj -> JsVal) (p : Obj) :
  wf_obj p -> wf_obj D ->
  (forall f, In f NAME_FIELDS -> get D f = JUndefined) ->
  (forall q, (forall f, In f NAME_FIELDS -> get q f = get p f) -> nameOf q = nameOf p) ->
  set (assign D (set (assign D p) "name" (nameOf p))) "name"
      (nameOf (set (assign D p) "name" (nameOf p)))
  = set (assign D p) "name" (nameOf p).
Proof.
  intros Hwf HD Hlack Hname.
  set (merged := set (assign D p) "name" (nameOf p)).
  assert (Hfields : forall f, In f NAME_FIELDS -> get merged f = get p f).
  { intros f Hf. unfold merged. rewrite get_set_other.
    - apply get_assign_fresh; [exact Hwf | now apply Hlack].
    - unfold NAME_FIELDS in Hf. simpl in Hf.
      intros E. subst f. repeat (destruct Hf as [Hf | Hf]; [discriminate Hf|]). exact Hf. }
  rewrite (Hname merged Hfields).
  assert (Hwf' : wf_obj merged) by (apply wf_set, wf_assign, HD).
  assert (Hkeys : exists tail, keys merged = (keys D ++ tail)%list).
  { unfold merged.
    destruct (keys_set (assign D p) "name" (nameOf p)) as [t1 H1].
    destruct (keys_assign p D) as [t2 H2].
    exists (t2 ++ t1)%list. rewrite H1, H2. now rewrite app_assoc. }
  destruct Hkeys as [tail Hkeys].
  rewrite (assign_absorbs _ _ tail Hwf' Hkeys).
  apply set_set_same.
Qed.

Lemma dashedName_ends_with_space (t : JsVal) (p : Obj) :
  exists body, dashedName t p = body ++ " ".
Proof.
  unfold dashedName.
  destruct (presentFields p) as [|f r] eqn:E.
  - exists (ToString t ++ " -"). simpl. rewrite !append_assoc. reflexivity.
  - assert (Hj : forall l, l <> [] -> exists b,
                joinAll (map (fun f => ToString (get p f) ++ " ") l) = b ++ " ").
    { induction l as [|g l' IH]; [congruence|]. intros _.
      destruct l' as [|h l''].
      - exists (ToString (get p g)). simpl. now rewrite append_nil_r.
      - destruct (IH ltac:(discriminate)) as [b Hb].
        exists ((ToString (get p g) ++ " ") ++ b).
        change (joinAll (map (fun f => ToString (get p f) ++ " ") (g :: h :: l'')))
          with ((ToString (get p g) ++ " ")
                ++ joinAll (map (fun f => ToString (get p f) ++ " ") (h :: l''))).
        rewrite Hb. now rewrite !append_assoc. }
    destruct (Hj (f :: r) ltac:(discriminate)) as [b Hb].
    exists (ToString t ++ " - " ++ b). rewrite Hb. now rewrite !append_assoc.
Qed.

(** X6: in the first revision, for every descriptor, however its fields
    are ordered, the name is the base name, a dash, and each truthy naming
    field followed by one space, in the fixed order; it is not trimmed, so
    it always ends with a space. *)
Theorem part001_name_untrimmed (e1 e2 t : JsVal) (p p' : Obj) :
  wf_obj p -> Permutation p p' ->
  get (Part001.processPlatform e1 e2 t p') "name" = JStr (dashedName t p)
  /\ exists body, dashedName t p = body ++ " ".
Proof.
  intros Hwf Hperm. split; [|apply dashedName_ends_with_space].
  rewrite part001_unfold, get_set_same. f_equal.
  apply dashedName_ext. intros f _. symmetry. now apply get_permutation.
Qed.

Lemma part001_name_untrimmed_witness :
  get (Part001.processPlatform (JStr "77") JUndefined DEFAULT_TEST_NAME
         [("version", JStr "11"); ("browserName", JStr "firefox")]) "name"
  = JStr "qunit tests - firefox 11 ".
Proof.
  apply (part001_name_untrimmed (JStr "77") JUndefined DEFAULT_TEST_NAME
           [("browserName", JStr "firefox"); ("version", JStr "11")]).
  - unfold wf_obj. simpl.
    repeat (constructor; [simpl; intros H; repeat (destruct H as [H | H]; [discriminate H|]); exact H|]).
    constructor.
  - apply perm_swap.
Defined.

(** X7: the first revision's merge is idempotent too. *)
Theorem part001_processPlatform_idempotent (e1 e2 t : JsVal) (p : Obj) :
  wf_obj p ->
  Part001.processPlatform e1 e2 t (Part001.processPlatform e1 e2 t p)
  = Part001.processPlatform e1 e2 t p.
Proof.
  intros Hwf.
  rewrite (part001_unfold e1 e2 t (Part001.processPlatform e1 e2 t p)).
  rewrite part001_unfold.
  apply (overlay_idempotent (PLATFORM_DEFAULTS e1 e2) (fun q => JStr (dashedName t q)) p).
  - exact Hwf.
  - apply defaults_wf.
  - apply defaults_lack_name_fields.
  - intros q Hq. f_equal. now apply dashedName_ext.
Qed.

Lemma part001_processPlatform_idempotent_witness :
  let p := [("deviceName", JStr "iPhone 6"); ("name", JStr "mine"); ("build", JStr "local")] in
  Part001.processPlatform (JStr "77") JUndefined DEFAULT_TEST_NAME
    (Part001.processPlatform (JStr "77") JUndefined DEFAULT_TEST_NAME p)
  = Part001.processPlatform (JStr "77") JUndefined DEFAULT_TEST_NAME p.
Proof.
  apply (part001_processPlatform_idempotent (JStr "77") JUndefined DEFAULT_TEST_NAME).
  unfold wf_obj. simpl.
  repeat (constructor; [simpl; intros H; repeat (destruct H as [H | H]; [discriminate H|]); exact H|]).
  constructor.
Defined.

(** ** A run with nothing to test *)

Lemma launch_empty_index (env : Env) (cfg : Config) :
  buildTests env cfg = [] ->
  pending (IndexJs.launch env cfg) = [OpQuit]
  /\ halted (IndexJs.launch env cfg) = None
  /\ timers (IndexJs.launch env cfg) = []
  /\ trace (IndexJs.launch env cfg) = [ConsoleLog "All tests completed. Status: Passed."]
  /\ allPlatformsPassed (vars (IndexJs.launch env cfg)) = true.
Proof.
  intros H. unfold IndexJs.launch, IndexJs.module_exports. rewrite H.
  destruct (truthy (runInSeries cfg)); repeat split.
Qed.

Lemma launch_empty_part000 (env : Env) (cfg : Config) :
  buildTests env cfg = [] ->
  pending (Part000.launch env cfg) = [OpQuit]
  /\ halted (Part000.launch env cfg) = None
  /\ timers (Part000.launch env cfg) = []
  /\ trace (Part000.launch env cfg) = [ConsoleLog (nl ++ "All tests completed. Status: Passed.")]
  /\ allPlatformsPassed (vars (Part000.launch env cfg)) = true.
Proof.
  intros H. unfold Part000.launch, Part000.module_exports. rewrite H.
  destruct (truthy (runInParallel cfg)); repeat split.
Qed.

(** X8: when the configuration yields no test (no URL, or no platform for
    any URL), both revisions start no session and no heartbeat, log that all
    tests passed, and exit with code 0 as soon as the driver has quit. *)
Theorem empty_run_exits_zero (env : Env) (cfg : Config) :
  buildTests env cfg = [] ->
  (exists s, IndexJs.steps [QuitDone] (IndexJs.launch env cfg) = Some s
             /\ halted s = Some (Exited 0)
             /\ trace s = [ConsoleLog "All tests completed. Status: Passed."; ProcessExit 0])
  /\ (exists s, Part000.steps [QuitDone] (Part000.launch env cfg) = Some s
                /\ halted s = Some (Exited 0)
                /\ trace s = [ConsoleLog (nl ++ "All tests completed. Status: Passed."); ProcessExit 0])
  /\ timers (IndexJs.launch env cfg) = [] /\ pending (IndexJs.launch env cfg) = [OpQuit]
  /\ timers (Part000.launch env cfg) = [] /\ pending (Part000.launch env cfg) = [OpQuit].
Proof.
  intros H.
  destruct (launch_empty_index env cfg H) as (Hp & Hh & Ht & Htr & Ha).
  destruct (launch_empty_part000 env cfg H) as (Hp' & Hh' & Ht' & Htr' & Ha').
  split; [|split; [|repeat split; assumption]].
  - unfold IndexJs.steps, loop_steps, loop_step, loop_handle.
    rewrite Hh, Hp. simpl. eexists. split; [reflexivity|].
    unfold turn, IndexJs.onQuit, processExit. cbn [bind gets emit modify].
    state_simpl. rewrite Ha, Htr. split; reflexivity.
  - unfold Part000.steps, loop_steps, loop_step, loop_handle.
    rewrite Hh', Hp'. simpl. eexists. split; [reflexivity|].
    unfold turn, Part000.onQuit, processExit. cbn [bind gets emit modify].
    state_simpl. rewrite Ha', Htr'. split; reflexivity.
Qed.

Lemma empty_run_exits_zero_witness :
  exists s, IndexJs.steps [QuitDone]
              (IndexJs.launch sampleEnv
                 {| urls := sampleUrls; platforms := [];
                    zeroAssertionsPass := None; runInParallel := None; runInSeries := None |})
            = Some s
            /\ halted s = Some (Exited 0)
            /\ trace s = [ConsoleLog "All tests completed. Status: Passed."; ProcessExit 0].
Proof.
  destruct (empty_run_exits_zero sampleEnv
              {| urls := sampleUrls; platforms := [];
                 zeroAssertionsPass := None; runInParallel := None; runInSeries := None |})
    as [H _].
  - reflexivity.
  - exact H.
Defined.

(** ** The retry branch of the retry revision *)

Ltac retry_prim :=
  idtac;
  match goal with
  | H : RetryCountIs _ _ |- RetryCountIs _ _ => unfold RetryCountIs in *; state_simpl; exact H
  end.

Lemma retry_setTimeout (n : nat) (k : TimerKind) (d : Z) : pres (RetryCountIs n) (setTimeout k d).
Proof. intros s H. unfold setTimeout. retry_prim. Qed.
#[local] Hint Resolve retry_setTimeout : presdb.

Lemma retry_testComplete (n : nat) (t : TaskId) (b : bool) :
  pres (RetryCountIs n) (Part000.testComplete t b).
Proof.
  unfold Part000.testComplete, Part000.cb, Part000.complete, Part000.runTest,
    Part000.initKeepAlive, taskCallback, finish,
    set_jobTimeoutId, set_closure, set_allPlatformsPassed,
    set_keepAliveTimeoutId, clearTimeout, request, emit.
  pres_walk retry_prim.
Qed.
#[local] Hint Resolve retry_testComplete : presdb.

(** X9: in the retry revision the final callback of the reading, handed the
    retry error, always counts one more retry; while fewer than 10 have been
    counted it then stops at the unbound name, ending the process without
    scheduling a re-read or reporting an outcome; from the 10th on it
    reports the outcome false. *)
Theorem part000_retry_branch (t : TaskId) (s : State) :
  let s' := turn (Part000.checkTestResultsDone t (Some Part000.RETRY_ERROR)) s in
  retryCount (vars s') = S (retryCount (vars s))
  /\ (retryCount (vars s) < Part000.MAX_RETRIES ->
        halted s' = Some (Uncaught "ReferenceError: setTImeout is not defined")
        /\ timers s' = timers s /\ pending s' = pending s
        /\ statuses (trace s') = statuses (trace s))
  /\ (Part000.MAX_RETRIES <= retryCount (vars s) ->
        statuses (trace s') = (statuses (trace s) ++ [false])%list).
Proof.
  intros s'. subst s'. unfold Part000.checkTestResultsDone, Part000.RETRY_ERROR.
  cbn [Part000.isRetryError]. unfold Part000.bumpRetryCount, set_retryCount.
  destruct (retryCount (vars s) <? Part000.MAX_RETRIES)%nat eqn:E.
  - apply Nat.ltb_lt in E as Hlt.
    assert (Hturn : turn
      (retry <- (n <- gets (fun s0 => retryCount (vars s0));;
                 modify (set_vars (fun v =>
                   {| allPlatformsPassed := allPlatformsPassed v;
                      allowZeroAssertions := allowZeroAssertions v;
                      keepAliveTimeoutId := keepAliveTimeoutId v;
                      retryCount := S n |}));;
                 ret (n <? Part000.MAX_RETRIES)%nat);;
       (if retry
        then
          n <- gets (fun s0 => retryCount (vars s0));;
          emit (ConsoleLog ("StaleElementReference Error. Retrying. Retry Count: "
                              ++ ToString (JNum (Z.of_nat n)) ++ "."));;
          throw "ReferenceError: setTImeout is not defined"
        else
          name <- gets (platformNameOf t);;
          emit (ConsoleLog (nl ++ name ++ " test results Error: " ++ dq
                              ++ errorToString RetryObject ++ dq));;
          Part000.testComplete t false)) s
      = set_halted (Some (Uncaught "ReferenceError: setTImeout is not defined"))
          (set_trace (fun tr =>
             (tr ++ [ConsoleLog ("StaleElementReference Error. Retrying. Retry Count: "
                                   ++ ToString (JNum (Z.of_nat (S (retryCount (vars s))))) ++ ".")])%list)
             (set_vars (fun v =>
                {| allPlatformsPassed := allPlatformsPassed v;
                   allowZeroAssertions := allowZeroAssertions v;
                   keepAliveTimeoutId := keepAliveTimeoutId v;
                   retryCount := S (retryCount (vars s)) |}) s))).
    { unfold turn, bind, gets, modify, ret, emit, throw. rewrite E. reflexivity. }
    rewrite Hturn. state_simpl.
    split; [reflexivity | split].
    + intros _. rewrite statuses_app. simpl. rewrite app_nil_r. repeat split.
    + intros Hge. lia.
  - apply Nat.ltb_ge in E as Hge.
    rewrite trace_turn.
    assert (Hsnd : forall k : bool -> M unit,
              snd ((retry <- (n <- gets (fun s0 => retryCount (vars s0));;
                              modify (set_vars (fun v =>
                                {| allPlatformsPassed := allPlatformsPassed v;
                                   allowZeroAssertions := allowZeroAssertions v;
                                   keepAliveTimeoutId := keepAliveTimeoutId v;
                                   retryCount := S n |}));;
                              ret (n <? Part000.MAX_RETRIES)%nat);; k retry) s)
              = snd (k false
                       (set_vars (fun v =>
                          {| allPlatformsPassed := allPlatformsPassed v;
                             allowZeroAssertions := allowZeroAssertions v;
                             keepAliveTimeoutId := keepAliveTimeoutId v;
                             retryCount := S (retryCount (vars s)) |}) s))).
    { intros k. unfold bind at 1 2 3. unfold gets, modify, ret. rewrite E. reflexivity. }
    assert (Hstate : forall m : M unit, trace (turn m s) = trace (snd (m s))
                                        /\ retryCount (vars (turn m s)) = retryCount (vars (snd (m s)))).
    { intros m. unfold turn. destruct (m s) as [[a | msg] s1]; split; reflexivity. }
    split; [|split].
    + rewrite (proj2 (Hstate _)). rewrite Hsnd.
      match goal with
      | |- retryCount (vars (snd (?m ?s1))) = ?n =>
          assert (Hp : pres (RetryCountIs n) m)
            by (unfold emit; pres_walk retry_prim);
          apply (Hp s1)
      end.
      reflexivity.
    + intros Hlt. unfold Part000.MAX_RETRIES in *. lia.
    + intros _. rewrite Hsnd. rewrite snd_bind_gets. unfold emit. rewrite snd_bind_modify.
      rewrite testComplete_reports_part000. state_simpl.
      rewrite statuses_app. simpl statuses. now rewrite app_nil_r.
Qed.

(** ** Completing a task in index.js *)

Lemma allCallbacks_app (l l' : list Action) :
  allCallbacks (l ++ l') = (allCallbacks l ++ allCallbacks l')%list.
Proof.
  induction l as [|a l IH]; simpl; [reflexivity|].
  destruct a; simpl; now rewrite ?IH.
Qed.

Lemma quits_app (l l' : list Action) : quits (l ++ l') = quits l + quits l'.
Proof.
  induction l as [|a l IH]; simpl; [reflexivity|].
  destruct a; simpl; now rewrite ?IH.
Qed.

Ltac disc_prim :=
  idtac;
  match goal with
  | H : Disciplined _ |- Disciplined _ =>
      unfold Disciplined in *; state_simpl;
      rewrite ?allCallbacks_app, ?statuses_app, ?quits_app;
      simpl allCallbacks; simpl statuses; simpl quits;
      rewrite ?app_nil_r, ?Nat.add_0_r; exact H
  end.

Lemma disc_setTimeout (k : TimerKind) (d : Z) : pres Disciplined (setTimeout k d).
Proof. intros s H. unfold setTimeout. disc_prim. Qed.
#[local] Hint Resolve disc_setTimeout : presdb.

Lemma disc_testComplete (t : TaskId) (b : bool) : pres Disciplined (IndexJs.testComplete t b).
Proof.
  unfold IndexJs.testComplete.
  apply pres_bind; [apply pres_gets | intro j].
  apply pres_bind; [destruct j; unfold clearTimeout; pres_walk disc_prim | intros _].
  intros s (Hnone & Hlen & Hq).
  cbn [bind emit modify gets set_allPlatformsPassed].
  unfold IndexJs.cb, taskCallback. unfold emit at 1. rewrite snd_bind_modify.
  match goal with
  | |- Disciplined (snd (?rest ?s1)) =>
      assert (Hrest : pres Disciplined rest)
        by (unfold IndexJs.complete, IndexJs.runTest, IndexJs.initKeepAlive, finish,
              set_keepAliveTimeoutId, request, emit;
            pres_walk disc_prim);
      apply Hrest
  end.
  unfold Disciplined. state_simpl.
  rewrite !allCallbacks_app, !statuses_app, !quits_app. simpl.
  rewrite !app_nil_r, !length_app, !Nat.add_0_r. simpl.
  repeat split.
  - apply Forall_app. split; [exact Hnone | repeat constructor].
  - now rewrite Hlen.
  - now rewrite Hq.
Qed.
#[local] Hint Resolve disc_testComplete : presdb.

Lemma disc_handlers :
  (forall t r, pres Disciplined (IndexJs.onInit t r))
  /\ (forall t r, pres Disciplined (IndexJs.onShowJob t r))
  /\ (forall t r, pres Disciplined (IndexJs.onWait t r))
  /\ (forall t r, pres Disciplined (IndexJs.onText t r))
  /\ (forall k, pres Disciplined (IndexJs.onTimer k))
  /\ pres Disciplined IndexJs.onQuit.
Proof.
  repeat apply conj; intros;
    unfold IndexJs.onInit, IndexJs.onShowJob, IndexJs.onWait, IndexJs.onText,
      IndexJs.onTimer, IndexJs.onQuit, IndexJs.checkTestResults, IndexJs.readCallback,
      IndexJs.checkTestResultsDone, IndexJs.getElementText, IndexJs.pollSauceLabsStatus,
      IndexJs.initKeepAlive, processExit,
      set_jobTimeoutId, set_sessionId, set_results, set_closure,
      set_keepAliveTimeoutId, clearTimeout, request, emit;
    simpl SELECTORS;
    repeat match goal with
           | r : _ + _ |- _ => destruct r
           | k : TimerKind |- _ => destruct k
           end;
    pres_walk disc_prim.
Qed.

Lemma disc_launch (env : Env) (cfg : Config) : Disciplined (IndexJs.launch env cfg).
Proof.
  unfold IndexJs.launch. apply pres_turn.
  - unfold IndexJs.module_exports, parallel, series, start, finish, set_allowZeroAssertions,
      IndexJs.complete, request, emit.
    pres_walk disc_prim; apply pres_startAll; intro;
      unfold IndexJs.runTest, IndexJs.initKeepAlive, set_keepAliveTimeoutId, request, emit;
      pres_walk disc_prim.
  - intros s h H. exact H.
  - repeat split. constructor.
Qed.

(** X10: in every state a run of index.js can reach, each completion of a
    task has reported one outcome to the driver, closed the browser once
    and called the task's callback once, and every such callback was called
    with [null], never with an error. *)
Theorem index_completes_without_error (env : Env) (cfg : Config) (s : State) :
  IndexJs.reachable env cfg s ->
  Forall (fun e => e = None) (allCallbacks (trace s))
  /\ List.length (allCallbacks (trace s)) = List.length (statuses (trace s))
  /\ quits (trace s) = List.length (statuses (trace s)).
Proof.
  intros [evs Hevs].
  destruct disc_handlers as (H1 & H2 & H3 & H4 & H5 & H6).
  apply (steps_preserve Disciplined H1 H2 H3 H4 H5 H6) with (evs := evs)
                                                             (s := IndexJs.launch env cfg).
  - intros s0 o ps H _. exact H.
  - intros s0 id tm H _. exact H.
  - intros s0 h H. exact H.
  - apply disc_launch.
  - exact Hevs.
Qed.

Lemma index_completes_without_error_witness :
  allCallbacks (trace sampleFinal) = [None; None]
  /\ statuses (trace sampleFinal) = [true; false]
  /\ quits (trace sampleFinal) = 2.
Proof.
  destruct (index_completes_without_error sampleEnv cfgSeries sampleFinal) as (H1 & H2 & H3).
  - exists sampleEvents. vm_compute. reflexivity.
  - split; [vm_compute; reflexivity | split; [vm_compute; reflexivity | rewrite H3; vm_compute; reflexivity]].
Defined.

(** ** Failures of the session and of a read *)

Lemma navigations_app (l l' : list Action) :
  navigations (l ++ l') = (navigations l ++ navigations l')%list.
Proof.
  induction l as [|a l IH]; simpl; [reflexivity|].
  destruct a; simpl; now rewrite ?IH.
Qed.

Ltac quiet_prim :=
  idtac;
  match goal with
  | H : Quiet _ _ _ |- Quiet _ _ _ =>
      let x := fresh "x" in
      let Hin := fresh "Hin" in
      let Hk := fresh "Hk" in
      destruct H as (? & ? & ?); split; [|split]; state_simpl;
      [ intros x Hin Hk;
        try (apply in_app_or in Hin; destruct Hin as [Hin | [Hin | []]];
             [| subst x; destruct Hk as [Hk | Hk]; discriminate Hk]);
        auto
      | rewrite ?navigations_app; simpl navigations; rewrite ?app_nil_r; assumption
      | intros x Hin Hk;
        try (apply filter_In in Hin; destruct Hin as [Hin _]);
        try (apply in_app_or in Hin; destruct Hin as [Hin | [Hin | []]];
             [| subst x; discriminate Hk]);
        auto ]
  end.

Lemma quiet_setTimeout_keepAlive (t : TaskId) (s0 : State) (d : Z) :
  pres (Quiet t s0) (setTimeout KeepAliveTimer d).
Proof. intros s H. unfold setTimeout. quiet_prim. Qed.
#[local] Hint Resolve quiet_setTimeout_keepAlive : presdb.

Lemma quiet_refl (t : TaskId) (s : State) : Quiet t s s.
Proof. repeat split; auto. Qed.

Lemma quiet_turn (t : TaskId) (s0 s : State) (m : M unit) :
  pres (Quiet t s0) m -> Quiet t s0 s -> Quiet t s0 (turn m s).
Proof. intros Hm H. apply pres_turn; [exact Hm | | exact H]. intros s' h H'. exact H'. Qed.

Lemma quiet_testComplete_index (t : TaskId) (s0 : State) (b : bool) :
  pres (Quiet t s0) (IndexJs.testComplete t b).
Proof. unfold_index. pres_walk quiet_prim. Qed.

Lemma quiet_testComplete_part000 (t : TaskId) (s0 : State) (b : bool) :
  pres (Quiet t s0) (Part000.testComplete t b).
Proof. unfold_part000. pres_walk quiet_prim. Qed.
#[local] Hint Resolve quiet_testComplete_index quiet_testComplete_part000 : presdb.

(** X11: when [driver.init] fails, both revisions report the outcome false
    for that platform and do nothing else for it: no navigation, no status
    query, no read, no poll timer. *)
Theorem init_failure_reports_false (t : TaskId) (err : JsError) (s : State) :
  (statuses (trace (turn (IndexJs.onInit t (inl err)) s)) = (statuses (trace s) ++ [false])%list
   /\ Quiet t s (turn (IndexJs.onInit t (inl err)) s))
  /\ (statuses (trace (turn (Part000.onInit t (inl err)) s)) = (statuses (trace s) ++ [false])%list
      /\ Quiet t s (turn (Part000.onInit t (inl err)) s)).
Proof.
  split; split.
  - rewrite trace_turn. unfold IndexJs.onInit, emit.
    rewrite snd_bind_modify, testComplete_reports_index. state_simpl.
    rewrite statuses_app. simpl statuses. now rewrite app_nil_r.
  - apply quiet_turn; [|apply quiet_refl].
    unfold IndexJs.onInit, emit. pres_walk quiet_prim.
  - rewrite trace_turn. unfold Part000.onInit, emit.
    rewrite snd_bind_gets, snd_bind_modify, testComplete_reports_part000. state_simpl.
    rewrite statuses_app. simpl statuses. now rewrite app_nil_r.
  - apply quiet_turn; [|apply quiet_refl].
    unfold Part000.onInit, emit. pres_walk quiet_prim.
Qed.

(** X12: when a wait for a counter fails, or when reading its text fails
    (in the retry revision: with an error that is not a stale element and
    whose cause, if it has one, has a value), the reading stops there: the
    outcome false is reported and no further read of that platform is
    requested. In the retry revision a text error whose cause has no value
    ends the turn with an uncaught exception instead: nothing is logged,
    reported, requested or scheduled. *)
Theorem read_failure_reports_false (t : TaskId) (err : JsError) (s : State) :
  (statuses (trace (turn (IndexJs.onWait t (inl err)) s)) = (statuses (trace s) ++ [false])%list
   /\ Quiet t s (turn (IndexJs.onWait t (inl err)) s))
  /\ (statuses (trace (turn (IndexJs.onText t (inl err)) s)) = (statuses (trace s) ++ [false])%list
      /\ Quiet t s (turn (IndexJs.onText t (inl err)) s))
  /\ (err <> RetryObject ->
      statuses (trace (turn (Part000.onWait t (inl err)) s)) = (statuses (trace s) ++ [false])%list
      /\ Quiet t s (turn (Part000.onWait t (inl err)) s))
  /\ (err <> RetryObject -> Part000.causeLacksValue err = false ->
      Part000.isStaleElementReference err = false ->
      statuses (trace (turn (Part000.onText t (inl err)) s)) = (statuses (trace s) ++ [false])%list
      /\ Quiet t s (turn (Part000.onText t (inl err)) s))
  /\ (Part000.causeLacksValue err = true ->
      (exists msg, halted (turn (Part000.onText t (inl err)) s) = Some (Uncaught msg))
      /\ trace (turn (Part000.onText t (inl err)) s) = trace s
      /\ pending (turn (Part000.onText t (inl err)) s) = pending s
      /\ timers (turn (Part000.onText t (inl err)) s) = timers s).
Proof.
  split; [|split; [|split; [|split]]].
  - split.
    + rewrite trace_turn. unfold IndexJs.onWait, IndexJs.readCallback, IndexJs.checkTestResultsDone, emit.
      rewrite snd_bind_modify, testComplete_reports_index. state_simpl.
      rewrite statuses_app. simpl statuses. now rewrite app_nil_r.
    + apply quiet_turn; [|apply quiet_refl].
      unfold IndexJs.onWait, IndexJs.readCallback, IndexJs.checkTestResultsDone, emit.
      pres_walk quiet_prim.
  - split.
    + rewrite trace_turn. unfold IndexJs.onText, IndexJs.readCallback, IndexJs.checkTestResultsDone, emit.
      rewrite snd_bind_modify, testComplete_reports_index. state_simpl.
      rewrite statuses_app. simpl statuses. now rewrite app_nil_r.
    + apply quiet_turn; [|apply quiet_refl].
      unfold IndexJs.onText, IndexJs.readCallback, IndexJs.checkTestResultsDone, emit.
      pres_walk quiet_prim.
  - intros Hne.
    assert (Hre : Part000.isRetryError err = false) by (destruct err; [reflexivity .. | congruence]).
    split.
    + rewrite trace_turn. unfold Part000.onWait, Part000.readCallback, Part000.checkTestResultsDone, emit.
      rewrite Hre.
      rewrite snd_bind_modify, snd_bind_ret, snd_bind_gets, snd_bind_modify,
        testComplete_reports_part000. state_simpl.
      rewrite !statuses_app. simpl statuses. now rewrite !app_nil_r.
    + apply quiet_turn; [|apply quiet_refl].
      unfold Part000.onWait, Part000.readCallback, Part000.checkTestResultsDone, emit.
      rewrite Hre. pres_walk quiet_prim.
  - intros Hne Hbare Hstale.
    assert (Hre : Part000.isRetryError err = false) by (destruct err; [reflexivity .. | congruence]).
    split.
    + rewrite trace_turn. unfold Part000.onText. rewrite Hbare, Hstale.
      unfold Part000.readCallback, Part000.checkTestResultsDone, emit.
      rewrite Hre.
      rewrite snd_bind_ret, snd_bind_gets, snd_bind_modify,
        testComplete_reports_part000. state_simpl.
      rewrite !statuses_app. simpl statuses. now rewrite !app_nil_r.
    + apply quiet_turn; [|apply quiet_refl].
      unfold Part000.onText. rewrite Hbare, Hstale.
      unfold Part000.readCallback, Part000.checkTestResultsDone, emit.
      rewrite Hre. pres_walk quiet_prim.
  - intros Hbare. unfold Part000.onText. rewrite Hbare.
    unfold turn, throw. simpl. repeat split. eexists. reflexivity.
Qed.

Lemma read_failure_reports_false_witness :
  statuses (trace (turn (Part000.onText 0 (inl queryError)) sampleReading)) = [false]
  /\ (exists msg, halted (turn (Part000.onText 0 (inl bareError)) sampleReading)
                  = Some (Uncaught msg))
  /\ trace (turn (Part000.onText 0 (inl bareError)) sampleReading) = trace sampleReading.
Proof.
  destruct (read_failure_reports_false 0 queryError sampleReading) as (_ & _ & _ & H4 & _).
  destruct (read_failure_reports_false 0 bareError sampleReading) as (_ & _ & _ & _ & H5).
  destruct H4 as [Hst _]; [discriminate | reflexivity | reflexivity |].
  destruct (H5 eq_refl) as (Hh & Htr & _).
  split; [rewrite Hst; vm_compute; reflexivity | split; [exact Hh | exact Htr]].
Defined.

(** ** The order of the three reads *)

(** The state after the first five callbacks of a reading, in index.js and
    in the retry revision: the two texts are recorded and the three waits
    and two text reads have been requested in order. *)
Lemma readThree_index (t : TaskId) (a b : string) (s : State) :
  results (closure t (readThree IndexJs.checkTestResults IndexJs.onWait IndexJs.onText t a b s))
  = [a; b]
  /\ pending (readThree IndexJs.checkTestResults IndexJs.onWait IndexJs.onText t a b s)
     = (pending s ++ [OpWait t "#qunit-testresult .passed"; OpText t;
                      OpWait t "#qunit-testresult .failed"; OpText t;
                      OpWait t "#qunit-testresult .total"; OpText t])%list
  /\ trace (readThree IndexJs.checkTestResults IndexJs.onWait IndexJs.onText t a b s) = trace s
  /\ vars (readThree IndexJs.checkTestResults IndexJs.onWait IndexJs.onText t a b s) = vars s
  /\ timers (readThree IndexJs.checkTestResults IndexJs.onWait IndexJs.onText t a b s) = timers s
  /\ halted (readThree IndexJs.checkTestResults IndexJs.onWait IndexJs.onText t a b s) = halted s.
Proof.
  unfold readThree.
  assert (H1 : turn (IndexJs.checkTestResults t) s
               = set_pending (fun ps => (ps ++ [OpWait t "#qunit-testresult .passed"])%list)
                   (set_closures (updateClosure t (fun c =>
                      {| jobTimeoutId := jobTimeoutId c; sessionId := sessionId c; results := [] |})) s))
    by reflexivity.
  rewrite H1. clear H1.
  assert (H2 : forall s0 el, turn (IndexJs.onWait t (inr el)) s0
                             = set_pending (fun ps => (ps ++ [OpText t])%list) s0)
    by reflexivity.
  rewrite !H2.
  assert (H3 : forall s0 x rs sel,
             results (closure t s0) = rs ->
             nth_error SELECTORS (List.length (rs ++ [x])) = Some sel ->
             turn (IndexJs.onText t (inr x)) s0
             = set_pending (fun ps => (ps ++ [OpWait t sel])%list)
                 (set_closures (updateClosure t (fun c =>
                    {| jobTimeoutId := jobTimeoutId c; sessionId := sessionId c;
                       results := (rs ++ [x])%list |})) s0)).
  { intros s0 x rs sel Hrs Hsel.
    unfold turn, IndexJs.onText, IndexJs.readCallback, IndexJs.getElementText,
      set_results, set_closure, request, bind, gets, modify.
    rewrite Hrs, Hsel. reflexivity. }
  rewrite (H3 _ a [] "#qunit-testresult .failed");
    [| unfold closure; state_simpl; now rewrite lookup_update_same | reflexivity].
  rewrite (H3 _ b [a] "#qunit-testresult .total");
    [| unfold closure; state_simpl; now rewrite lookup_update_same | reflexivity].
  unfold closure. state_simpl.
  rewrite lookup_update_same. cbn [results].
  rewrite <- !app_assoc. repeat split.
Qed.

Lemma readThree_part000 (t : TaskId) (a b : string) (s : State) :
  results (closure t (readThree Part000.checkTestResults Part000.onWait Part000.onText t a b s))
  = [a; b]
  /\ pending (readThree Part000.checkTestResults Part000.onWait Part000.onText t a b s)
     = (pending s ++ [OpWait t "#qunit-testresult .passed"; OpText t;
                      OpWait t "#qunit-testresult .failed"; OpText t;
                      OpWait t "#qunit-testresult .total"; OpText t])%list
  /\ trace (readThree Part000.checkTestResults Part000.onWait Part000.onText t a b s) = trace s
  /\ vars (readThree Part000.checkTestResults Part000.onWait Part000.onText t a b s) = vars s
  /\ timers (readThree Part000.checkTestResults Part000.onWait Part000.onText t a b s) = timers s
  /\ halted (readThree Part000.checkTestResults Part000.onWait Part000.onText t a b s) = halted s.
Proof.
  unfold readThree.
  assert (H1 : turn (Part000.checkTestResults t) s
               = set_pending (fun ps => (ps ++ [OpWait t "#qunit-testresult .passed"])%list)
                   (set_closures (updateClosure t (fun c =>
                      {| jobTimeoutId := jobTimeoutId c; sessionId := sessionId c; results := [] |})) s))
    by reflexivity.
  rewrite H1. clear H1.
  assert (H2 : forall s0 el, turn (Part000.onWait t (inr el)) s0
                             = set_pending (fun ps => (ps ++ [OpText t])%list) s0)
    by reflexivity.
  rewrite !H2.
  assert (H3 : forall s0 x rs sel,
             results (closure t s0) = rs ->
             nth_error SELECTORS (List.length (rs ++ [x])) = Some sel ->
             turn (Part000.onText t (inr x)) s0
             = set_pending (fun ps => (ps ++ [OpWait t sel])%list)
                 (set_closures (updateClosure t (fun c =>
                    {| jobTimeoutId := jobTimeoutId c; sessionId := sessionId c;
                       results := (rs ++ [x])%list |})) s0)).
  { intros s0 x rs sel Hrs Hsel.
    unfold turn, Part000.onText, Part000.readCallback, Part000.getElementText,
      set_results, set_closure, request, bind, gets, modify.
    rewrite Hrs, Hsel. reflexivity. }
  rewrite (H3 _ a [] "#qunit-testresult .failed");
    [| unfold closure; state_simpl; now rewrite lookup_update_same | reflexivity].
  rewrite (H3 _ b [a] "#qunit-testresult .total");
    [| unfold closure; state_simpl; now rewrite lookup_update_same | reflexivity].
  unfold closure. state_simpl.
  rewrite lookup_update_same. cbn [results].
  rewrite <- !app_assoc. repeat split.
Qed.

(** X13: both revisions read the three counters one at a time and in the
    order passed, failed, total, each text read following its wait; nothing
    is reported before the third text arrives, and then the outcome is the
    verdict on the three texts. *)
Theorem counters_read_in_order (t : TaskId) (passed failed total : string) (s : State) :
  let verdict := allTestsPassed passed failed total (allowZeroAssertions (vars s)) in
  let reads := [OpWait t "#qunit-testresult .passed"; OpText t;
                OpWait t "#qunit-testresult .failed"; OpText t;
                OpWait t "#qunit-testresult .total"; OpText t] in
  let si := readThree IndexJs.checkTestResults IndexJs.onWait IndexJs.onText t passed failed s in
  let sp := readThree Part000.checkTestResults Part000.onWait Part000.onText t passed failed s in
  (pending si = (pending s ++ reads)%list /\ trace si = trace s
   /\ statuses (trace (turn (IndexJs.onText t (inr total)) si))
      = (statuses (trace s) ++ [verdict])%list)
  /\ (pending sp = (pending s ++ reads)%list /\ trace sp = trace s
      /\ statuses (trace (turn (Part000.onText t (inr total)) sp))
         = (statuses (trace s) ++ [verdict])%list).
Proof.
  intros verdict reads si sp.
  destruct (readThree_index t passed failed s) as (Hrs & Hp & Htr & Hv & _).
  destruct (readThree_part000 t passed failed s) as (Hrs' & Hp' & Htr' & Hv' & _).
  fold si in Hrs, Hp, Htr, Hv. fold sp in Hrs', Hp', Htr', Hv'.
  split; (split; [assumption | split; [assumption|]]).
  - rewrite trace_turn. unfold IndexJs.onText, IndexJs.readCallback.
    rewrite snd_bind_gets, Hrs. unfold set_results, set_closure. rewrite snd_bind_modify.
    cbn [List.length app nth_error SELECTORS].
    unfold IndexJs.checkTestResultsDone. rewrite !snd_bind_gets.
    unfold emit. rewrite snd_bind_modify, testComplete_reports_index.
    unfold closure. state_simpl. rewrite lookup_update_same. cbn [results nthResult nth].
    rewrite statuses_app, Htr, Hv. simpl statuses. now rewrite app_nil_r.
  - rewrite trace_turn. unfold Part000.onText, Part000.readCallback.
    rewrite snd_bind_gets, Hrs'. unfold set_results, set_closure. rewrite snd_bind_modify.
    cbn [List.length app nth_error SELECTORS].
    unfold Part000.checkTestResultsDone. rewrite !snd_bind_gets.
    unfold emit. rewrite snd_bind_modify, testComplete_reports_part000.
    unfold closure. state_simpl. rewrite lookup_update_same. cbn [results nthResult nth].
    rewrite statuses_app, Htr', Hv'. simpl statuses. now rewrite app_nil_r.
Qed.

(** ** The aggregate of the run in the retry revision *)

(** What one turn of the loop is made of. *)
Lemma loop_step_inv (onInit : TaskId -> JsError + string -> M unit)
    (onShowJob : TaskId -> JsError + Job -> M unit)
    (onWait : TaskId -> JsError + nat -> M unit)
    (onText : TaskId -> JsError + string -> M unit)
    (onTimer : TimerKind -> M unit) (onQuit : M unit)
    (ev : Event) (s s' : State) :
  loop_step onInit onShowJob onWait onText onTimer onQuit ev s = Some s' ->
  halted s = None
  /\ match ev with
     | InitDone t r =>
         exists o ps, take (op_eqb (OpInit t)) (pending s) = Some (o, ps)
                      /\ s' = turn (onInit t r) (set_pending (fun _ => ps) s)
     | ShowJobDone t r =>
         exists o ps, take (op_eqb (OpShowJob t)) (pending s) = Some (o, ps)
                      /\ s' = turn (onShowJob t r) (set_pending (fun _ => ps) s)
     | WaitDone t r =>
         exists o ps, In o (pending s)
                      /\ (forall x, In x ps -> In x (pending s))
                      /\ s' = turn (onWait t r) (set_pending (fun _ => ps) s)
     | TextDone t r =>
         exists o ps, take (op_eqb (OpText t)) (pending s) = Some (o, ps)
                      /\ s' = turn (onText t r) (set_pending (fun _ => ps) s)
     | TimerFired id =>
         exists tm ts, takeTimer id (timers s) = Some (tm, ts)
                       /\ s' = turn (onTimer (timer_kind tm)) (set_timers (fun _ => ts) s)
     | QuitDone =>
         exists o ps, take (op_eqb OpQuit) (pending s) = Some (o, ps)
                      /\ s' = turn onQuit (set_pending (fun _ => ps) s)
     end.
Proof.
  unfold loop_step. intros H.
  destruct (halted s) eqn:Hh; simpl in H; [discriminate|]. split; [reflexivity|].
  destruct ev; simpl in H;
    match type of H with
    | match ?x with _ => _ end = _ => destruct x as [[o ps]|] eqn:Et; [|discriminate]
    end;
    inversion H; subst; clear H; try (exists o, ps; split; [reflexivity | reflexivity]).
  exists o, ps. apply take_spec in Et. destruct Et as (a & b & Hs & -> & _).
  rewrite Hs. repeat split.
  - apply in_or_app. right. now left.
  - intros x Hx. apply in_app_or in Hx. apply in_or_app. simpl. tauto.
Qed.

Lemma agg_testComplete_part000 (t : TaskId) (status : bool) :
  pres AggRunning (Part000.testComplete t status).
Proof.
  unfold Part000.testComplete.
  apply pres_bind; [apply pres_gets | intro j].
  apply pres_bind;
    [destruct j; unfold clearTimeout, set_jobTimeoutId, set_closure; pres_walk agg_prim | intros _].
  intros s [Hand Hrun].
  cbn [bind emit modify gets set_allPlatformsPassed].
  assert (Hcb : pres AggRunning (Part000.cb t None)).
  { unfold Part000.cb, Part000.complete, Part000.runTest, Part000.initKeepAlive,
      taskCallback, finish, set_keepAliveTimeoutId, request, emit.
    pres_walk agg_prim. }
  apply Hcb. split; state_simpl; [| exact Hrun].
  rewrite !statuses_app. simpl statuses. rewrite app_nil_r, forallb_id_snoc.
  now rewrite Hand.
Qed.
#[local] Hint Resolve agg_testComplete_part000 : presdb.

Lemma agg_handlers_part000 :
  (forall t r, pres AggRunning (Part000.onInit t r))
  /\ (forall t r, pres AggRunning (Part000.onShowJob t r))
  /\ (forall t r, pres AggRunning (Part000.onWait t r))
  /\ (forall t r, pres AggRunning (Part000.onText t r))
  /\ (forall k, pres AggRunning (Part000.onTimer k)).
Proof.
  repeat apply conj; intros;
    unfold Part000.onInit, Part000.onShowJob, Part000.onWait, Part000.onText,
      Part000.onTimer, Part000.checkTestResults, Part000.readCallback,
      Part000.checkTestResultsDone, Part000.getElementText, Part000.pollSauceLabsStatus,
      Part000.cb, Part000.complete, Part000.runTest,
      Part000.initKeepAlive, Part000.bumpRetryCount, taskCallback, finish,
      set_jobTimeoutId, set_sessionId, set_results, set_closure,
      set_keepAliveTimeoutId, set_retryCount, clearTimeout, request, emit;
    simpl SELECTORS;
    repeat match goal with
           | r : _ + _ |- _ => destruct r
           | k : TimerKind |- _ => destruct k
           end;
    pres_walk agg_prim.
Qed.

Lemma agg_onQuit_part000 (s : State) : AggRunning s -> AggregateInv (turn Part000.onQuit s).
Proof.
  intros [Hand Hrun]. unfold turn, Part000.onQuit, processExit.
  cbn [bind emit modify gets]. constructor; state_simpl.
  - rewrite statuses_app. simpl statuses. now rewrite app_nil_r.
  - intros code Hc. inversion Hc; subst.
    rewrite statuses_app. simpl statuses. rewrite app_nil_r, <- Hand.
    unfold exitCode. reflexivity.
Qed.

Lemma agg_step_part000 (ev : Event) (s s' : State) :
  AggregateInv s -> Part000.step ev s = Some s' -> AggregateInv s'.
Proof.
  intros [Hand _] Hstep. apply loop_step_inv in Hstep. destruct Hstep as [Hh Hev].
  destruct agg_handlers_part000 as (H1 & H2 & H3 & H4 & H5).
  assert (Hrun : forall f, AggRunning (set_pending f s)) by (intros f; split; assumption).
  assert (Hrun' : forall f, AggRunning (set_timers f s)) by (intros f; split; assumption).
  destruct ev.
  - destruct Hev as (o & ps & _ & ->). apply agg_turn; [apply H1 | apply Hrun].
  - destruct Hev as (o & ps & _ & ->). apply agg_turn; [apply H2 | apply Hrun].
  - destruct Hev as (o & ps & _ & _ & ->). apply agg_turn; [apply H3 | apply Hrun].
  - destruct Hev as (o & ps & _ & ->). apply agg_turn; [apply H4 | apply Hrun].
  - destruct Hev as (tm & ts & _ & ->). apply agg_turn; [apply H5 | apply Hrun'].
  - destruct Hev as (o & ps & _ & ->). apply agg_onQuit_part000, Hrun.
Qed.

Lemma agg_launch_part000 (env : Env) (cfg : Config) : AggregateInv (Part000.launch env cfg).
Proof.
  apply agg_turn; [|split; reflexivity].
  unfold Part000.module_exports, parallel, series, start, finish, set_allowZeroAssertions,
    Part000.complete, request, emit.
  pres_walk agg_prim; apply pres_startAll; intro;
    unfold Part000.runTest, Part000.initKeepAlive, set_keepAliveTimeoutId, request, emit;
    pres_walk agg_prim.
Qed.

Lemma agg_reachable_part000 (env : Env) (cfg : Config) (s : State) :
  Part000.reachable env cfg s -> AggregateInv s.
Proof.
  intros [evs Hevs]. pose proof (agg_launch_part000 env cfg) as H0.
  revert H0 Hevs. generalize (Part000.launch env cfg) as s0.
  induction evs as [|ev r IH]; simpl; intros s0 H0 Hevs.
  - inversion Hevs; subst. exact H0.
  - unfold Part000.steps in Hevs. simpl in Hevs.
    destruct (loop_step _ _ _ _ _ _ ev s0) as [s1|] eqn:E; [|discriminate].
    apply (IH s1); [|exact Hevs]. eapply agg_step_part000; eauto.
Qed.

(** X14: in the retry revision too the aggregate is, in every reachable
    state, the conjunction of the outcomes reported so far, and the process
    exits with 0 when all of them are true and with 1 when one is false. *)
Theorem part000_aggregate_is_conjunction (env : Env) (cfg : Config) (s : State) :
  Part000.reachable env cfg s ->
  allPlatformsPassed (vars s) = forallb (fun b => b) (statuses (trace s))
  /\ (forall code, halted s = Some (Exited code) ->
        code = exitCode (forallb (fun b => b) (statuses (trace s)))).
Proof.
  intros Hr. destruct (agg_reachable_part000 env cfg s Hr) as [Hand Hexit]. now split.
Qed.

Lemma part000_aggregate_is_conjunction_witness :
  allPlatformsPassed (vars samplePart000Final) = false
  /\ statuses (trace samplePart000Final) = [true; false]
  /\ halted samplePart000Final = Some (Exited 1).
Proof.
  destruct (part000_aggregate_is_conjunction sampleEnv cfgDefault samplePart000Final)
    as [Hand Hexit].
  - exists sampleEvents. vm_compute. reflexivity.
  - assert (Hst : statuses (trace samplePart000Final) = [true; false])
      by (vm_compute; reflexivity).
    split; [rewrite Hand, Hst; reflexivity | split; [exact Hst|]].
    assert (Hh : exists code, halted samplePart000Final = Some (Exited code))
      by (eexists; vm_compute; reflexivity).
    destruct Hh as [code Hh]. rewrite Hh.
    rewrite (Hexit code Hh), Hst. reflexivity.
Defined.

(** ** The retry counter never moves *)

Ltac unfold_part000_retry :=
  unfold Part000.onInit, Part000.onShowJob, Part000.onWait, Part000.onText,
    Part000.onTimer, Part000.onQuit, Part000.checkTestResults, Part000.readCallback,
    Part000.checkTestResultsDone, Part000.getElementText, Part000.pollSauceLabsStatus,
    Part000.cb, Part000.complete, Part000.runTest,
    Part000.initKeepAlive, taskCallback, finish, processExit,
    set_jobTimeoutId, set_sessionId, set_results, set_closure,
    set_keepAliveTimeoutId, clearTimeout, request, emit;
  simpl SELECTORS; cbn [Part000.isRetryError].

Lemma retry_handlers :
  (forall t r, pres (RetryCountIs 0) (Part000.onInit t r))
  /\ (forall t r, pres (RetryCountIs 0) (Part000.onShowJob t r))
  /\ (forall t r, carriesRetryObject (WaitDone t r) = false ->
                  pres (RetryCountIs 0) (Part000.onWait t r))
  /\ (forall t r, carriesRetryObject (TextDone t r) = false ->
                  pres (RetryCountIs 0) (Part000.onText t r))
  /\ (forall k, pres (RetryCountIs 0) (Part000.onTimer k))
  /\ pres (RetryCountIs 0) Part000.onQuit.
Proof.
  repeat apply conj; intros;
    repeat match goal with
           | r : _ + _ |- _ => destruct r
           | k : TimerKind |- _ => destruct k
           | e : JsError |- _ => destruct e
           end;
    try discriminate;
    unfold_part000_retry; pres_walk retry_prim.
Qed.

Lemma retry_launch (env : Env) (cfg : Config) : RetryCountIs 0 (Part000.launch env cfg).
Proof.
  unfold Part000.launch. apply pres_turn.
  - unfold Part000.module_exports, parallel, series, start, set_allowZeroAssertions.
    unfold_part000_retry.
    pres_walk retry_prim; apply pres_startAll; intro; unfold_part000_retry; pres_walk retry_prim.
  - intros s h H. exact H.
  - reflexivity.
Qed.

(** X15: in the retry revision the retry counter stays at 0 throughout
    every run in which no callback is handed the module's own retry object:
    the retry branch is never entered and the budget of 10 is never drawn
    on. *)
Theorem part000_retry_counter_stays_zero (env : Env) (cfg : Config) (evs : list Event) (s : State) :
  Part000.steps evs (Part000.launch env cfg) = Some s ->
  forallb (fun ev => negb (carriesRetryObject ev)) evs = true ->
  retryCount (vars s) = 0.
Proof.
  intros Hevs Hclean. pose proof (retry_launch env cfg) as H0.
  revert H0 Hevs. generalize (Part000.launch env cfg) as s0.
  induction evs as [|ev r IH]; simpl; intros s0 H0 Hevs.
  - inversion Hevs; subst. exact H0.
  - simpl in Hclean. apply andb_true_iff in Hclean. destruct Hclean as [Hev Hclean].
    apply negb_true_iff in Hev.
    unfold Part000.steps in Hevs. simpl in Hevs.
    destruct (loop_step _ _ _ _ _ _ ev s0) as [s1|] eqn:E; [|discriminate].
    apply (IH Hclean s1); [|exact Hevs].
    apply loop_step_inv in E. destruct E as [_ E].
    destruct retry_handlers as (H1 & H2 & H3 & H4 & H5 & H6).
    assert (Hh : forall s' h, RetryCountIs 0 s' -> RetryCountIs 0 (set_halted h s'))
      by (intros s' h H; exact H).
    destruct ev.
    + destruct E as (o & ps & _ & ->). apply pres_turn; [apply H1 | exact Hh | exact H0].
    + destruct E as (o & ps & _ & ->). apply pres_turn; [apply H2 | exact Hh | exact H0].
    + destruct E as (o & ps & _ & _ & ->). apply pres_turn; [now apply H3 | exact Hh | exact H0].
    + destruct E as (o & ps & _ & ->). apply pres_turn; [now apply H4 | exact Hh | exact H0].
    + destruct E as (tm & ts & _ & ->). apply pres_turn; [apply H5 | exact Hh | exact H0].
    + destruct E as (o & ps & _ & ->). apply pres_turn; [apply H6 | exact Hh | exact H0].
Qed.

Lemma part000_retry_counter_stays_zero_witness : retryCount (vars sampleStale) = 0.
Proof.
  apply (part000_retry_counter_stays_zero sampleEnv cfgDefault
           [InitDone 0 (inr "session-a"); ShowJobDone 0 (inr noJobError); WaitDone 0 (inr 1);
            TextDone 0 (inl staleError)]).
  - vm_compute. reflexivity.
  - reflexivity.
Defined.

(** ** The heartbeat keeps beating until a session exists (index.js) *)

Lemma lookup_in_closures (t : TaskId) (cs : list (TaskId * Closure)) (id : TimerId) :
  jobTimeoutId (lookupClosure t cs) = Some id ->
  exists u c, In (u, c) cs /\ jobTimeoutId c = Some id.
Proof.
  induction cs as [|[u c] r IH]; simpl; [discriminate|].
  destruct (u =? t)%nat.
  - intros H. exists u, c. split; [now left | exact H].
  - intros H. destruct (IH H) as (v & d & Hin & Hd). exists v, d. split; [now right | exact Hd].
Qed.

Lemma Forall_updateClosure (P : TaskId * Closure -> Prop) (t : TaskId) (f : Closure -> Closure)
    (cs : list (TaskId * Closure)) :
  Forall P cs ->
  (forall u c, P (u, c) -> P (u, f c)) ->
  P (t, f emptyClosure) ->
  Forall P (updateClosure t f cs).
Proof.
  intros Hall Hf He. induction cs as [|[u c] r IH]; simpl.
  - repeat constructor. exact He.
  - inversion Hall as [|? ? Hc Hr]; subst.
    destruct (u =? t)%nat; constructor; auto.
Qed.

(** The part of the invariant that is about liveness only looks at the
    timers, the heartbeat variable, the remembered poll timers and the
    sessions. *)
Lemma live_frame (s s' : State) :
  timers s' = timers s ->
  nextTimerId s' = nextTimerId s ->
  keepAliveTimeoutId (vars s') = keepAliveTimeoutId (vars s) ->
  established s' = established s ->
  Forall (fun tc => forall id, jobTimeoutId (snd tc) = Some id ->
                      id < nextTimerId s /\ keepAliveTimeoutId (vars s) <> Some id)
         (closures s') ->
  HeartbeatLive s -> HeartbeatLive s'.
Proof.
  intros Ht Hn Hk He Hc [H1 H2 H3].
  constructor; unfold heartbeats in *; rewrite ?Ht, ?Hn, ?Hk, ?He; assumption.
Qed.

Ltac live_prim :=
  idtac;
  match goal with
  | H : LiveInv ?s |- LiveInv _ =>
      let Hhb := fresh "Hhb" in
      let Hlv := fresh "Hlv" in
      destruct H as [Hhb Hlv]; split;
      [ hb_prim
      | apply (live_frame s); [ .. | exact Hlv ]; unfold established; state_simpl;
        first [ reflexivity
              | apply established_update; reflexivity
              | exact (live_job s Hlv)
              | apply Forall_updateClosure;
                [ exact (live_job s Hlv)
                | intros ? ? ?; assumption
                | intros ? ?; discriminate ] ] ]
  end.

Lemma heartbeats_filter_other (ts : list Timer) (id k : TimerId) :
  Forall (fun tm => Some k = Some (timer_id tm)) (filter isKeepAlive ts) ->
  k <> id ->
  filter isKeepAlive (filter (fun tm => negb (timer_id tm =? id)%nat) ts) = filter isKeepAlive ts.
Proof.
  intros Hall Hne. induction ts as [|tm r IH]; simpl in *; [reflexivity|].
  destruct (isKeepAlive tm) eqn:Ek.
  - inversion Hall as [|? ? Hid Hr]; subst. inversion Hid; subst.
    destruct (timer_id tm =? id)%nat eqn:E; simpl.
    + apply Nat.eqb_eq in E. congruence.
    + rewrite Ek. now rewrite IH.
  - destruct (timer_id tm =? id)%nat; simpl; [|rewrite Ek]; now apply IH.
Qed.

Ltac liveonly_prim :=
  idtac;
  match goal with
  | H : HeartbeatLive ?s |- HeartbeatLive _ =>
      apply (live_frame s); [ .. | exact H ]; unfold established; state_simpl;
      first [ reflexivity
            | apply established_update; reflexivity
            | exact (live_job s H)
            | apply Forall_updateClosure;
              [ exact (live_job s H)
              | intros ? ? Hc; exact Hc
              | intros ? Hx; simpl in Hx; discriminate ] ]
  end.

Ltac liveinv_prim :=
  idtac;
  match goal with
  | H : LiveInv ?s |- LiveInv _ =>
      let Hhb := fresh "Hhb" in
      let Hlv := fresh "Hlv" in
      destruct H as [Hhb Hlv]; split; [ hb_prim | liveonly_prim ]
  end.

Lemma live_halted (s : State) (h : option Halt) : LiveInv s -> LiveInv (set_halted h s).
Proof. intros H. liveinv_prim. Qed.

(** Whenever [initKeepAlive] runs, a heartbeat is scheduled afterwards. *)
Lemma live_initKeepAlive (s : State) :
  Forall (fun tc => forall id, jobTimeoutId (snd tc) = Some id -> id < nextTimerId s) (closures s) ->
  HeartbeatLive (snd (IndexJs.initKeepAlive s)).
Proof.
  intros Hjob.
  unfold IndexJs.initKeepAlive, emit, set_keepAliveTimeoutId, setTimeout.
  cbn [bind modify]. unfold modify.
  constructor; unfold heartbeats, established; state_simpl.
  - eapply Forall_impl; [|exact Hjob]. simpl. intros tc H id Hid.
    specialize (H id Hid). split; [lia|]. intros E. inversion E. lia.
  - intros k E. inversion E. lia.
  - intros _ _. rewrite filter_app_single. simpl. intros E.
    apply app_eq_nil in E. destruct E as [_ E]. discriminate.
Qed.

Lemma live_job_weaken (s : State) :
  HeartbeatLive s ->
  Forall (fun tc => forall id, jobTimeoutId (snd tc) = Some id -> id < nextTimerId s) (closures s).
Proof.
  intros H. eapply Forall_impl; [|exact (live_job s H)]. simpl.
  intros tc Hc id Hid. now destruct (Hc id Hid).
Qed.

Lemma live_runTest (t : TaskId) : pres LiveInv (IndexJs.runTest t).
Proof.
  intros s [Hhb Hlv]. split; [now apply hb_runTest|].
  unfold IndexJs.runTest. rewrite snd_bind_gets.
  destruct (keepAliveTimeoutId (vars s)) as [id|] eqn:Hk; simpl negb; unfold when.
  - rewrite snd_bind_ret, snd_bind_gets. unfold emit, request.
    rewrite snd_bind_modify. unfold modify. simpl snd. liveonly_prim.
  - rewrite (snd_bind_returns IndexJs.initKeepAlive _ s tt eq_refl).
    rewrite snd_bind_gets. unfold emit, request.
    rewrite snd_bind_modify. unfold modify at 1. simpl snd.
    pose proof (live_initKeepAlive s (live_job_weaken s Hlv)) as Hnew.
    apply (live_frame (snd (IndexJs.initKeepAlive s)));
      [ reflexivity | reflexivity | reflexivity | reflexivity
      | exact (live_job _ Hnew) | exact Hnew ].
Qed.
#[local] Hint Resolve live_runTest : presdb.

(** Clearing the poll timer a task remembers leaves the heartbeat alone. *)
Lemma live_clear_job (t : TaskId) (id : TimerId) (s : State) :
  LiveInv s -> jobTimeoutId (closure t s) = Some id ->
  LiveInv (set_timers (filter (fun tm => negb (timer_id tm =? id)%nat)) s).
Proof.
  intros [Hhb Hlv] Hj. split; [exact (hb_clearTimeout id s Hhb)|].
  destruct Hlv as [L1 L2 L3].
  constructor; unfold heartbeats, established in *; state_simpl; auto.
  intros Hk He.
  destruct (keepAliveTimeoutId (vars s)) as [k|] eqn:Ek; [|congruence].
  rewrite (heartbeats_filter_other (timers s) id k).
  - now apply L3.
  - pose proof (hb_current s Hhb) as Hc. unfold heartbeats in Hc. now rewrite Ek in Hc.
  - unfold closure in Hj. apply lookup_in_closures in Hj.
    destruct Hj as (u & c & Hin & Hc).
    rewrite Forall_forall in L1. destruct (L1 (u, c) Hin id Hc) as [_ Hne].
    intros E. apply Hne. now rewrite E.
Qed.

Lemma live_testComplete (t : TaskId) (b : bool) : pres LiveInv (IndexJs.testComplete t b).
Proof.
  intros s H. unfold IndexJs.testComplete. rewrite snd_bind_gets.
  destruct (jobTimeoutId (closure t s)) as [id|] eqn:Ej.
  - unfold clearTimeout at 1. rewrite snd_bind_modify.
    match goal with
    | |- LiveInv (snd (?rest ?s1)) =>
        assert (Hrest : pres LiveInv rest)
          by (unfold_index_hb; pres_walk liveinv_prim);
        apply Hrest
    end.
    now apply (live_clear_job t).
  - rewrite snd_bind_ret.
    match goal with
    | |- LiveInv (snd (?rest ?s1)) =>
        assert (Hrest : pres LiveInv rest)
          by (unfold_index_hb; pres_walk liveinv_prim);
        apply Hrest
    end.
    exact H.
Qed.
#[local] Hint Resolve live_testComplete : presdb.

Lemma live_onShowJob (t : TaskId) (r : JsError + Job) : pres LiveInv (IndexJs.onShowJob t r).
Proof.
  destruct r as [err | job]; unfold IndexJs.onShowJob.
  - unfold emit. pres_walk liveinv_prim.
  - destruct (ToBoolean (job_error job)) eqn:Eb.
    + unfold emit. pres_walk liveinv_prim.
    + intros s [Hhb Hlv]. split.
      * pose proof (hb_onShowJob t (inr job) s Hhb) as H.
        unfold IndexJs.onShowJob in H. rewrite Eb in H. exact H.
      * destruct Hlv as [L1 L2 L3].
        unfold emit, setTimeout, set_jobTimeoutId, set_closure.
        cbn [bind modify]. unfold modify.
        constructor; unfold heartbeats, established in *; state_simpl.
        -- apply Forall_updateClosure.
           ++ eapply Forall_impl; [|exact L1]. simpl. intros tc H id Hid.
              destruct (H id Hid). split; [lia | assumption].
           ++ simpl. intros u c _ id Hid. inversion Hid; subst. split; [lia|].
              intros E. apply L2 in E. lia.
           ++ simpl. intros id Hid. inversion Hid; subst. split; [lia|].
              intros E. apply L2 in E. lia.
        -- intros k E. apply L2 in E. lia.
        -- rewrite filter_app_single. simpl. rewrite app_nil_r.
           rewrite established_update by reflexivity. exact L3.
Qed.

(** Unfold the readers of index.js down to [testComplete]. *)
Ltac unfold_index_readers :=
  unfold IndexJs.onWait, IndexJs.onText, IndexJs.readCallback,
    IndexJs.checkTestResultsDone, IndexJs.getElementText,
    set_results, set_closure, request, emit;
  simpl SELECTORS.

Lemma live_onWait (t : TaskId) (r : JsError + nat) : pres LiveInv (IndexJs.onWait t r).
Proof. unfold_index_readers. destruct r; pres_walk liveinv_prim. Qed.

Lemma live_onText (t : TaskId) (r : JsError + string) : pres LiveInv (IndexJs.onText t r).
Proof. unfold_index_readers. destruct r; pres_walk liveinv_prim. Qed.

Lemma live_onQuit : pres LiveInv IndexJs.onQuit.
Proof. unfold_index_hb. pres_walk liveinv_prim. Qed.

(** The callback of [driver.init]: a failure leaves the heartbeat beating;
    a session ends the obligation. *)
Lemma live_onInit (t : TaskId) (r : JsError + string) (s : State) :
  LiveInv s -> keepAliveTimeoutId (vars s) <> None ->
  LiveInv (snd (IndexJs.onInit t r s)).
Proof.
  intros H Hk. destruct r as [err | sid].
  - revert s H Hk. unfold IndexJs.onInit, emit.
    assert (Hp : pres LiveInv
                   (modify (set_trace (fun tr =>
                      (tr ++ [ConsoleLog ("Error calling driver.init: " ++ errorToString err)])%list));;
                    IndexJs.testComplete t false)) by pres_walk liveinv_prim.
    intros s H _. now apply Hp.
  - destruct H as [Hhb Hlv]. split; [now apply hb_onInit|].
    unfold IndexJs.onInit, set_sessionId, set_closure.
    rewrite snd_bind_modify, snd_bind_gets. state_simpl.
    destruct (keepAliveTimeoutId (vars s)) as [id|] eqn:Ek; [|congruence].
    unfold clearTimeout at 1. rewrite snd_bind_modify.
    match goal with
    | |- HeartbeatLive (snd (?rest ?s3)) =>
        assert (Hrest : pres HeartbeatLive rest)
          by (unfold_index_hb; pres_walk liveonly_prim);
        apply Hrest
    end.
    destruct Hlv as [L1 L2 L3].
    constructor; unfold heartbeats, established in *; state_simpl.
    + apply Forall_updateClosure.
      * exact L1.
      * intros u c Hc. exact Hc.
      * intros k Hx. simpl in Hx. discriminate.
    + exact L2.
    + intros _ He. rewrite established_set_session in He. discriminate.
Qed.

Lemma live_take_pending (s : State) (p : Op -> bool) (o : Op) (ps : list Op) :
  LiveInv s -> take p (pending s) = Some (o, ps) ->
  LiveInv (set_pending (fun _ => ps) s).
Proof.
  intros [Hhb Hlv] Ht. split; [now apply (hb_take_pending s p o)|]. liveonly_prim.
Qed.

(** A timer fires: a heartbeat re-arms itself, a poll timer leaves the
    heartbeat where it is. *)
Lemma live_onTimer (s : State) (id : TimerId) (tm : Timer) (ts : list Timer) :
  LiveInv s -> takeTimer id (timers s) = Some (tm, ts) ->
  LiveInv (snd (IndexJs.onTimer (timer_kind tm) (set_timers (fun _ => ts) s))).
Proof.
  intros [Hhb Hlv] Ht. split; [now apply (hb_onTimer s id)|].
  apply takeTimer_spec in Ht. destruct Ht as (a & b & Hs & -> & Hid).
  destruct (timer_kind tm) eqn:Ekind; simpl IndexJs.onTimer.
  - apply live_initKeepAlive. state_simpl. now apply live_job_weaken.
  - unfold IndexJs.pollSauceLabsStatus, request, modify. simpl snd.
    destruct Hlv as [L1 L2 L3].
    constructor; unfold heartbeats, established in *; state_simpl; auto.
    intros Hk He. specialize (L3 Hk He). rewrite Hs in L3.
    rewrite filter_app in *. simpl in L3.
    unfold isKeepAlive in L3 at 2. rewrite Ekind in L3. exact L3.
Qed.

Lemma live_step (ev : Event) (s s' : State) :
  LiveInv s -> IndexJs.step ev s = Some s' -> LiveInv s'.
Proof.
  intros H Hstep. unfold IndexJs.step, loop_step in Hstep.
  destruct (isSome (halted s)); [discriminate|].
  destruct ev; simpl in Hstep;
    match type of Hstep with
    | match ?x with _ => _ end = _ => destruct x as [[o ps]|] eqn:Et; [|discriminate]
    end;
    inversion Hstep; subst; clear Hstep.
  - apply turn_snd; [intros; now apply live_halted|].
    apply live_onInit; [eapply live_take_pending; eauto|].
    state_simpl. destruct H as [[_ _ _ _ H5] _]. apply H5. right.
    apply take_spec in Et. destruct Et as (a & b & -> & _ & Hp).
    rewrite existsb_app. simpl. destruct o; try discriminate. simpl. apply orb_true_r.
  - apply pres_turn; [apply live_onShowJob | intros; now apply live_halted |].
    eapply live_take_pending; eauto.
  - apply pres_turn; [apply live_onWait | intros; now apply live_halted |].
    eapply live_take_pending; eauto.
  - apply pres_turn; [apply live_onText | intros; now apply live_halted |].
    eapply live_take_pending; eauto.
  - apply turn_snd; [intros; now apply live_halted|].
    now apply (live_onTimer s id).
  - apply pres_turn; [apply live_onQuit | intros; now apply live_halted |].
    eapply live_take_pending; eauto.
Qed.

Lemma live_launch (env : Env) (cfg : Config) : LiveInv (IndexJs.launch env cfg).
Proof.
  unfold IndexJs.launch. apply pres_turn.
  - unfold IndexJs.module_exports, parallel, series, start. unfold_index_hb.
    pres_walk liveinv_prim. apply (pres_startAll LiveInv). intros t. apply live_runTest.
  - intros; now apply live_halted.
  - split; [|constructor; simpl].
    + constructor; unfold heartbeats, established; simpl.
      * constructor.
      * constructor.
      * constructor.
      * reflexivity.
      * intros [H | H]; discriminate.
    + constructor.
    + discriminate.
    + intros H. now elim H.
Qed.

Lemma live_reachable (env : Env) (cfg : Config) (s : State) :
  IndexJs.reachable env cfg s -> LiveInv s.
Proof.
  intros [evs Hevs]. pose proof (live_launch env cfg) as H0.
  revert H0 Hevs. generalize (IndexJs.launch env cfg) as s0.
  unfold IndexJs.steps.
  induction evs as [|ev r IH]; simpl; intros s0 H0 Hevs.
  - inversion Hevs; subst. exact H0.
  - destruct (loop_step _ _ _ _ _ _ ev s0) as [s1|] eqn:E; [|discriminate].
    apply (IH s1); [|exact Hevs]. eapply live_step; eauto.
Qed.

Ltac hbset_prim :=
  idtac;
  match goal with
  | H : HeartbeatSet _ |- HeartbeatSet _ =>
      unfold HeartbeatSet in *; state_simpl; first [ exact H | discriminate ]
  end.

Lemma hbset_setTimeout (k : TimerKind) (d : Z) : pres HeartbeatSet (setTimeout k d).
Proof. intros s H. unfold setTimeout. hbset_prim. Qed.
#[local] Hint Resolve hbset_setTimeout : presdb.

Ltac unfold_index_all :=
  unfold IndexJs.onTimer, IndexJs.runTest, IndexJs.initKeepAlive;
  unfold_index_hb;
  unfold IndexJs.runTest, IndexJs.initKeepAlive, set_keepAliveTimeoutId, set_sessionId,
    set_closure, clearTimeout, emit, request.

(** index.js never unsets [keepAliveTimeoutId]. *)
Lemma hbset_steps (evs : list Event) (s s' : State) :
  HeartbeatSet s -> IndexJs.steps evs s = Some s' -> HeartbeatSet s'.
Proof.
  apply (steps_preserve HeartbeatSet).
  - intros t r. unfold_index_all. destruct r; pres_walk hbset_prim.
  - intros t r. unfold_index_all. destruct r; pres_walk hbset_prim.
  - intros t r. unfold_index_all. destruct r; pres_walk hbset_prim.
  - intros t r. unfold_index_all. destruct r; pres_walk hbset_prim.
  - intros k. unfold_index_all. destruct k; pres_walk hbset_prim.
  - unfold_index_all. pres_walk hbset_prim.
  - intros s0 o ps H _. exact H.
  - intros s0 id tm H _. exact H.
  - intros s0 h H. exact H.
Qed.

Lemma launch_pending_index (env : Env) (cfg : Config) :
  pending (IndexJs.launch env cfg)
  = started (modeIndex cfg) (List.length (buildTests env cfg)).
Proof.
  unfold IndexJs.launch, IndexJs.module_exports, modeIndex.
  rewrite turn_bind_gets. unfold set_allowZeroAssertions.
  rewrite !turn_bind_modify. unfold parallel, series.
  destruct (truthy (runInSeries cfg));
    apply (start_shape IndexJs.runTest IndexJs.complete);
    auto using runTest_starts_index, complete_shape_index.
Qed.

Lemma hbset_launch (env : Env) (cfg : Config) :
  buildTests env cfg <> [] -> HeartbeatSet (IndexJs.launch env cfg).
Proof.
  intros Hne. apply (hb_started _ (hb_launch env cfg)). right.
  rewrite launch_pending_index.
  destruct (buildTests env cfg) as [|x r]; [congruence|].
  simpl List.length. unfold started. destruct (modeIndex cfg); reflexivity.
Qed.

(** X16: in index.js, once there is a test to run and until some platform
    has received its session, exactly one heartbeat timer is scheduled and
    [keepAliveTimeoutId] names it: neither a failed initialisation, nor a
    finished test, nor the heartbeat firing leaves the run without one. *)
Theorem heartbeat_beats_until_first_session (env : Env) (cfg : Config) (s : State) :
  buildTests env cfg <> [] ->
  IndexJs.reachable env cfg s ->
  established s = false ->
  exists tm, heartbeats s = [tm]
             /\ timer_kind tm = KeepAliveTimer
             /\ keepAliveTimeoutId (vars s) = Some (timer_id tm).
Proof.
  intros Hne Hr He.
  destruct (live_reachable env cfg s Hr) as [Hhb Hlv].
  assert (Hset : HeartbeatSet s).
  { destruct Hr as [evs Hevs]. eapply hbset_steps; [|exact Hevs]. now apply hbset_launch. }
  pose proof (live_beating s Hlv Hset He) as Hbeat.
  pose proof (hb_current s Hhb) as Hcur.
  destruct (keepAliveTimeoutId (vars s)) as [id|] eqn:Ek; [|now elim Hset].
  assert (Hlen : List.length (heartbeats s) <= 1).
  { apply (same_id_at_most_one (heartbeats s) id).
    - unfold heartbeats. apply timers_distinct_filter. exact (hb_distinct s Hhb).
    - eapply Forall_impl; [|exact Hcur]. simpl. intros tm E. now inversion E. }
  destruct (heartbeats s) as [|tm [|y r]] eqn:El; [congruence | | simpl in Hlen; lia].
  exists tm. split; [reflexivity|]. split.
  - assert (Hin : In tm (heartbeats s)) by (rewrite El; now left).
    apply filter_In in Hin. destruct Hin as [_ Hka].
    unfold isKeepAlive in Hka. destruct (timer_kind tm); [reflexivity | discriminate].
  - inversion Hcur; subst. assumption.
Qed.

Lemma heartbeat_beats_until_first_session_witness :
  exists tm, heartbeats sampleNoSession = [tm]
             /\ timer_kind tm = KeepAliveTimer
             /\ keepAliveTimeoutId (vars sampleNoSession) = Some (timer_id tm).
Proof.
  apply (heartbeat_beats_until_first_session sampleEnv cfgDefault).
  - vm_compute. discriminate.
  - exists [TimerFired 0; InitDone 0 (inl queryError)]. vm_compute. reflexivity.
  - vm_compute. reflexivity.
Defined.

(** ** The heartbeat of the retry revision *)

Lemma ka_frame (s s' : State) :
  timers s' = timers s ->
  nextTimerId s' = nextTimerId s ->
  keepAliveTimeoutId (vars s') = keepAliveTimeoutId (vars s) ->
  Forall (fun tc => forall id, jobTimeoutId (snd tc) = Some id ->
                      id < nextTimerId s /\ keepAliveTimeoutId (vars s) <> Some id)
         (closures s') ->
  KeepAliveInv s -> KeepAliveInv s'.
Proof.
  intros Ht Hn Hk Hc [H1 H2 H3 H4 H5].
  constructor; unfold heartbeats in *; rewrite ?Ht, ?Hn, ?Hk; assumption.
Qed.

Ltac ka_prim :=
  idtac;
  match goal with
  | H : KeepAliveInv ?s |- KeepAliveInv _ =>
      apply (ka_frame s); [ .. | exact H ]; state_simpl;
      first [ reflexivity
            | exact (ka_job s H)
            | apply Forall_updateClosure;
              [ exact (ka_job s H)
              | intros ? ? ?;
                first [ assumption
                      | let Hx := fresh "Hx" in intros ? Hx; simpl in Hx; discriminate ]
              | let Hx := fresh "Hx" in intros ? Hx; simpl in Hx; discriminate ] ]
  end.

Lemma ka_halted (s : State) (h : option Halt) : KeepAliveInv s -> KeepAliveInv (set_halted h s).
Proof. intros H. ka_prim. Qed.

Lemma heartbeats_keep (ts : list Timer) (id : TimerId) :
  Forall (fun tm => timer_id tm <> id) (filter isKeepAlive ts) ->
  filter isKeepAlive (filter (fun tm => negb (timer_id tm =? id)%nat) ts) = filter isKeepAlive ts.
Proof.
  intros Hall. induction ts as [|tm r IH]; simpl in *; [reflexivity|].
  destruct (isKeepAlive tm) eqn:Ek.
  - inversion Hall as [|? ? Hid Hr]; subst.
    apply Nat.eqb_neq in Hid. rewrite Hid. simpl. rewrite Ek. now rewrite IH.
  - destruct (timer_id tm =? id)%nat; simpl; [|rewrite Ek]; now apply IH.
Qed.

Lemma heartbeats_gone (ts : list Timer) (id : TimerId) :
  Forall (fun tm => timer_id tm = id) (filter isKeepAlive ts) ->
  filter isKeepAlive (filter (fun tm => negb (timer_id tm =? id)%nat) ts) = [].
Proof.
  intros Hall. induction ts as [|tm r IH]; simpl in *; [reflexivity|].
  destruct (isKeepAlive tm) eqn:Ek.
  - inversion Hall as [|? ? Hid Hr]; subst.
    rewrite Nat.eqb_refl. simpl. now apply IH.
  - destruct (timer_id tm =? id)%nat; simpl; [|rewrite Ek]; now apply IH.
Qed.

Lemma timers_fresh_filter (keep : Timer -> bool) (n : nat) (ts : list Timer) :
  Forall (fun tm => timer_id tm < n) ts -> Forall (fun tm => timer_id tm < n) (filter keep ts).
Proof.
  intros H. rewrite Forall_forall in *. intros tm Hin. apply H. apply filter_In in Hin. tauto.
Qed.

(** Clearing a timer that is not the heartbeat. *)
Lemma ka_clear_other (id : TimerId) (s : State) :
  KeepAliveInv s -> keepAliveTimeoutId (vars s) <> Some id ->
  KeepAliveInv (set_timers (filter (fun tm => negb (timer_id tm =? id)%nat)) s).
Proof.
  intros [H1 H2 H3 H4 H5] Hne.
  assert (Hsame : filter isKeepAlive (filter (fun tm => negb (timer_id tm =? id)%nat) (timers s))
                  = filter isKeepAlive (timers s)).
  { apply heartbeats_keep. unfold heartbeats in H3.
    eapply Forall_impl; [|exact H3]. simpl. intros tm E Hid. apply Hne. now rewrite E, Hid. }
  constructor; unfold heartbeats in *; state_simpl; rewrite ?Hsame; auto.
  - now apply timers_fresh_filter.
  - now apply timers_distinct_filter.
Qed.

(** Clearing the heartbeat and resetting the variable, as the callback of
    [driver.init] does. *)
Lemma ka_stop (id : TimerId) (s : State) :
  KeepAliveInv s -> keepAliveTimeoutId (vars s) = Some id ->
  KeepAliveInv (snd ((clearTimeout id;; set_keepAliveTimeoutId None) s)).
Proof.
  intros [H1 H2 H3 H4 H5] Hk.
  unfold clearTimeout, set_keepAliveTimeoutId. cbn [bind modify]. unfold modify.
  assert (Hnone : filter isKeepAlive (filter (fun tm => negb (timer_id tm =? id)%nat) (timers s)) = []).
  { apply heartbeats_gone. unfold heartbeats in H3.
    eapply Forall_impl; [|exact H3]. simpl. intros tm E. rewrite Hk in E. now inversion E. }
  constructor; unfold heartbeats in *; state_simpl; rewrite ?Hnone; auto.
  - now apply timers_fresh_filter.
  - now apply timers_distinct_filter.
  - eapply Forall_impl; [|exact H5]. simpl. intros tc H i Hi.
    destruct (H i Hi). split; [assumption | discriminate].
Qed.

(** Starting the heartbeat when none is scheduled. *)
Lemma ka_initKeepAlive (s : State) :
  Forall (fun tm => timer_id tm < nextTimerId s) (timers s) ->
  NoDup (map timer_id (timers s)) ->
  heartbeats s = [] ->
  Forall (fun tc => forall id, jobTimeoutId (snd tc) = Some id -> id < nextTimerId s) (closures s) ->
  KeepAliveInv (snd (Part000.initKeepAlive s)).
Proof.
  intros H1 H2 Hnone Hjob.
  unfold Part000.initKeepAlive, emit, set_keepAliveTimeoutId, setTimeout.
  cbn [bind modify]. unfold modify.
  constructor; unfold heartbeats in *; state_simpl.
  - apply Forall_app. split.
    + eapply Forall_impl; [|exact H1]. simpl. intros; lia.
    + constructor; [simpl; lia | constructor].
  - rewrite map_app. simpl. apply NoDup_app; [exact H2 | repeat constructor; intros [] |].
    intros x Hin [Hx | []]. subst x.
    apply in_map_iff in Hin. destruct Hin as [tm [E Hin]].
    rewrite Forall_forall in H1. specialize (H1 tm Hin). lia.
  - rewrite filter_app_single. simpl. rewrite Hnone. simpl. repeat constructor.
  - intros _. rewrite filter_app_single. simpl. rewrite Hnone. discriminate.
  - eapply Forall_impl; [|exact Hjob]. simpl. intros tc H i Hi.
    specialize (H i Hi). split; [lia|]. intros E. inversion E. lia.
Qed.

Lemma ka_job_weaken (s : State) :
  KeepAliveInv s ->
  Forall (fun tc => forall id, jobTimeoutId (snd tc) = Some id -> id < nextTimerId s) (closures s).
Proof.
  intros H. eapply Forall_impl; [|exact (ka_job s H)]. simpl.
  intros tc Hc id Hid. now destruct (Hc id Hid).
Qed.

Lemma ka_unset (s : State) :
  KeepAliveInv s -> keepAliveTimeoutId (vars s) = None -> heartbeats s = [].
Proof.
  intros H Hk. pose proof (ka_current s H) as Hc.
  destruct (heartbeats s) as [|tm r]; [reflexivity|].
  inversion Hc as [|? ? E _]; subst. rewrite Hk in E. discriminate.
Qed.

Lemma ka_runTest (t : TaskId) : pres KeepAliveInv (Part000.runTest t).
Proof.
  intros s H. unfold Part000.runTest. rewrite snd_bind_gets.
  destruct (keepAliveTimeoutId (vars s)) as [id|] eqn:Hk; simpl negb; unfold when.
  - rewrite snd_bind_ret, snd_bind_gets. unfold emit, request.
    rewrite snd_bind_modify. unfold modify. simpl snd. ka_prim.
  - rewrite (snd_bind_returns Part000.initKeepAlive _ s tt eq_refl).
    rewrite snd_bind_gets. unfold emit, request.
    rewrite snd_bind_modify. unfold modify at 1. simpl snd.
    pose proof (ka_initKeepAlive s (ka_fresh s H) (ka_distinct s H) (ka_unset s H Hk)
                  (ka_job_weaken s H)) as Hnew.
    apply (ka_frame (snd (Part000.initKeepAlive s)));
      [ reflexivity | reflexivity | reflexivity | exact (ka_job _ Hnew) | exact Hnew ].
Qed.
#[local] Hint Resolve ka_runTest : presdb.

Ltac unfold_part000_ka :=
  unfold Part000.onInit, Part000.onShowJob, Part000.onWait, Part000.onText, Part000.onQuit,
    Part000.checkTestResults, Part000.readCallback, Part000.checkTestResultsDone,
    Part000.bumpRetryCount, Part000.getElementText, Part000.pollSauceLabsStatus,
    Part000.cb, Part000.complete, taskCallback, finish, processExit,
    set_results, set_closure, set_allPlatformsPassed, set_allowZeroAssertions,
    set_retryCount, request, emit;
  simpl SELECTORS.

Lemma ka_testComplete (t : TaskId) (b : bool) : pres KeepAliveInv (Part000.testComplete t b).
Proof.
  intros s H. unfold Part000.testComplete. rewrite snd_bind_gets.
  assert (Hrest : pres KeepAliveInv
            (emit (DriverSauceJobStatus b);;
             emit DriverQuit;;
             passed <- gets (fun s => allPlatformsPassed (vars s));;
             set_allPlatformsPassed (passed && b);;
             Part000.cb t None))
    by (unfold_part000_ka; pres_walk ka_prim).
  destruct (jobTimeoutId (closure t s)) as [id|] eqn:Ej.
  - rewrite (snd_bind_returns (clearTimeout id;; set_jobTimeoutId t None) _ s tt eq_refl).
    apply Hrest.
    assert (Hc : KeepAliveInv (set_timers (filter (fun tm => negb (timer_id tm =? id)%nat)) s)).
    { apply ka_clear_other; [exact H|].
      unfold closure in Ej. apply lookup_in_closures in Ej.
      destruct Ej as (u & c & Hin & Hc).
      pose proof (ka_job s H) as Hjob. rewrite Forall_forall in Hjob.
      now destruct (Hjob (u, c) Hin id Hc). }
    unfold clearTimeout, set_jobTimeoutId, set_closure. cbn [bind modify]. unfold modify.
    simpl snd. clear H. ka_prim.
  - rewrite snd_bind_ret. now apply Hrest.
Qed.
#[local] Hint Resolve ka_testComplete : presdb.

Lemma ka_onShowJob (t : TaskId) (r : JsError + Job) : pres KeepAliveInv (Part000.onShowJob t r).
Proof.
  destruct r as [err | job]; unfold Part000.onShowJob.
  - unfold emit. pres_walk ka_prim.
  - destruct (ToBoolean (job_error job)) eqn:Eb.
    + unfold emit. pres_walk ka_prim.
    + intros s [H1 H2 H3 H4 H5].
      unfold emit, setTimeout, set_jobTimeoutId, set_closure.
      cbn [bind modify]. unfold modify.
      assert (Hka : forall k, keepAliveTimeoutId (vars s) = Some k -> k < nextTimerId s).
      { intros k Ek. assert (Hne : heartbeats s <> []) by (apply H4; rewrite Ek; discriminate).
        destruct (heartbeats s) as [|tm r] eqn:El; [congruence|].
        inversion H3 as [|? ? E _]; subst. rewrite Ek in E. inversion E; subst.
        assert (Hin : In tm (heartbeats s)) by (rewrite El; now left).
        apply filter_In in Hin. destruct Hin as [Hin _].
        rewrite Forall_forall in H1. now apply H1. }
      constructor; unfold heartbeats in *; state_simpl.
      * apply Forall_app. split.
        -- eapply Forall_impl; [|exact H1]. simpl. intros; lia.
        -- constructor; [simpl; lia | constructor].
      * rewrite map_app. simpl. apply NoDup_app; [exact H2 | repeat constructor; intros [] |].
        intros x Hin [Hx | []]. subst x.
        apply in_map_iff in Hin. destruct Hin as [tm [E Hin]].
        rewrite Forall_forall in H1. specialize (H1 tm Hin). lia.
      * rewrite filter_app_single. simpl. rewrite app_nil_r. exact H3.
      * rewrite filter_app_single. simpl. rewrite app_nil_r. exact H4.
      * apply Forall_updateClosure.
        -- eapply Forall_impl; [|exact H5]. simpl. intros tc H id Hid.
           destruct (H id Hid). split; [lia | assumption].
        -- simpl. intros u c _ id Hid. inversion Hid; subst. split; [lia|].
           intros E. apply Hka in E. lia.
        -- simpl. intros id Hid. inversion Hid; subst. split; [lia|].
           intros E. apply Hka in E. lia.
Qed.

Lemma ka_onWait (t : TaskId) (r : JsError + nat) : pres KeepAliveInv (Part000.onWait t r).
Proof. unfold_part000_ka. destruct r; pres_walk ka_prim. Qed.

Lemma ka_onText (t : TaskId) (r : JsError + string) : pres KeepAliveInv (Part000.onText t r).
Proof. unfold_part000_ka. destruct r; pres_walk ka_prim. Qed.

Lemma ka_onQuit : pres KeepAliveInv Part000.onQuit.
Proof. unfold_part000_ka. pres_walk ka_prim. Qed.

Lemma ka_onInit (t : TaskId) (r : JsError + string) : pres KeepAliveInv (Part000.onInit t r).
Proof.
  destruct r as [err | sid]; unfold Part000.onInit.
  - unfold emit. pres_walk ka_prim.
  - intros s H. unfold set_sessionId, set_closure.
    rewrite snd_bind_modify.
    match goal with
    | |- KeepAliveInv (snd (_ ?s1)) =>
        assert (Hs : KeepAliveInv s1) by ka_prim; revert Hs; generalize s1
    end.
    clear s H. intros s H. rewrite snd_bind_gets.
    assert (Hrest : pres KeepAliveInv
              (name <- gets (platformNameOf t);;
               emit (ConsoleLog (nl ++ name ++ " Job URL: https://saucelabs.com/jobs/" ++ sid));;
               url <- gets (urlOf t);;
               emit (DriverGet url);;
               Part000.pollSauceLabsStatus t;;
               Part000.checkTestResults t))
      by (unfold_part000_ka; pres_walk ka_prim).
    destruct (keepAliveTimeoutId (vars s)) as [id|] eqn:Ek.
    + rewrite (snd_bind_returns (clearTimeout id;; set_keepAliveTimeoutId None) _ s tt eq_refl).
      apply Hrest. now apply ka_stop.
    + rewrite snd_bind_ret. now apply Hrest.
Qed.

(** A timer fires: it leaves the schedule and its callback runs. *)
Lemma ka_onTimer (s : State) (id : TimerId) (tm : Timer) (ts : list Timer) :
  KeepAliveInv s -> takeTimer id (timers s) = Some (tm, ts) ->
  KeepAliveInv (snd (Part000.onTimer (timer_kind tm) (set_timers (fun _ => ts) s))).
Proof.
  intros H Ht. apply takeTimer_spec in Ht. destruct Ht as (a & b & Hs & -> & Hid).
  pose proof (ka_job_weaken s H) as Hjob.
  destruct H as [H1 H2 H3 H4 H5].
  assert (Hnd : NoDup (map timer_id (a ++ b))).
  { rewrite Hs, map_app in H2. simpl in H2.
    apply NoDup_remove_1 in H2. now rewrite map_app. }
  assert (Hsub : forall x, In x (a ++ b)%list -> In x (timers s)).
  { intros x Hin. rewrite Hs. apply in_app_or in Hin. apply in_or_app. simpl. tauto. }
  assert (Hfresh : Forall (fun x => timer_id x < nextTimerId s) (a ++ b)).
  { rewrite Forall_forall in *. intros x Hin. apply H1. now apply Hsub. }
  destruct (timer_kind tm) eqn:Ekind; simpl Part000.onTimer.
  - assert (Htm : In tm (heartbeats s)).
    { apply filter_In. split; [rewrite Hs; apply in_or_app; simpl; tauto|].
      unfold isKeepAlive. now rewrite Ekind. }
    assert (Hnone : filter isKeepAlive (a ++ b) = []).
    { destruct (filter isKeepAlive (a ++ b)) as [|x r] eqn:E; [reflexivity|]. exfalso.
      assert (Hx : In x (x :: r)) by now left.
      rewrite <- E in Hx. apply filter_In in Hx. destruct Hx as [Hx Hka].
      assert (Hxhb : In x (heartbeats s)) by (apply filter_In; split; [now apply Hsub | exact Hka]).
      rewrite Forall_forall in H3.
      pose proof (H3 x Hxhb) as E1. pose proof (H3 tm Htm) as E2.
      rewrite E1 in E2. inversion E2 as [E3].
      rewrite Hs, map_app in H2. simpl in H2. apply NoDup_remove_2 in H2.
      apply H2. rewrite <- map_app, <- E3. now apply in_map. }
    apply ka_initKeepAlive; state_simpl; assumption.
  - unfold Part000.pollSauceLabsStatus, request, modify. simpl snd.
    assert (Hsame : filter isKeepAlive (a ++ b) = filter isKeepAlive (timers s)).
    { assert (Ekf : isKeepAlive tm = false) by (unfold isKeepAlive; now rewrite Ekind).
      rewrite Hs, !filter_app. cbn [filter]. now rewrite Ekf. }
    constructor; unfold heartbeats in *; state_simpl; rewrite ?Hsame; auto.
Qed.

Lemma ka_step (ev : Event) (s s' : State) :
  KeepAliveInv s -> Part000.step ev s = Some s' -> KeepAliveInv s'.
Proof.
  intros H Hstep. apply loop_step_inv in Hstep. destruct Hstep as [_ Hev].
  assert (Hp : forall f, KeepAliveInv (set_pending f s)) by (intros f; ka_prim).
  destruct ev.
  - destruct Hev as (o & ps & _ & ->).
    apply pres_turn; [apply ka_onInit | intros; now apply ka_halted | apply Hp].
  - destruct Hev as (o & ps & _ & ->).
    apply pres_turn; [apply ka_onShowJob | intros; now apply ka_halted | apply Hp].
  - destruct Hev as (o & ps & _ & _ & ->).
    apply pres_turn; [apply ka_onWait | intros; now apply ka_halted | apply Hp].
  - destruct Hev as (o & ps & _ & ->).
    apply pres_turn; [apply ka_onText | intros; now apply ka_halted | apply Hp].
  - destruct Hev as (tm & ts & Ht & ->).
    apply turn_snd; [intros; now apply ka_halted|]. now apply (ka_onTimer s id).
  - destruct Hev as (o & ps & _ & ->).
    apply pres_turn; [apply ka_onQuit | intros; now apply ka_halted | apply Hp].
Qed.

Lemma ka_launch (env : Env) (cfg : Config) : KeepAliveInv (Part000.launch env cfg).
Proof.
  unfold Part000.launch. apply pres_turn.
  - unfold Part000.module_exports, parallel, series, start. unfold_part000_ka.
    pres_walk ka_prim; apply (pres_startAll KeepAliveInv); intros t; apply ka_runTest.
  - intros; now apply ka_halted.
  - constructor; unfold heartbeats; simpl.
    + constructor.
    + constructor.
    + constructor.
    + intros H. now elim H.
    + constructor.
Qed.

Lemma ka_reachable (env : Env) (cfg : Config) (s : State) :
  Part000.reachable env cfg s -> KeepAliveInv s.
Proof.
  intros [evs Hevs]. pose proof (ka_launch env cfg) as H0.
  revert H0 Hevs. generalize (Part000.launch env cfg) as s0.
  unfold Part000.steps.
  induction evs as [|ev r IH]; simpl; intros s0 H0 Hevs.
  - inversion Hevs; subst. exact H0.
  - destruct (loop_step _ _ _ _ _ _ ev s0) as [s1|] eqn:E; [|discriminate].
    apply (IH s1); [|exact Hevs]. eapply ka_step; eauto.
Qed.

(** X17: in the retry revision, which sets [keepAliveTimeoutId] to [null]
    when it clears the heartbeat, the variable tells whether a heartbeat is
    scheduled: in every reachable state at most one heartbeat timer exists,
    none exists exactly when the variable is unset, and when it is set the
    one scheduled heartbeat is the timer it names. *)
Theorem part000_heartbeat_tracks_variable (env : Env) (cfg : Config) (s : State) :
  Part000.reachable env cfg s ->
  List.length (heartbeats s) <= 1
  /\ (keepAliveTimeoutId (vars s) = None <-> heartbeats s = [])
  /\ (forall id, keepAliveTimeoutId (vars s) = Some id ->
                 exists tm, heartbeats s = [tm] /\ timer_id tm = id).
Proof.
  intros Hr. pose proof (ka_reachable env cfg s Hr) as H.
  destruct H as [H1 H2 H3 H4 H5].
  assert (Hlen : List.length (heartbeats s) <= 1).
  { destruct (keepAliveTimeoutId (vars s)) as [id|] eqn:Ek.
    - apply (same_id_at_most_one (heartbeats s) id).
      + unfold heartbeats. now apply timers_distinct_filter.
      + eapply Forall_impl; [|exact H3]. simpl. intros tm E. now inversion E.
    - destruct (heartbeats s) as [|tm r]; simpl; [lia|].
      inversion H3 as [|? ? Hc _]; subst. discriminate. }
  split; [exact Hlen|]. split; [split|].
  - intros Hk. destruct (heartbeats s) as [|tm r]; [reflexivity|].
    inversion H3 as [|? ? E _]; subst. rewrite Hk in E. discriminate.
  - intros Hnone. destruct (keepAliveTimeoutId (vars s)) as [id|] eqn:Ek; [|reflexivity].
    exfalso. apply H4; [discriminate | exact Hnone].
  - intros id Ek.
    assert (Hne : heartbeats s <> []) by (apply H4; rewrite Ek; discriminate).
    destruct (heartbeats s) as [|tm [|y r]]; [congruence | | simpl in Hlen; lia].
    exists tm. split; [reflexivity|].
    inversion H3 as [|? ? E _]; subst. rewrite Ek in E. now inversion E.
Qed.

Lemma part000_heartbeat_tracks_variable_witness :
  List.length (heartbeats sampleSecondInit) <= 1
  /\ (keepAliveTimeoutId (vars sampleSecondInit) = None <-> heartbeats sampleSecondInit = [])
  /\ (forall id, keepAliveTimeoutId (vars sampleSecondInit) = Some id ->
                 exists tm, heartbeats sampleSecondInit = [tm] /\ timer_id tm = id).
Proof.
  apply (part000_heartbeat_tracks_variable sampleEnv cfgDefault).
  exists (firstn 8 sampleEvents). vm_compute. reflexivity.
Defined.
